(** * Line-of-sight clearance calculator (Assignments/1/Submission/FirstQuestion.py)

    A shallow embedding of the script and the proofs of its specified
    properties.

    Python's [float] is IEEE 754 binary64: it is modelled by Rocq's primitive
    [float], whose operations are specified by [SpecFloat] through the
    axioms of [FloatAxioms].  Python's [int] is unbounded: it is modelled by
    [Z].  A run of the script either terminates normally or stops on the
    first uncaught exception; the files it reads and writes live in a file
    system modelled as a finite map from file names to their text. *)

From Stdlib Require Import ZArith List String Ascii Floats Lia Bool DecimalString.
From stdpp Require Import base strings gmap.
Import ListNotations.

Set Warnings "-inexact-float".

Open Scope Z_scope.

(** ** Exceptions and the result of a computation *)

Module Py.

(** The exceptions the script can raise. *)
Inductive exn : Set :=
| FileNotFoundError
| IndexError
| ValueError
| ZeroDivisionError
| OverflowError.

Inductive result (A : Type) : Type :=
| Ok (a : A)
| Raise (e : exn).
Arguments Ok {A} a.
Arguments Raise {A} e.

Definition bind {A B : Type} (r : result A) (k : A -> result B) : result B :=
  match r with
  | Ok a => k a
  | Raise e => Raise e
  end.

Definition succeeds {A : Type} (r : result A) : bool :=
  match r with Ok _ => true | Raise _ => false end.

End Py.
Export Py.

Notation "'let*' x ':=' e 'in' k" := (bind e (fun x => k))
  (at level 10, x name, e at level 200, k at level 200).

(** ** Numbers *)

(** [int.__float__]: the integer rounded to the nearest binary64 value, ties
    to even; [OverflowError] when it is out of range. *)
Definition int_to_float (n : Z) : result float :=
  match binary_normalize prec emax n 0 false with
  | S754_infinity _ => Raise OverflowError
  | s => Ok (SF2Prim s)
  end.

(** [x * n], [x / n], [n / x] and [n + x] for a float [x] and an int [n]: the
    int operand is converted first; true division by zero raises. *)
Definition float_mul_int (x : float) (n : Z) : result float :=
  let* y := int_to_float n in Ok (x * y)%float.

Definition float_truediv_int (x : float) (n : Z) : result float :=
  let* y := int_to_float n in
  if (y =? 0)%float then Raise ZeroDivisionError else Ok (x / y)%float.

Definition int_truediv_float (n : Z) (x : float) : result float :=
  let* y := int_to_float n in
  if (x =? 0)%float then Raise ZeroDivisionError else Ok (y / x)%float.

Definition int_add_float (n : Z) (x : float) : result float :=
  let* y := int_to_float n in Ok (y + x)%float.

Definition int_mul_float (n : Z) (x : float) : result float :=
  let* y := int_to_float n in Ok (y * x)%float.

(** [math.sqrt]: a domain error when the result is NaN and the argument is
    not. *)
Definition math_sqrt (x : float) : result float :=
  let r := PrimFloat.sqrt x in
  if is_nan r && negb (is_nan x) then Raise ValueError else Ok r.

(** The running maxima start as the int [0] and become floats as soon as a
    candidate exceeds them: a value of either type. *)
Inductive number : Set :=
| Int (n : Z)
| Float (x : float).

(** Python compares a float with an int exactly. *)
Definition float_compare_int (x : float) (n : Z) : option comparison :=
  match Prim2SF x with
  | S754_nan => None
  | S754_infinity s => Some (if s then Lt else Gt)
  | S754_zero _ => Some (0 ?= n)
  | S754_finite s m e =>
      let v := cond_Zopp s (Zpos m) in
      Some (if 0 <=? e then (v * 2 ^ e ?= n) else (v ?= n * 2 ^ (- e)))
  end.

(** [x > a] *)
Definition float_gt (x : float) (a : number) : bool :=
  match a with
  | Int n => match float_compare_int x n with Some Gt => true | _ => false end
  | Float y => (y <? x)%float
  end.

(** [max(a, x)] keeps its first argument unless the second is greater. *)
Definition py_max (a : number) (x : float) : number :=
  if float_gt x a then Float x else a.

(** [x - a] *)
Definition float_sub (x : float) (a : number) : result float :=
  match a with
  | Int n => let* y := int_to_float n in Ok (x - y)%float
  | Float y => Ok (x - y)%float
  end.

(** [n + a] *)
Definition int_add (n : Z) (a : number) : result number :=
  match a with
  | Int m => Ok (Int (n + m))
  | Float y => let* x := int_add_float n y in Ok (Float x)
  end.

(** ** [format(x, '.4f')] *)

(** The nearest integer to [n / d], ties to even ([0 < d]). *)
Definition round_half_even (n d : Z) : Z :=
  let q := n / d in
  match 2 * (n mod d) ?= d with
  | Lt => q
  | Eq => if Z.even q then q else q + 1
  | Gt => q + 1
  end.

Definition digit (d : Z) : ascii := ascii_of_N (48 + Z.to_N d).

Definition decimal (n : Z) : string := NilZero.string_of_uint (N.to_uint (Z.to_N n)).

(** The text of [q / 10000] with four decimals, for [0 <= q]. *)
Definition fixed4 (q : Z) : string :=
  let f := q mod 10000 in
  (decimal (q / 10000) ++
   String "." (String (digit (f / 1000)) (String (digit (f / 100 mod 10))
     (String (digit (f / 10 mod 10)) (String (digit (f mod 10)) EmptyString)))))%string.

(** The exact value of the float is rounded to four decimals, ties to even,
    and the sign is kept, also on a result that rounds to zero. *)
Definition format_4f_float (x : float) : string :=
  match Prim2SF x with
  | S754_nan => "nan"
  | S754_infinity s => if s then "-inf" else "inf"
  | S754_zero s => ((if s then "-" else "") ++ "0.0000")%string
  | S754_finite s m e =>
      let q := if 0 <=? e then Zpos m * 2 ^ e * 10000
               else round_half_even (Zpos m * 10000) (2 ^ (- e)) in
      ((if s then "-" else "") ++ fixed4 q)%string
  end.

(** An int is converted to a float before it is formatted. *)
Definition format_4f (a : number) : result string :=
  match a with
  | Int n => let* x := int_to_float n in Ok (format_4f_float x)
  | Float x => Ok (format_4f_float x)
  end.

(** ** Reading text

    The content of a file is its bytes.  Reading in text mode decodes them;
    on ASCII bytes the decoding is the identity, and the model reads the
    bytes as the text (see [plain] for the inputs on which the model is
    what the script computes). *)

Definition LF : ascii := ascii_of_N 10.
Definition CR : ascii := ascii_of_N 13.

(** Text mode translates the line endings CR LF and CR to LF. *)
Fixpoint universal_newlines (s : string) : string :=
  match s with
  | EmptyString => EmptyString
  | String c s' =>
      if Ascii.eqb c CR then
        match s' with
        | String c' s'' =>
            if Ascii.eqb c' LF then String LF (universal_newlines s'')
            else String LF (universal_newlines s')
        | EmptyString => String LF EmptyString
        end
      else String c (universal_newlines s')
  end.

(** The lines of a text, each with its line feed. *)
Fixpoint split_lines (s : string) : list string :=
  match s with
  | EmptyString => []
  | String c s' =>
      if Ascii.eqb c LF then String c EmptyString :: split_lines s'
      else match split_lines s' with
           | [] => [String c EmptyString]
           | l :: ls => String c l :: ls
           end
  end.

Definition readlines (text : string) : list string :=
  split_lines (universal_newlines text).

(** [l[i]], with Python's negative indices. *)
Definition getitem {A : Type} (l : list A) (i : Z) : result A :=
  let n := Z.of_nat (length l) in
  let j := if i <? 0 then i + n else i in
  if (0 <=? j) && (j <? n) then
    match nth_error l (Z.to_nat j) with
    | Some a => Ok a
    | None => Raise IndexError
    end
  else Raise IndexError.

(** [range(start, stop, step)] for a positive step. *)
Definition py_range (start stop step : Z) : list Z :=
  List.map (fun k => start + step * Z.of_nat k)
           (seq 0 (Z.to_nat ((stop - start + step - 1) / step))).

(** ** [int(s)] and [float(s)] on ASCII text

    On text that is not ASCII, [int] and [float] also accept the decimal
    digits and the white space of other scripts; [py_int] and [py_float]
    model them on ASCII text, and [int] without the limit of 4300 digits
    that recent versions of Python apply. *)

(** The white space [int] and [float] strip from ASCII text: tab, line
    feed, vertical tab, form feed, carriage return and space. *)
Definition is_space (c : ascii) : bool :=
  let n := N_of_ascii c in
  ((9 <=? n) && (n <=? 13) || (n =? 32))%N.

Definition is_digit (c : ascii) : bool :=
  let n := N_of_ascii c in ((48 <=? n) && (n <=? 57))%N.

Definition digit_value (c : ascii) : Z := Z.of_N (N_of_ascii c) - 48.

Fixpoint lstrip (s : string) : string :=
  match s with
  | String c s' => if is_space c then lstrip s' else s
  | EmptyString => EmptyString
  end.

Fixpoint rstrip (s : string) : string :=
  match s with
  | String c s' =>
      match rstrip s' with
      | EmptyString => if is_space c then EmptyString else String c EmptyString
      | t => String c t
      end
  | EmptyString => EmptyString
  end.

Definition strip (s : string) : string := rstrip (lstrip s).

(** Decimal digits, single underscores allowed between two digits.
    [after_digit] tells whether the previous character was a digit. *)
Fixpoint digits (acc : Z) (after_digit : bool) (s : string) : option Z :=
  match s with
  | EmptyString => if after_digit then Some acc else None
  | String c s' =>
      if is_digit c then digits (10 * acc + digit_value c) true s'
      else if Ascii.eqb c "_" then
        if after_digit then digits acc false s' else None
      else None
  end.

Definition signed (s : string) : bool * string :=
  match s with
  | String "+" s' => (false, s')
  | String "-" s' => (true, s')
  | _ => (false, s)
  end.

(** [int(s)]: optional white space, an optional sign, decimal digits. *)
Definition py_int (s : string) : result Z :=
  let (neg, t) := signed (strip s) in
  match digits 0 false t with
  | Some n => Ok (if neg then - n else n)
  | None => Raise ValueError
  end.

Definition lower (c : ascii) : ascii :=
  let n := N_of_ascii c in
  if ((65 <=? n) && (n <=? 90))%N then ascii_of_N (n + 32) else c.

Fixpoint lowercase (s : string) : string :=
  match s with
  | String c s' => String (lower c) (lowercase s')
  | EmptyString => EmptyString
  end.

(** An underscore is accepted after a digit and before a digit only; the
    accepted ones are dropped.  [prev] is the previous character. *)
Fixpoint drop_underscores (prev : ascii) (s : string) : option string :=
  match s with
  | EmptyString => if Ascii.eqb prev "_" then None else Some EmptyString
  | String c s' =>
      if Ascii.eqb c "_" then
        if is_digit prev then drop_underscores c s' else None
      else if Ascii.eqb prev "_" && negb (is_digit c) then None
      else option_map (String c) (drop_underscores c s')
  end.

(** The leading decimal digits of [s]: their value after [acc], their number
    and the rest of the text. *)
Fixpoint leading_digits (acc : Z) (s : string) : Z * nat * string :=
  match s with
  | String c s' =>
      if is_digit c then
        let '(v, n, r) := leading_digits (10 * acc + digit_value c) s' in (v, S n, r)
      else (acc, O, s)
  | EmptyString => (acc, O, s)
  end.

(** The binary64 value nearest to [m * 10 ^ k], ties to even.  For [k < 0]
    the quotient is computed with more than 64 bits and a sticky bit. *)
Definition decimal_to_float (neg : bool) (m k : Z) : float :=
  let sign := cond_Zopp neg in
  if m =? 0 then (if neg then neg_zero else zero)
  else if 0 <=? k then SF2Prim (binary_normalize prec emax (sign (m * 10 ^ k)) 0 false)
  else
    let d := 10 ^ (- k) in
    let s := Z.max 0 (Z.log2 d + 66 - Z.log2 m) in
    let n := m * 2 ^ s in
    let q := 2 * (n / d) + (if n mod d =? 0 then 0 else 1) in
    SF2Prim (binary_normalize prec emax (sign q) (- s - 1) false).

(** The exponent part: empty, or [e] or [E], an optional sign and digits. *)
Definition exponent (s : string) : option Z :=
  match s with
  | EmptyString => Some 0
  | String c s' =>
      if Ascii.eqb (lower c) "e" then
        let (neg, t) := signed s' in
        match leading_digits 0 t with
        | (v, S _, EmptyString) => Some (if neg then - v else v)
        | _ => None
        end
      else None
  end.

(** A decimal numeral: digits with an optional point, at least one digit,
    and an optional exponent. *)
Definition decimal_numeral (neg : bool) (s : string) : option float :=
  let '(ip, ni, r) := leading_digits 0 s in
  let '(m, nf, r') :=
    match r with
    | String "." t => leading_digits ip t
    | _ => (ip, O, r)
    end in
  match (ni + nf)%nat, exponent r' with
  | S _, Some e => Some (decimal_to_float neg m (e - Z.of_nat nf))
  | _, _ => None
  end.

(** [float(s)]: optional white space, an optional sign, then [inf],
    [infinity] or [nan] in any case, or a decimal numeral. *)
Definition py_float (s : string) : result float :=
  match drop_underscores "000" (strip s) with
  | None => Raise ValueError
  | Some t =>
      let (neg, u) := signed t in
      let l := lowercase u in
      if String.eqb l "inf" || String.eqb l "infinity" then
        Ok (if neg then neg_infinity else infinity)
      else if String.eqb l "nan" then Ok nan
      else match decimal_numeral neg u with
           | Some x => Ok x
           | None => Raise ValueError
           end
  end.

(** ** The script *)

Abbreviation filesystem := (gmap string string).

Record obstruction : Set := { D1 : Z; Height : Z }.

(** The variables bound by lines 6-11 of the script. *)
Record config : Set := {
  buildingA : Z;
  buildingB : Z;
  distanceBtw : Z;
  transmissionFrequency : float;
  noOfBuilding : Z;
  variables : list obstruction
}.

Definition int_line (lines : list string) (i : Z) : result Z :=
  let* l := getitem lines i in py_int l.

Definition float_line (lines : list string) (i : Z) : result float :=
  let* l := getitem lines i in py_float l.

(** [[{'D1': int(lines[i]), 'Height': int(lines[i+1])} for i in ...]] *)
Fixpoint comprehension (lines : list string) (indices : list Z)
  : result (list obstruction) :=
  match indices with
  | [] => Ok []
  | i :: rest =>
      let* d := int_line lines i in
      let* h := int_line lines (i + 1) in
      let* vs := comprehension lines rest in
      Ok ({| D1 := d; Height := h |} :: vs)
  end.

Definition read_config (lines : list string) : result config :=
  let* a := int_line lines 0 in
  let* b := int_line lines 1 in
  let* d := int_line lines 2 in
  let* f := float_line lines 3 in
  let* n := int_line lines 4 in
  let* vs := comprehension lines (py_range 5 (5 + n * 2) 2) in
  Ok {| buildingA := a; buildingB := b; distanceBtw := d;
        transmissionFrequency := f; noOfBuilding := n; variables := vs |}.

(** The accumulators of the loop of lines 32-38. *)
Record towers : Set := {
  LOStowerA : number;
  LOStowerAs : list float;
  nearLOStowerA : number;
  nearLOStowerAs : list float
}.

Definition towers0 : towers :=
  {| LOStowerA := Int 0; LOStowerAs := [];
     nearLOStowerA := Int 0; nearLOStowerAs := [] |}.

(** [math.sqrt((waveLength*D1*D2)/(D1 + D2))] with [D2 = distanceBtw - D1] *)
Definition radius (distanceBtw : Z) (waveLength : float) (v : obstruction)
  : result float :=
  let D2 := distanceBtw - D1 v in
  let* p := float_mul_int waveLength (D1 v) in
  let* p := float_mul_int p D2 in
  let* q := float_truediv_int p (D1 v + D2) in
  math_sqrt q.

(** One obstruction: its two candidates are appended and the maxima updated. *)
Definition step (c : config) (waveLength : float) (t : towers) (v : obstruction)
  : result towers :=
  let* r := radius (distanceBtw c) waveLength v in
  let* los := int_add_float (Height v - buildingA c) (0.6 * r)%float in
  let* nlos := int_add_float (Height v - buildingA c) (0.4 * r)%float in
  Ok {| LOStowerA := py_max (LOStowerA t) los;
        LOStowerAs := LOStowerAs t ++ [los];
        nearLOStowerA := py_max (nearLOStowerA t) nlos;
        nearLOStowerAs := nearLOStowerAs t ++ [nlos] |}.

(** [for i in range(0, n): s = body(i, s)] *)
Fixpoint for_each {S : Type} (indices : list Z) (body : Z -> S -> result S) (s : S)
  : result S :=
  match indices with
  | [] => Ok s
  | i :: rest => let* s' := body i s in for_each rest body s'
  end.

Definition for_range {S : Type} (n : Z) (body : Z -> S -> result S) (s : S)
  : result S :=
  for_each (py_range 0 n 1) body s.

Definition loop (c : config) (waveLength : float) : result towers :=
  for_range (noOfBuilding c)
    (fun i t => let* v := getitem (variables c) i in step c waveLength t v)
    towers0.

(** The variables of the script when it reaches line 44. *)
Record heights : Set := {
  frequencyHz : float;
  waveLength : float;
  towersA : towers;
  LOStowerB : number;
  nearLOStowerB : number
}.

Definition clearance (c : config) : result heights :=
  let* f := float_mul_int (transmissionFrequency c) 1000000 in
  let* w := int_truediv_float 300000000 f in
  let* t := loop c w in
  let* losB := int_add (buildingA c - buildingB c) (LOStowerA t) in
  let* nlosB := int_add (buildingA c - buildingB c) (nearLOStowerA t) in
  Ok {| frequencyHz := f; waveLength := w; towersA := t;
        LOStowerB := losB; nearLOStowerB := nlosB |}.

(** [LOStowerAs[i] - LOStowerA], the gap of obstruction [i]. *)
Definition gap (candidates : list float) (top : number) (i : Z) : result float :=
  let* x := getitem candidates i in float_sub x top.

(** ** Output *)

(** What the [with] block of lines 44-60 has produced so far: the text
    written to the file and the values printed on the console. *)
Record io : Type := { written : string; printed : list float }.

(** A statement of the block: it runs in an [io] state, changes it, and
    returns or raises. *)
Definition block (A : Type) : Type := io -> result A * io.

Definition seq_block {A B : Type} (m : block A) (k : A -> block B) : block B :=
  fun s => match m s with
           | (Ok a, s') => k a s'
           | (Raise e, s') => (Raise e, s')
           end.

Definition eval {A : Type} (r : result A) : block A := fun s => (r, s).

Definition write (text : string) : block unit :=
  fun s => (Ok tt, {| written := (written s ++ text)%string; printed := printed s |}).

Definition print (x : float) : block unit :=
  fun s => (Ok tt, {| written := written s; printed := printed s ++ [x] |}).

Notation "'do*' x ':=' m 'in' k" := (seq_block m (fun x => k))
  (at level 10, x name, m at level 200, k at level 200).

Fixpoint block_for_each (indices : list Z) (body : Z -> block unit) : block unit :=
  match indices with
  | [] => eval (Ok tt)
  | i :: rest => do* _ := body i in block_for_each rest body
  end.

Definition nl : string := String LF EmptyString.

Definition write_gaps (n : Z) (candidates : list float) (top : number) : block unit :=
  block_for_each (py_range 0 n 1)
    (fun i => do* g := eval (let* d := gap candidates top i in format_4f (Float d)) in
              write (g ++ " ")).

(** Lines 45-57 of the [with open('output.txt', 'w') as f] block: the two
    reports. *)
Definition report_heights (c : config) (h : heights) : block unit :=
  let t := towersA h in
  do* _ := write ("solution is feasible for LOS" ++ nl) in
  do* a := eval (format_4f (LOStowerA t)) in
  do* _ := write ("Antenna A height for LOS = " ++ a ++ nl) in
  do* b := eval (format_4f (LOStowerB h)) in
  do* _ := write ("Antenna B height for LOS = " ++ b ++ nl) in
  do* _ := write ("GAP for each building " ++ nl) in
  do* _ := write_gaps (noOfBuilding c) (LOStowerAs t) (LOStowerA t) in
  do* _ := write nl in
  do* _ := write ("solution is feasible for nearLOS" ++ nl) in
  do* a := eval (format_4f (nearLOStowerA t)) in
  do* _ := write ("Antenna A height for NLOS = " ++ a ++ nl) in
  do* b := eval (format_4f (nearLOStowerB h)) in
  do* _ := write ("Antenna B height for NLOS = " ++ b ++ nl) in
  do* _ := write ("GAP for each building " ++ nl) in
  write_gaps (noOfBuilding c) (nearLOStowerAs t) (nearLOStowerA t).

Section Script.

(** The C library's [log10], which [math.log10] calls on a positive finite
    argument.  Its results are platform-specific: a parameter. *)
Variable libm_log10 : float -> float.

Definition m_log10 (x : float) : float :=
  if is_finite x then
    if (0 <? x)%float then libm_log10 x
    else if (x =? 0)%float then neg_infinity else nan
  else if is_nan x then x
  else if (0 <? x)%float then x else nan.

(** [math.log10]: a domain error on zero and on negative arguments. *)
Definition math_log10 (x : float) : result float :=
  let r := m_log10 x in
  if is_nan r && negb (is_nan x) then Raise ValueError
  else if is_infinity r && is_finite x then Raise ValueError
  else Ok r.

(** [92.5 + 20*math.log10((transmissionFrequency*distanceBtw/1000000000)/1000)] *)
Definition attenuation (frequencyHz : float) (distanceBtw : Z) : result float :=
  let* x := float_mul_int frequencyHz distanceBtw in
  let* x := float_truediv_int x 1000000000 in
  let* x := float_truediv_int x 1000 in
  let* l := math_log10 x in
  let* d := int_mul_float 20 l in
  Ok (92.5 + d)%float.

(** The body of [with open('output.txt', 'w') as f]: the reports, then
    lines 58-60. *)
Definition report (c : config) (h : heights) : block unit :=
  do* _ := report_heights c h in
  do* att := eval (attenuation (frequencyHz h) (distanceBtw c)) in
  do* _ := print att in
  write nl.

(** The end of a run: the exception that stopped it, if any, the file
    system it leaves and what it printed. *)
Record outcome : Type := {
  exception : option exn;
  files : filesystem;
  console : list float
}.

Definition raised {A : Type} (r : result A) : option exn :=
  match r with Ok _ => None | Raise e => Some e end.

(** Lines 3-42: everything before the output file is opened. *)
Definition compute (text : string) : result (config * heights) :=
  let* c := read_config (readlines text) in
  let* h := clearance c in
  Ok (c, h).

(** A run of the script in the file system [fs].  Opening the output file
    for writing creates or truncates it; an exception inside the block
    leaves what was written before it. *)
Definition run (fs : filesystem) : outcome :=
  match fs !! "deploy_data.txt"%string with
  | None => {| exception := Some FileNotFoundError; files := fs; console := [] |}
  | Some text =>
      match compute text with
      | Raise e => {| exception := Some e; files := fs; console := [] |}
      | Ok (c, h) =>
          let '(r, s) := report c h {| written := ""; printed := [] |} in
          {| exception := raised r;
             files := <["output.txt"%string := written s]> fs;
             console := printed s |}
      end
  end.

End Script.

(** [a <= b], exact also between an int and a float. *)
Definition py_le (a b : number) : bool :=
  match a, b with
  | Int m, Int n => m <=? n
  | Float x, Float y => (x <=? y)%float
  | Float x, Int n =>
      match float_compare_int x n with Some (Lt | Eq) => true | _ => false end
  | Int m, Float y =>
      match float_compare_int y m with Some (Gt | Eq) => true | _ => false end
  end.

(** * Notions of the specification *)

(** ** Binary64 rounding *)

Module Binary64.

(** After [k] shifts of [m]: the quotient, and the position of the remainder
    with respect to half of [2 ^ k]. *)
Definition shifted (m : Z) (k : Z) (R : shr_record) : Prop :=
  shr_m R = m / 2 ^ k /\
  exists u, 0 <= u < 2 ^ k /\
    2 * (m mod 2 ^ k) = (if shr_r R then 2 ^ k else 0) + u /\
    shr_s R = negb (u =? 0).

(** The float of sign [s] with integer significand [R] at exponent [E],
    where [R] has at most 53 digits or is [2 ^ 53]. *)
Definition rounded (s : bool) (R E : Z) : spec_float :=
  if R =? 0 then S754_zero s
  else if R =? 2 ^ 53 then
    if E + 1 <=? 971 then S754_finite s (Z.to_pos (2 ^ 52)) (E + 1) else S754_infinity s
  else if E <=? 971 then S754_finite s (Z.to_pos R) E else S754_infinity s.

Definition target (m e : Z) : Z := fexp prec emax (Zdigits2 m + e).

(** The results of rounding a positive value are not negative. *)
Definition nonneg (x : spec_float) : bool :=
  match x with
  | S754_zero _ => true
  | S754_infinity s | S754_finite s _ _ => negb s
  | S754_nan => false
  end.

(** The value of a finite float, in units of [2 ^ -1074]. *)
Definition Zval (x : spec_float) : Z :=
  match x with
  | S754_finite s m e => cond_Zopp s (Z.pos m) * 2 ^ (e + 1074)
  | _ => 0
  end.

Definition is_fin (x : spec_float) : bool :=
  match x with
  | S754_zero _ | S754_finite _ _ _ => true
  | _ => false
  end.

(** Zeros compare equal whatever their sign. *)
Definition unsign (x : spec_float) : spec_float :=
  match x with
  | S754_zero _ => S754_zero false
  | _ => x
  end.

Definition not_nan (x : spec_float) : bool :=
  match x with S754_nan => false | _ => true end.

(** The class of a float that is not NaN (from -2 for the negative infinity to 2 for the positive one), and
    its exponent and significand, negated for a negative float. *)
Definition key (x : spec_float) : Z * Z * Z :=
  match x with
  | S754_infinity true => (-2, 0, 0)
  | S754_finite true m e => (-1, - e, - Z.pos m)
  | S754_zero _ | S754_nan => (0, 0, 0)
  | S754_finite false m e => (1, e, Z.pos m)
  | S754_infinity false => (2, 0, 0)
  end.

Definition lt3 (k k' : Z * Z * Z) : Prop :=
  let '(a, b, c) := k in
  let '(a', b', c') := k' in
  a < a' \/ (a = a' /\ (b < b' \/ (b = b' /\ c < c'))).

Definition eq3 (k k' : Z * Z * Z) : Prop :=
  let '(a, b, c) := k in
  let '(a', b', c') := k' in
  a = a' /\ b = b' /\ c = c'.

End Binary64.

Import Binary64.

(** ** Values and maxima *)

(** The value of a finite float in units of [2 ^ -1074], an integer. *)
Definition value (x : float) : Z := Zval (Prim2SF x).

(** [y] is the exact sum of [k] and [x] rounded once to binary64. *)
Definition rounded_sum (k x y : float) : Prop :=
  unsign (Prim2SF y)
  = unsign (binary_normalize prec emax (value k + value x) (-1074) false).

(** [b] is [d + a] in Python arithmetic for a height [a] of tower A: the
    int [d] while [a] is the seed; for a float [a], the float [float(d) + a],
    which is the rounding of the exact sum when [a] is finite, and within
    [2 ^ -32] of it when [d] and [a] are at most [2 ^ 20] (the float
    difference [b - a] is then within [2 ^ -31] of [d]). *)
Definition towerB_of (d : Z) (a b : number) : Prop :=
  int_add d a = Ok b /\
  (a = Int 0 -> b = Int d) /\
  (forall x, a = Float x ->
     exists k y,
       int_to_float d = Ok k /\ b = Float y /\ y = (k + x)%float /\
       (is_finite x = true -> rounded_sum k x y) /\
       (Z.abs d <= 2 ^ 20 -> (x <=? 1048576)%float = true ->
        2 ^ 32 * Z.abs (value y - value x - d * 2 ^ 1074) <= 2 ^ 1074 /\
        2 ^ 31 * Z.abs (value (y - x) - d * 2 ^ 1074) <= 2 ^ 1074)).

(** The running maxima are the int [0] or a float. *)
Definition seeded (a : number) : Prop := a = Int 0 \/ exists x, a = Float x.

(** The float a seeded maximum compares as. *)
Definition seed (a : number) : float :=
  match a with
  | Int _ => 0%float
  | Float x => x
  end.

(** The near-LOS candidate is at most the LOS candidate, or both are NaN. *)
Definition paired (nlos los : float) : Prop :=
  (is_nan nlos = true /\ is_nan los = true) \/ (nlos <=? los)%float = true.

(** [top] is the maximum of the int [0] and the candidates: it is [0] or a
    positive candidate, and no candidate is greater. *)
Definition max_of (top : number) (candidates : list float) : Prop :=
  (top = Int 0 \/
   exists x, top = Float x /\ In x candidates /\ (0 <? x)%float = true) /\
  forall x, In x candidates -> float_gt x top = false.

(** The invariant of the loop. *)
Record towers_ok (t : towers) : Prop := {
  los_max : max_of (LOStowerA t) (LOStowerAs t);
  nlos_max : max_of (nearLOStowerA t) (nearLOStowerAs t);
  nlos_le_los : (seed (nearLOStowerA t) <=? seed (LOStowerA t))%float = true
}.

(** ** Runs *)

(** A statement that prints nothing. *)
Definition silent {A : Type} (m : block A) : Prop :=
  forall s, printed (snd (m s)) = printed s.

Definition io0 : io := {| written := ""; printed := [] |}.

(** What each field of a configuration was read from: [int] of the lines
    0, 1, 2 and 4, [float] of line 3, and for the obstruction [i], [int] of
    the lines [5 + 2 * i] and [6 + 2 * i]. *)
Definition read_from (lines : list string) (c : config) : Prop :=
  int_line lines 0 = Ok (buildingA c) /\
  int_line lines 1 = Ok (buildingB c) /\
  int_line lines 2 = Ok (distanceBtw c) /\
  float_line lines 3 = Ok (transmissionFrequency c) /\
  int_line lines 4 = Ok (noOfBuilding c) /\
  length (variables c) = Z.to_nat (noOfBuilding c) /\
  forall (i : nat) (v : obstruction),
    nth_error (variables c) i = Some v ->
    int_line lines (5 + 2 * Z.of_nat i) = Ok (D1 v) /\
    int_line lines (6 + 2 * Z.of_nat i) = Ok (Height v).

(** The lines read as ints: the lines 0, 1, 2 and 4, and the [2 * n] lines
    from line 5 on when line 4 holds the count [n]. *)
Definition int_position (lines : list string) (k : nat) : Prop :=
  k = 0%nat \/ k = 1%nat \/ k = 2%nat \/ k = 4%nat \/
  exists n, int_line lines 4 = Ok n /\ 5 <= Z.of_nat k < 5 + n * 2.

(** The output file when there is no obstruction, [b] being the text of
    the height of tower B. *)
Definition no_obstruction_text (b : string) : string :=
  ("solution is feasible for LOS" ++ nl ++
   "Antenna A height for LOS = 0.0000" ++ nl ++
   "Antenna B height for LOS = " ++ b ++ nl ++
   "GAP for each building " ++ nl ++
   nl ++
   "solution is feasible for nearLOS" ++ nl ++
   "Antenna A height for NLOS = 0.0000" ++ nl ++
   "Antenna B height for NLOS = " ++ b ++ nl ++
   "GAP for each building " ++ nl ++
   nl)%string.

(** ** Samples *)

(** The sample of lines 12-22 of the script. *)
Definition worked_example : config :=
  {| buildingA := 20; buildingB := 15; distanceBtw := 2000;
     transmissionFrequency := 2400; noOfBuilding := 4;
     variables := [ {| D1 := 300; Height := 18 |}; {| D1 := 600; Height := 19 |};
                    {| D1 := 1200; Height := 21 |}; {| D1 := 1600; Height := 22 |} ] |}.

(** What the script computes on it. *)
Definition worked_example_result : heights :=
  {| frequencyHz := 2400000000; waveLength := 0.125;
     towersA :=
       {| LOStowerA := Float 5.7947331922020551;
          LOStowerAs := [1.3874769371908644; 3.3474130238568316;
                         5.6475800154489004; 5.7947331922020551]%float;
          nearLOStowerA := Float 4.529822128134704;
          nearLOStowerAs := [0.25831795812724279; 1.8982753492378879;
                             4.0983866769659336; 4.529822128134704]%float |};
     LOStowerB := Float 10.794733192202056;
     nearLOStowerB := Float 9.529822128134704 |}.

(** One obstruction, lower than building A by more than its clearance. *)
Definition low_obstruction : config :=
  {| buildingA := 20; buildingB := 15; distanceBtw := 2000;
     transmissionFrequency := 2400; noOfBuilding := 1;
     variables := [ {| D1 := 1000; Height := 5 |} ] |}.

(** One obstruction of height [10 ^ 17 + 1]. *)
Definition tall_obstruction : config :=
  {| buildingA := 1; buildingB := 0; distanceBtw := 2000;
     transmissionFrequency := 2400; noOfBuilding := 1;
     variables := [ {| D1 := 1000; Height := 100000000000000001 |} ] |}.

(** An obstruction at building A on a path of length zero. *)
Definition zero_path : config :=
  {| buildingA := 20; buildingB := 15; distanceBtw := 0;
     transmissionFrequency := 2400; noOfBuilding := 1;
     variables := [ {| D1 := 0; Height := 18 |} ] |}.

(** The worked example with an obstruction at each end of the path. *)
Definition end_obstructions : config :=
  {| buildingA := 20; buildingB := 15; distanceBtw := 2000;
     transmissionFrequency := 2400; noOfBuilding := 4;
     variables := [ {| D1 := 0; Height := 18 |}; {| D1 := 600; Height := 19 |};
                    {| D1 := 1200; Height := 21 |}; {| D1 := 2000; Height := 22 |} ] |}.

(** A text file with the given lines. *)
Definition text_of (lines : list string) : string :=
  String.concat nl lines ++ nl.

Definition input (lines : list string) : filesystem :=
  <["deploy_data.txt"%string := text_of lines]> ∅.

Definition worked_example_lines : list string :=
  ["20"; "15"; "2000"; "2400"; "4";
   "300"; "18"; "600"; "19"; "1200"; "21"; "1600"; "22"]%string.

(** The worked example with a decimal numeral where an int is read. *)
Definition decimal_distance_lines : list string :=
  ["20"; "15"; "2000"; "2400"; "4";
   "300.5"; "18"; "600"; "19"; "1200"; "21"; "1600"; "22"]%string.

(** No obstruction. *)
Definition no_obstruction_lines : list string :=
  ["20"; "15"; "2000"; "2400.5"; "0"]%string.

(** No obstruction and a frequency of zero. *)
Definition zero_frequency_lines : list string :=
  ["20"; "15"; "2000"; "0"; "0"]%string.

(** No obstruction and a path of length zero. *)
Definition zero_distance_lines : list string :=
  ["20"; "15"; "0"; "2400"; "0"]%string.

(** One possible C library: [log10] by the series of the inverse hyperbolic
    tangent, [ln m = 2 atanh ((m - 1) / (m + 1))] for the significand [m] of
    the argument.  It is used to run the script on the samples. *)
Fixpoint atanh_series (n : nat) (z2 term k acc : float) : float :=
  match n with
  | O => acc
  | S n' => atanh_series n' z2 (term * z2) (k + 2) (acc + term / k)
  end.

Definition ln_series (x : float) : float :=
  let (m, e) := frshiftexp x in
  let z := ((m - 1) / (m + 1))%float in
  (2 * atanh_series 30 (z * z) z 1 0
   + (of_uint63 e - 2101) * 0x1.62e42fefa39efp-1)%float.

Definition log10_series (x : float) : float := (ln_series x / ln_series 10)%float.

(** ** The output file *)

(** A GAP line: the gap of every candidate with four decimals, each followed
    by a space. *)
Fixpoint gap_text (top : float) (candidates : list float) : string :=
  match candidates with
  | [] => ""
  | x :: rest => (format_4f_float (x - top) ++ " " ++ gap_text top rest)%string
  end.

(** The output file of a run that ends normally: [a] and [b] are the texts
    of the LOS heights of the towers A and B and [g] the LOS GAP line; [a'],
    [b'] and [g'] are the same for near-LOS. *)
Definition report_text (a b g a' b' g' : string) : string :=
  ("solution is feasible for LOS" ++ nl ++
   "Antenna A height for LOS = " ++ a ++ nl ++
   "Antenna B height for LOS = " ++ b ++ nl ++
   "GAP for each building " ++ nl ++
   g ++ nl ++
   "solution is feasible for nearLOS" ++ nl ++
   "Antenna A height for NLOS = " ++ a' ++ nl ++
   "Antenna B height for NLOS = " ++ b' ++ nl ++
   "GAP for each building " ++ nl ++
   g' ++ nl)%string.

(** ** More samples *)

(** The count announces two obstructions; the height of the second is
    missing. *)
Definition truncated_lines : list string :=
  ["20"; "15"; "2000"; "2400"; "2"; "300"; "18"; "600"]%string.

(** ** The lines of the input *)

(** The input lacks a line the script reads: one of the five header lines,
    or one of the [2 * n] obstruction lines the count [n] announces. *)
Definition too_short (lines : list string) : Prop :=
  (length lines < 5)%nat \/
  exists n, int_line lines 4 = Ok n /\ Z.of_nat (length lines) < 5 + 2 * n.

(** Text mode decodes the bytes of the file in the encoding of the locale,
    and [int] refuses, in recent versions of Python, a numeral of more than
    4300 digits.  On a plain text, of ASCII bytes only and with no line of
    more than 4300 characters, the decoding is the identity in every
    encoding that extends ASCII and the limit is never met: [readlines],
    [py_int] and [py_float] are what the script computes. *)
Definition is_ascii (c : ascii) : bool := (N_of_ascii c <? 128)%N.

Fixpoint ascii_text (s : string) : bool :=
  match s with
  | EmptyString => true
  | String c s' => is_ascii c && ascii_text s'
  end.

Definition plain (text : string) : bool :=
  ascii_text text &&
  forallb (fun l => (String.length l <=? 4300)%nat) (readlines text).

(** Every line holds an int, and line 3 a float. *)
Definition well_formed (lines : list string) : Prop :=
  (forall (k : nat) (l : string),
     nth_error lines k = Some l -> k <> 3%nat -> exists n, py_int l = Ok n) /\
  (forall l : string, nth_error lines 3 = Some l -> exists x, py_float l = Ok x).

(** ** Signs *)

(** [x] is a zero, a finite float or an infinity of sign [s]. *)
Definition signed_as (s : bool) (x : spec_float) : Prop :=
  match x with
  | S754_zero s' | S754_infinity s' | S754_finite s' _ _ => s' = s
  | S754_nan => False
  end.

(** [x] is a zero, a negative float or the negative infinity. *)
Definition nonpos (x : spec_float) : Prop :=
  match x with
  | S754_zero _ => True
  | S754_infinity s | S754_finite s _ _ => s = true
  | S754_nan => False
  end.

(** One obstruction at building A on a path of length zero. *)
Definition zero_path_lines : list string :=
  ["20"; "15"; "0"; "2400"; "1"; "0"; "18"]%string.

(** ** Related configurations *)

(** Every height raised by [k]: the same site measured from a datum [k]
    lower. *)
Definition shift (k : Z) (c : config) : config :=
  {| buildingA := buildingA c + k;
     buildingB := buildingB c + k;
     distanceBtw := distanceBtw c;
     transmissionFrequency := transmissionFrequency c;
     noOfBuilding := noOfBuilding c;
     variables :=
       List.map (fun v => {| D1 := D1 v; Height := Height v + k |}) (variables c) |}.

(** The worked example with a frequency line that reads [nan]. *)
Definition nan_frequency_example : config :=
  {| buildingA := 20; buildingB := 15; distanceBtw := 2000;
     transmissionFrequency := nan; noOfBuilding := 4;
     variables := [ {| D1 := 300; Height := 18 |}; {| D1 := 600; Height := 19 |};
                    {| D1 := 1200; Height := 21 |}; {| D1 := 1600; Height := 22 |} ] |}.

(** The worked example with its obstructions listed from B to A. *)
Definition worked_example_reversed : config :=
  {| buildingA := 20; buildingB := 15; distanceBtw := 2000;
     transmissionFrequency := 2400; noOfBuilding := 4;
     variables := [ {| D1 := 1600; Height := 22 |}; {| D1 := 1200; Height := 21 |};
                    {| D1 := 600; Height := 19 |}; {| D1 := 300; Height := 18 |} ] |}.

(** A count of -3, followed by a line that is then never read. *)
Definition negative_count_lines : list string :=
  ["20"; "15"; "2000"; "2400"; "-3"; "300"]%string.

(** The worked example with its last two obstructions one metre taller. *)
Definition worked_example_taller : config :=
  {| buildingA := 20; buildingB := 15; distanceBtw := 2000;
     transmissionFrequency := 2400; noOfBuilding := 4;
     variables := [ {| D1 := 300; Height := 18 |}; {| D1 := 600; Height := 19 |};
                    {| D1 := 1200; Height := 22 |}; {| D1 := 1600; Height := 23 |} ] |}.

(** [x] is NaN or not negative. *)
Definition nan_or_nonneg (x : spec_float) : Prop := x = S754_nan \/ nonneg x = true.

(** * Binary64 arithmetic

    Facts about the rounding of [SpecFloat], which specifies the primitive
    operations: rounding to nearest even is monotone, and so are the
    operations the script applies to its candidates. *)

Module Binary64Facts.

(** * Shifting right *)

Lemma iter_pos_nat {A : Type} (f : A -> A) (p : positive) (x : A) :
  SpecFloat.iter_pos f p x = Nat.iter (Pos.to_nat p) f x.
Proof.
  revert x; induction p as [p IH|p IH|]; intros x; simpl SpecFloat.iter_pos.
  - rewrite !IH, Pos2Nat.inj_xI, <- Nat.iter_add, <- Nat.iter_succ_r.
    f_equal; lia.
  - rewrite !IH, Pos2Nat.inj_xO, <- Nat.iter_add. f_equal; lia.
  - reflexivity.
Qed.

Lemma shr_1_nonneg (m : Z) (r s : bool) :
  0 <= m ->
  shr_1 (Build_shr_record m r s) = Build_shr_record (m / 2) (Z.odd m) (r || s).
Proof.
  intros Hm. rewrite <- Z.div2_div.
  destruct m as [|[p|p|]|p]; try reflexivity; lia.
Qed.

Lemma shifted_0 (m : Z) : shifted m 0 (Build_shr_record m false false).
Proof.
  split; simpl; [now rewrite Z.div_1_r|].
  exists 0. rewrite Z.mod_1_r. simpl. repeat split; lia.
Qed.

Lemma shifted_step (m k : Z) (R : shr_record) :
  0 <= m -> 0 <= k -> shifted m k R -> shifted m (k + 1) (shr_1 R).
Proof.
  intros Hm Hk [HM (u & Hu & Hrem & Hs)].
  destruct R as [M r s]; cbn [shr_m shr_r shr_s] in *.
  assert (Hp : 0 < 2 ^ k) by (apply Z.pow_pos_nonneg; lia).
  assert (HM0 : 0 <= M) by (subst M; apply Z.div_pos; lia).
  rewrite shr_1_nonneg by exact HM0.
  assert (Hpow : 2 ^ (k + 1) = 2 * 2 ^ k) by (rewrite Z.pow_add_r by lia; lia).
  assert (Hdiv : m / 2 ^ (k + 1) = M / 2).
  { rewrite Hpow, Z.mul_comm, <- Z.div_div by lia. now subst M. }
  assert (Hmod : m mod 2 ^ (k + 1) = 2 ^ k * (M mod 2) + m mod 2 ^ k).
  { rewrite Hpow, Z.mul_comm, Z.rem_mul_r by lia. subst M. lia. }
  split; cbn [shr_m shr_r shr_s]; [symmetry; exact Hdiv|].
  exists (2 * (m mod 2 ^ k)).
  assert (Hr : 0 <= m mod 2 ^ k < 2 ^ k) by (apply Z.mod_pos_bound; lia).
  rewrite Hmod, Hpow, Zodd_mod.
  assert (Hb : M mod 2 = 0 \/ M mod 2 = 1) by (pose proof (Z.mod_pos_bound M 2); lia).
  repeat split; try lia.
  - destruct (Z.eqb_spec (M mod 2) 1); lia.
  - rewrite Hs.
    destruct (Z.eqb_spec (2 * (m mod 2 ^ k)) 0), (Z.eqb_spec u 0), r;
      cbn [orb negb]; try reflexivity; lia.
Qed.

Lemma shifted_iter (m : Z) (n : nat) :
  0 <= m ->
  shifted m (Z.of_nat n) (Nat.iter n shr_1 (Build_shr_record m false false)).
Proof.
  intros Hm. induction n as [|n IH].
  - apply shifted_0.
  - rewrite Nat2Z.inj_succ, <- Z.add_1_r. simpl Nat.iter.
    apply shifted_step; [exact Hm | lia | exact IH].
Qed.

Lemma shifted_round (m k : Z) (R : shr_record) :
  0 <= k -> shifted m k R ->
  round_nearest_even (shr_m R) (loc_of_shr_record R) = round_half_even m (2 ^ k).
Proof.
  intros Hk [HM (u & Hu & Hrem & Hs)].
  destruct R as [M r s]; cbn [shr_m shr_r shr_s] in *. subst M.
  unfold round_half_even. rewrite Hrem.
  destruct r, s; cbn [loc_of_shr_record round_nearest_even]; rewrite ?Z.add_0_l.
  - destruct (Z.eqb_spec u 0); [discriminate|].
    now replace (2 ^ k + u ?= 2 ^ k) with Gt by (symmetry; apply Z.compare_gt_iff; lia).
  - destruct (Z.eqb_spec u 0); [|discriminate]. subst u.
    now rewrite Z.add_0_r, Z.compare_refl.
  - now replace (u ?= 2 ^ k) with Lt by (symmetry; apply Z.compare_lt_iff; lia).
  - now replace (u ?= 2 ^ k) with Lt by (symmetry; apply Z.compare_lt_iff; lia).
Qed.

(** [shr] followed by rounding to nearest even is [round_half_even]. *)
Lemma shr_round (m e n : Z) :
  0 <= m -> 0 <= n ->
  let '(R, e') := shr (Build_shr_record m false false) e n in
  e' = e + n /\
  round_nearest_even (shr_m R) (loc_of_shr_record R) = round_half_even m (2 ^ n).
Proof.
  intros Hm Hn. destruct n as [|p|p]; try lia; simpl shr.
  - split; [lia|]. apply (shifted_round m 0); [lia | apply shifted_0].
  - split; [reflexivity|]. rewrite iter_pos_nat.
    rewrite <- (positive_nat_Z p). apply shifted_round; [lia|].
    apply shifted_iter; exact Hm.
Qed.

(** * Rounding to the nearest integer, ties to even *)

Lemma rhe_cases (n d : Z) :
  0 < d ->
  let q := n / d in let r := n mod d in
  n = d * q + r /\ 0 <= r < d /\
  ((2 * r < d /\ round_half_even n d = q) \/
   (2 * r = d /\ round_half_even n d = (if Z.even q then q else q + 1)) \/
   (d < 2 * r /\ round_half_even n d = q + 1)).
Proof.
  intros Hd q r. split; [apply Z.div_mod; lia|].
  split; [apply Z.mod_pos_bound; lia|].
  unfold round_half_even. fold q r.
  destruct (Z.compare_spec (2 * r) d); [right; left | left | right; right]; auto.
Qed.

Lemma rhe_mono (n1 n2 d : Z) :
  0 < d -> n1 <= n2 -> round_half_even n1 d <= round_half_even n2 d.
Proof.
  intros Hd Hn.
  destruct (rhe_cases n1 d Hd) as (E1 & B1 & C1).
  destruct (rhe_cases n2 d Hd) as (E2 & B2 & C2).
  assert (Hq : n1 / d <= n2 / d) by (apply Z.div_le_mono; lia).
  destruct (Z.eq_dec (n1 / d) (n2 / d)) as [Heq|Hne].
  - rewrite Heq in *.
    destruct (Z.even (n2 / d));
      destruct C1 as [[? ->]|[[? ->]|[? ->]]], C2 as [[? ->]|[[? ->]|[? ->]]]; lia.
  - destruct (Z.even (n1 / d)), (Z.even (n2 / d));
      destruct C1 as [[? ->]|[[? ->]|[? ->]]], C2 as [[? ->]|[[? ->]|[? ->]]]; lia.
Qed.

Lemma rhe_exact (q d : Z) : 0 < d -> round_half_even (q * d) d = q.
Proof.
  intros Hd. unfold round_half_even.
  rewrite Z.mod_mul, Z.div_mul by lia.
  now replace (2 * 0 ?= d) with Lt by (symmetry; apply Z.compare_lt_iff; lia).
Qed.

Lemma rhe_le (n d b : Z) : 0 < d -> n <= b * d -> round_half_even n d <= b.
Proof.
  intros Hd Hn. rewrite <- (rhe_exact b d Hd). now apply rhe_mono.
Qed.

Lemma rhe_ge (n d b : Z) : 0 < d -> b * d <= n -> b <= round_half_even n d.
Proof.
  intros Hd Hn. rewrite <- (rhe_exact b d Hd). now apply rhe_mono.
Qed.

Lemma rhe_scale (n d c : Z) :
  0 < d -> 0 < c -> round_half_even (n * c) (d * c) = round_half_even n d.
Proof.
  intros Hd Hc. unfold round_half_even.
  rewrite Z.div_mul_cancel_r, Z.mul_mod_distr_r by lia.
  replace (2 * (n mod d * c)) with (2 * (n mod d) * c) by lia.
  now rewrite <- Zmult_compare_compat_r by lia.
Qed.

Lemma rhe_1 (n : Z) : round_half_even n 1 = n.
Proof. rewrite <- (Z.mul_1_r n) at 1. apply rhe_exact; lia. Qed.

(** * Number of binary digits *)

Lemma digits2_size (p : positive) : digits2_pos p = Pos.size p.
Proof. induction p; simpl; congruence. Qed.

Lemma Zdigits2_bounds (m : Z) :
  0 < m -> 2 ^ (Zdigits2 m - 1) <= m < 2 ^ Zdigits2 m.
Proof.
  destruct m as [|p|p]; try lia. intros _. simpl Zdigits2.
  rewrite digits2_size.
  pose proof (Pos.size_gt p) as Hgt. pose proof (Pos.size_le p) as Hle.
  apply Pos2Z.pos_lt_pos in Hgt. apply Pos2Z.pos_le_pos in Hle.
  rewrite Pos2Z.inj_pow in Hgt, Hle.
  replace (Z.pos (Pos.size p)) with (Z.pos (Pos.size p) - 1 + 1) in Hle at 1 by lia.
  rewrite Z.pow_add_r in Hle by lia.
  change (Z.pos p~0) with (2 * Z.pos p) in Hle. lia.
Qed.

Lemma Zdigits2_pos (m : Z) : 0 < m -> 0 < Zdigits2 m.
Proof. destruct m; simpl; lia. Qed.

Lemma Zdigits2_lt (m d : Z) : 0 < m -> 0 <= d -> m < 2 ^ d -> Zdigits2 m <= d.
Proof.
  intros Hm Hd Hlt. pose proof (Zdigits2_bounds m Hm) as [Hlo _].
  pose proof (Zdigits2_pos m Hm).
  destruct (Z.le_gt_cases (Zdigits2 m) d) as [|Hgt]; [assumption|].
  assert (2 ^ d <= 2 ^ (Zdigits2 m - 1)) by (apply Z.pow_le_mono_r; lia). lia.
Qed.

Lemma Zdigits2_ge (m d : Z) : 0 < m -> 2 ^ (d - 1) <= m -> d <= Zdigits2 m.
Proof.
  intros Hm Hge. pose proof (Zdigits2_bounds m Hm) as [_ Hhi].
  pose proof (Zdigits2_pos m Hm).
  destruct (Z.le_gt_cases d (Zdigits2 m)) as [|Hgt]; [assumption|].
  assert (2 ^ Zdigits2 m <= 2 ^ (d - 1)) by (apply Z.pow_le_mono_r; lia). lia.
Qed.

Lemma Zdigits2_mono (m1 m2 : Z) : 0 < m1 -> m1 <= m2 -> Zdigits2 m1 <= Zdigits2 m2.
Proof.
  intros H1 H12. apply Zdigits2_ge; [lia|].
  pose proof (Zdigits2_bounds m1 H1). lia.
Qed.

Lemma Zdigits2_shift (m j : Z) :
  0 < m -> 0 <= j -> Zdigits2 (m * 2 ^ j) = Zdigits2 m + j.
Proof.
  intros Hm Hj.
  assert (Hp : 0 < 2 ^ j) by (apply Z.pow_pos_nonneg; lia).
  pose proof (Zdigits2_bounds m Hm) as [Hlo Hhi].
  pose proof (Zdigits2_pos m Hm).
  apply Z.le_antisymm.
  - apply Zdigits2_lt; [nia | lia |]. rewrite Z.pow_add_r by lia. nia.
  - apply Zdigits2_ge; [nia|].
    replace (Zdigits2 m + j - 1) with (Zdigits2 m - 1 + j) by lia.
    rewrite Z.pow_add_r by lia. nia.
Qed.

(** * The rounding of binary64 *)

Lemma fexp_eq (x : Z) : fexp prec emax x = Z.max (x - 53) (-1074).
Proof. reflexivity. Qed.

Lemma target_eq (m e : Z) : target m e = Z.max (Zdigits2 m + e - 53) (-1074).
Proof. reflexivity. Qed.

Lemma target_ge (m e : Z) : -1074 <= target m e /\ Zdigits2 m + e - 53 <= target m e.
Proof. unfold target. rewrite fexp_eq. lia. Qed.

Lemma round_target_le (m e : Z) :
  0 < m -> e <= target m e ->
  0 <= round_half_even m (2 ^ (target m e - e)) <= 2 ^ 53.
Proof.
  intros Hm He. pose proof (target_ge m e) as [_ Ht].
  pose proof (Zdigits2_bounds m Hm) as [_ Hhi]. pose proof (Zdigits2_pos m Hm).
  assert (Hp : 0 < 2 ^ (target m e - e)) by (apply Z.pow_pos_nonneg; lia).
  split.
  - apply rhe_ge; lia.
  - apply rhe_le; [exact Hp|]. rewrite <- Z.pow_add_r by lia.
    assert (2 ^ Zdigits2 m <= 2 ^ (53 + (target m e - e))) by (apply Z.pow_le_mono_r; lia).
    lia.
Qed.

Lemma binary_round_aux_exact (s : bool) (m e : Z) :
  0 < m -> e <= target m e ->
  binary_round_aux prec emax s m e loc_Exact =
  rounded s (round_half_even m (2 ^ (target m e - e))) (target m e).
Proof.
  intros Hm He.
  pose proof (round_target_le m e Hm He) as HR.
  pose proof (target_ge m e) as [Hmin _].
  unfold binary_round_aux, shr_fexp. fold (target m e).
  cbn [shr_record_of_loc].
  pose proof (shr_round m e (target m e - e)) as Hshr.
  destruct (shr _ e (target m e - e)) as [R1 e1].
  destruct Hshr as [-> ->]; [lia | lia|].
  replace (e + (target m e - e)) with (target m e) by lia.
  set (R := round_half_even m (2 ^ (target m e - e))) in *.
  set (E := target m e) in *.
  unfold rounded.
  destruct (Z.eqb_spec R 0) as [HR0|HR0].
  - rewrite HR0. cbn [Zdigits2]. rewrite Z.add_0_l, fexp_eq.
    destruct (Z.max (E - 53) (-1074) - E) eqn:Hn; try reflexivity. lia.
  - destruct (Z.eqb_spec R (2 ^ 53)) as [HR1|HR1].
    + rewrite HR1. change (Zdigits2 (2 ^ 53)) with 54. rewrite fexp_eq.
      replace (Z.max (54 + E - 53) (-1074) - E) with 1 by lia.
      reflexivity.
    + assert (Hd : Zdigits2 R <= 53) by (apply Zdigits2_lt; lia).
      rewrite fexp_eq.
      destruct (Z.max (Zdigits2 R + E - 53) (-1074) - E) eqn:Hn; try lia;
        cbn [shr shr_m]; destruct R; try lia; reflexivity.
Qed.

Lemma round_target_normal (m e : Z) :
  0 < m -> e <= target m e -> target m e = Zdigits2 m + e - 53 ->
  2 ^ 52 <= round_half_even m (2 ^ (target m e - e)).
Proof.
  intros Hm He Ht.
  pose proof (Zdigits2_bounds m Hm) as [Hlo _]. pose proof (Zdigits2_pos m Hm).
  apply rhe_ge; [apply Z.pow_pos_nonneg; lia|].
  rewrite <- Z.pow_add_r by lia.
  now replace (52 + (target m e - e)) with (Zdigits2 m - 1) by lia.
Qed.

Lemma target_shift (m e j : Z) :
  0 < m -> 0 <= j -> target (m * 2 ^ j) (e - j) = target m e.
Proof.
  intros Hm Hj. unfold target. rewrite Zdigits2_shift by lia. f_equal; lia.
Qed.

Lemma target_mono (m1 m2 e : Z) : 0 < m1 -> m1 <= m2 -> target m1 e <= target m2 e.
Proof.
  intros H1 H12. pose proof (Zdigits2_mono m1 m2 H1 H12).
  unfold target. rewrite !fexp_eq. lia.
Qed.

Abbreviation BR s m e := (binary_round_aux prec emax s m e loc_Exact).

(** The rounding depends on the value [m * 2 ^ e] only. *)
Lemma BR_rescale (s : bool) (m e j : Z) :
  0 < m -> 0 <= j -> e <= target m e -> BR s (m * 2 ^ j) (e - j) = BR s m e.
Proof.
  intros Hm Hj He.
  assert (Hp : 0 < 2 ^ j) by (apply Z.pow_pos_nonneg; lia).
  rewrite !binary_round_aux_exact; rewrite ?target_shift; try lia; try nia.
  f_equal.
  replace (target m e - (e - j)) with (target m e - e + j) by lia.
  rewrite Z.pow_add_r by lia.
  apply rhe_scale; [apply Z.pow_pos_nonneg; lia | exact Hp].
Qed.

(** * Order *)

Lemma SFleb_finite_pos (m1 e1 m2 e2 : Z) :
  0 < m1 -> 0 < m2 -> e1 < e2 \/ (e1 = e2 /\ m1 <= m2) ->
  SFleb (S754_finite false (Z.to_pos m1) e1) (S754_finite false (Z.to_pos m2) e2) = true.
Proof.
  intros H1 H2 H. unfold SFleb, SFcompare.
  destruct H as [H|[-> H]].
  - now apply Z.compare_lt_iff in H as ->.
  - rewrite Z.compare_refl.
    change (Pos.compare_cont Eq (Z.to_pos m1) (Z.to_pos m2))
      with (Z.to_pos m1 ?= Z.to_pos m2)%positive.
    destruct (Pos.compare_spec (Z.to_pos m1) (Z.to_pos m2)); try reflexivity. lia.
Qed.

Lemma rounded_le (R1 E1 R2 E2 : Z) :
  0 <= R1 <= 2 ^ 53 -> 0 <= R2 <= 2 ^ 53 ->
  (E1 = E2 /\ R1 <= R2) \/ (E1 < E2 /\ 2 ^ 52 <= R2) ->
  SFleb (rounded false R1 E1) (rounded false R2 E2) = true.
Proof.
  intros H1 H2 H. unfold rounded.
  assert (P52 : 0 < 2 ^ 52) by reflexivity.
  assert (P53 : 2 ^ 53 = 2 * 2 ^ 52) by reflexivity.
  destruct (Z.eqb_spec R1 0), (Z.eqb_spec R2 0), (Z.eqb_spec R1 (2 ^ 53)),
    (Z.eqb_spec R2 (2 ^ 53)), (Z.leb_spec (E1 + 1) 971), (Z.leb_spec (E2 + 1) 971),
    (Z.leb_spec E1 971), (Z.leb_spec E2 971);
    try reflexivity; try lia; apply SFleb_finite_pos; lia.
Qed.

Lemma BR_mono (a1 a2 k : Z) :
  0 < a1 -> a1 <= a2 -> k <= target a1 k ->
  SFleb (BR false a1 k) (BR false a2 k) = true.
Proof.
  intros H1 H12 Hk.
  pose proof (target_mono a1 a2 k H1 H12) as HE.
  rewrite !binary_round_aux_exact by lia.
  apply rounded_le; try (apply round_target_le; lia).
  destruct (Z.eq_dec (target a1 k) (target a2 k)) as [Heq|Hne].
  - left. split; [exact Heq|]. rewrite Heq.
    apply rhe_mono; [apply Z.pow_pos_nonneg; lia | exact H12].
  - right. split; [lia|].
    pose proof (target_ge a1 k). pose proof (target_eq a2 k).
    apply round_target_normal; lia.
Qed.

Lemma BR_le (m1 e1 m2 e2 k : Z) :
  0 < m1 -> 0 < m2 -> k <= e1 -> k <= e2 ->
  e1 <= target m1 e1 -> e2 <= target m2 e2 ->
  m1 * 2 ^ (e1 - k) <= m2 * 2 ^ (e2 - k) ->
  SFleb (BR false m1 e1) (BR false m2 e2) = true.
Proof.
  intros H1 H2 K1 K2 T1 T2 Hle.
  rewrite <- (BR_rescale false m1 e1 (e1 - k)), <- (BR_rescale false m2 e2 (e2 - k)) by lia.
  replace (e1 - (e1 - k)) with k by lia. replace (e2 - (e2 - k)) with k by lia.
  assert (0 < 2 ^ (e1 - k)) by (apply Z.pow_pos_nonneg; lia).
  apply BR_mono; [nia | exact Hle |].
  replace k with (e1 - (e1 - k)) at 1 3 by lia. rewrite target_shift; lia.
Qed.

Lemma SFcompare_antisym (x y : spec_float) :
  SFcompare y x = option_map CompOpp (SFcompare x y).
Proof.
  destruct x as [[]|[]| |[] m1 e1], y as [[]|[]| |[] m2 e2]; try reflexivity;
    cbn [SFcompare option_map]; f_equal;
    assert (H : Pos.compare_cont Eq m2 m1 = CompOpp (Pos.compare_cont Eq m1 m2))
      by (symmetry; apply Pos.compare_cont_antisym);
    rewrite H, (Z.compare_antisym e1 e2);
    now destruct (e1 ?= e2), (Pos.compare_cont Eq m1 m2).
Qed.

Lemma SFcompare_opp (x y : spec_float) :
  SFcompare (SFopp x) (SFopp y) = SFcompare y x.
Proof.
  rewrite (SFcompare_antisym x y).
  destruct x as [[]|[]| |[] m1 e1], y as [[]|[]| |[] m2 e2]; try reflexivity;
    cbn [SFcompare SFopp negb option_map]; f_equal;
    destruct (e1 ?= e2); cbn [CompOpp]; try reflexivity;
    now destruct (Pos.compare_cont Eq m1 m2).
Qed.

Lemma SFleb_opp (x y : spec_float) : SFleb (SFopp x) (SFopp y) = SFleb y x.
Proof. unfold SFleb. now rewrite SFcompare_opp. Qed.

Lemma rounded_opp (R E : Z) : rounded true R E = SFopp (rounded false R E).
Proof.
  unfold rounded.
  now destruct (R =? 0), (R =? 2 ^ 53), (E + 1 <=? 971), (E <=? 971).
Qed.

Lemma BR_opp (m e : Z) :
  0 < m -> e <= target m e -> BR true m e = SFopp (BR false m e).
Proof. intros. rewrite !binary_round_aux_exact by lia. apply rounded_opp. Qed.

Lemma rounded_nonneg (R E : Z) : nonneg (rounded false R E) = true.
Proof.
  unfold rounded.
  now destruct (R =? 0), (R =? 2 ^ 53), (E + 1 <=? 971), (E <=? 971).
Qed.

Lemma BR_nonneg (m e : Z) : 0 < m -> e <= target m e -> nonneg (BR false m e) = true.
Proof. intros. rewrite binary_round_aux_exact by lia. apply rounded_nonneg. Qed.

Lemma nonneg_opp_le (x y : spec_float) :
  nonneg x = true -> nonneg y = true -> SFleb (SFopp x) y = true.
Proof.
  destruct x as [[]|[]| |[] m1 e1], y as [[]|[]| |[] m2 e2]; try discriminate; reflexivity.
Qed.

Lemma nonneg_zero_le (y : spec_float) :
  nonneg y = true -> SFleb (S754_zero false) y = true.
Proof. destruct y as [[]|[]| |[] m2 e2]; try discriminate; reflexivity. Qed.

Lemma nonneg_opp_le_zero (x : spec_float) :
  nonneg x = true -> SFleb (SFopp x) (S754_zero false) = true.
Proof. destruct x as [[]|[]| |[] m2 e2]; try discriminate; reflexivity. Qed.

(** * [binary_normalize] *)

Lemma pos_iter_xO (m d : positive) : Z.pos (Pos.iter xO m d) = Z.pos m * 2 ^ Z.pos d.
Proof.
  induction d as [|d IH] using Pos.peano_ind.
  - cbn [Pos.iter]. change (2 ^ 1) with 2. lia.
  - rewrite Pos.iter_succ, Pos2Z.inj_succ, Z.pow_succ_r by lia.
    change (Z.pos (Pos.iter xO m d)~0) with (2 * Z.pos (Pos.iter xO m d)).
    rewrite IH. lia.
Qed.

Lemma shl_align_spec (m : positive) (e E : Z) :
  let '(mz, ez) := shl_align m e E in
  ez = Z.min e E /\ Z.pos mz = Z.pos m * 2 ^ (e - ez).
Proof.
  unfold shl_align. destruct (E - e) as [|d|d] eqn:Hd.
  - split; [lia|]. rewrite Z.sub_diag. lia.
  - split; [lia|]. rewrite Z.sub_diag. lia.
  - split; [lia|]. rewrite pos_iter_xO. f_equal. f_equal. lia.
Qed.

Abbreviation bn S e := (binary_normalize prec emax S e false).

(** [binary_round] aligns the significand, then rounds: in short, it rounds
    the value at any exponent that is small enough. *)
Lemma binary_round_any (s : bool) (m : positive) (e k : Z) :
  k <= e -> k <= target (Z.pos m) e ->
  binary_round prec emax s m e = BR s (Z.pos m * 2 ^ (e - k)) k.
Proof.
  intros Hke Hkt. unfold binary_round.
  change (fexp prec emax (Z.pos (digits2_pos m) + e)) with (target (Z.pos m) e).
  pose proof (shl_align_spec m e (target (Z.pos m) e)) as Hs.
  destruct (shl_align m e (target (Z.pos m) e)) as [mz ez].
  destruct Hs as [Hez Hmz].
  assert (Ht : target (Z.pos mz) ez = target (Z.pos m) e).
  { rewrite Hmz. replace ez with (e - (e - ez)) at 2 by lia.
    apply target_shift; lia. }
  rewrite <- (BR_rescale s (Z.pos mz) ez (ez - k)) by lia.
  f_equal; [|lia].
  rewrite Hmz, <- Z.mul_assoc, <- Z.pow_add_r by lia. do 2 f_equal. lia.
Qed.

Lemma bn_pos (S e k : Z) :
  0 < S -> k <= e -> k <= target S e -> bn S e = BR false (S * 2 ^ (e - k)) k.
Proof.
  intros HS. destruct S as [|m|m]; try lia. intros. now apply binary_round_any.
Qed.

Lemma bn_neg (S e k : Z) :
  S < 0 -> k <= e -> k <= target (- S) e ->
  bn S e = SFopp (BR false (- S * 2 ^ (e - k)) k).
Proof.
  intros HS. destruct S as [|m|m]; try lia. intros Hke Hkt.
  cbn [binary_normalize Z.opp] in *.
  rewrite (binary_round_any true m e k) by assumption.
  assert (0 < 2 ^ (e - k)) by (apply Z.pow_pos_nonneg; lia).
  apply BR_opp; [lia|].
  replace k with (e - (e - k)) at 1 3 by lia. rewrite target_shift; lia.
Qed.

Lemma bn_le (S1 e1 S2 e2 k : Z) :
  k <= e1 -> k <= e2 ->
  S1 * 2 ^ (e1 - k) <= S2 * 2 ^ (e2 - k) ->
  SFleb (bn S1 e1) (bn S2 e2) = true.
Proof.
  intros K1 K2 Hle.
  assert (P1 : 0 < 2 ^ (e1 - k)) by (apply Z.pow_pos_nonneg; lia).
  assert (P2 : 0 < 2 ^ (e2 - k)) by (apply Z.pow_pos_nonneg; lia).
  set (z := Z.min k (Z.min (Z.min e1 (target (Z.abs S1) e1)) (Z.min e2 (target (Z.abs S2) e2)))).
  assert (Hz : z <= k /\ z <= Z.min e1 (target (Z.abs S1) e1) /\
               z <= Z.min e2 (target (Z.abs S2) e2)) by lia.
  assert (Q : 0 < 2 ^ (k - z)) by (apply Z.pow_pos_nonneg; lia).
  assert (X1 : 2 ^ (e1 - z) = 2 ^ (e1 - k) * 2 ^ (k - z)).
  { rewrite <- Z.pow_add_r by lia. f_equal. lia. }
  assert (X2 : 2 ^ (e2 - z) = 2 ^ (e2 - k) * 2 ^ (k - z)).
  { rewrite <- Z.pow_add_r by lia. f_equal. lia. }
  assert (T : forall S e, 0 < S -> z <= e -> z <= target S e ->
              z <= target (S * 2 ^ (e - z)) z).
  { intros S e HS He Ht. replace z with (e - (e - z)) at 1 3 by lia.
    rewrite target_shift; lia. }
  destruct (Z.lt_trichotomy S1 0) as [N1|[Z1|G1]], (Z.lt_trichotomy S2 0) as [N2|[Z2|G2]];
    try (exfalso; nia);
    try rewrite (Z.abs_neq S1) in Hz by lia; try rewrite (Z.abs_eq S1) in Hz by lia;
    try rewrite (Z.abs_neq S2) in Hz by lia; try rewrite (Z.abs_eq S2) in Hz by lia.
  - rewrite (bn_neg S1 e1 z), (bn_neg S2 e2 z), SFleb_opp by lia.
    apply (BR_le _ _ _ _ z); try lia; try nia; try (apply T; lia);
      rewrite !Z.sub_diag, !Z.mul_1_r, X1, X2; nia.
  - rewrite (bn_neg S1 e1 z) by lia. subst S2.
    apply nonneg_opp_le_zero, BR_nonneg; [nia | apply T; lia].
  - rewrite (bn_neg S1 e1 z), (bn_pos S2 e2 z) by lia.
    apply nonneg_opp_le; apply BR_nonneg; try nia; apply T; lia.
  - subst. reflexivity.
  - subst S1. rewrite (bn_pos S2 e2 z) by lia.
    apply nonneg_zero_le, BR_nonneg; [nia | apply T; lia].
  - rewrite (bn_pos S1 e1 z), (bn_pos S2 e2 z) by lia.
    apply (BR_le _ _ _ _ z); try lia; try nia; try (apply T; lia);
      rewrite !Z.sub_diag, !Z.mul_1_r, X1, X2; nia.
Qed.

Lemma bn_rescale (S e j : Z) : 0 <= j -> bn (S * 2 ^ j) (e - j) = bn S e.
Proof.
  intros Hj.
  assert (Hp : 0 < 2 ^ j) by (apply Z.pow_pos_nonneg; lia).
  destruct (Z.lt_trichotomy S 0) as [N|[->|G]]; [| reflexivity |].
  - set (k := Z.min (e - j) (target (- S) e)).
    assert (Ht : target (- (S * 2 ^ j)) (e - j) = target (- S) e).
    { rewrite <- Z.mul_opp_l. apply target_shift; lia. }
    rewrite (bn_neg (S * 2 ^ j) (e - j) k), (bn_neg S e k) by (try nia; lia).
    do 2 f_equal. rewrite <- Z.mul_opp_l, <- Z.mul_assoc, <- Z.pow_add_r by lia.
    do 2 f_equal. lia.
  - set (k := Z.min (e - j) (target S e)).
    assert (Ht : target (S * 2 ^ j) (e - j) = target S e) by (apply target_shift; lia).
    rewrite (bn_pos (S * 2 ^ j) (e - j) k), (bn_pos S e k) by (try nia; lia).
    f_equal. rewrite <- Z.mul_assoc, <- Z.pow_add_r by lia.
    do 2 f_equal. lia.
Qed.

(** * Valid floats and their values *)

Lemma SFcompare_unsign (x y : spec_float) :
  SFcompare (unsign x) (unsign y) = SFcompare x y.
Proof. now destruct x as [[]|[]| |[] m1 e1], y as [[]|[]| |[] m2 e2]. Qed.

Lemma SFleb_unsign (x y : spec_float) : SFleb (unsign x) (unsign y) = SFleb x y.
Proof. unfold SFleb. now rewrite SFcompare_unsign. Qed.

Lemma valid_finite (s : bool) (m : positive) (e : Z) :
  valid_binary (S754_finite s m e) = true ->
  target (Z.pos m) e = e /\ -1074 <= e <= 971 /\ Z.pos m < 2 ^ 53 /\
  (e = -1074 \/ 2 ^ 52 <= Z.pos m).
Proof.
  unfold SpecFloat.valid_binary, bounded, canonical_mantissa.
  change (fexp prec emax (Z.pos (digits2_pos m) + e)) with (target (Z.pos m) e).
  change (emax - prec) with 971.
  intros H. apply andb_prop in H as [Hc Hb].
  apply Z.eqb_eq in Hc. apply Z.leb_le in Hb.
  pose proof (target_eq (Z.pos m) e) as Ht.
  pose proof (Zdigits2_bounds (Z.pos m) eq_refl) as [Hlo Hhi].
  assert (Hd : Zdigits2 (Z.pos m) <= 53) by lia.
  assert (2 ^ Zdigits2 (Z.pos m) <= 2 ^ 53) by (apply Z.pow_le_mono_r; lia).
  repeat split; try lia.
  destruct (Z.eq_dec e (-1074)); [now left | right].
  now replace 52 with (Zdigits2 (Z.pos m) - 1) by lia.
Qed.

Lemma valid_opp (x : spec_float) : valid_binary (SFopp x) = valid_binary x.
Proof. now destruct x. Qed.

Lemma bn_valid (s : bool) (m : positive) (e : Z) :
  valid_binary (S754_finite s m e) = true ->
  bn (cond_Zopp s (Z.pos m)) e = S754_finite s m e.
Proof.
  intros Hv. apply valid_finite in Hv as (Ht & He & Hm & _).
  assert (HBR : BR false (Z.pos m) e = S754_finite false m e).
  { rewrite binary_round_aux_exact by lia. rewrite Ht, Z.sub_diag. change (2 ^ 0) with 1.
    rewrite rhe_1. unfold rounded.
    destruct (Z.eqb_spec (Z.pos m) 0); [lia|].
    destruct (Z.eqb_spec (Z.pos m) (2 ^ 53)); [lia|].
    destruct (Z.leb_spec e 971); [reflexivity | lia]. }
  destruct s; cbn [cond_Zopp].
  - rewrite (bn_neg _ e e) by (rewrite ?Z.opp_involutive; lia).
    now rewrite Z.opp_involutive, Z.sub_diag, Z.mul_1_r, HBR.
  - rewrite (bn_pos _ e e) by lia.
    now rewrite Z.sub_diag, Z.mul_1_r, HBR.
Qed.

Lemma bn_Zval (x : spec_float) :
  valid_binary x = true -> is_fin x = true -> bn (Zval x) (-1074) = unsign x.
Proof.
  destruct x as [s|s| |s m e]; try discriminate; intros Hv _; try reflexivity.
  cbn [Zval unsign]. pose proof (valid_finite _ _ _ Hv) as (_ & He & _).
  replace (-1074) with (e - (e + 1074)) by lia.
  rewrite bn_rescale by lia. now apply bn_valid.
Qed.

(** On valid floats the order is the order of the values. *)
Lemma SFleb_Zval (x y : spec_float) :
  valid_binary x = true -> valid_binary y = true ->
  is_fin x = true -> is_fin y = true ->
  SFleb x y = true -> Zval x <= Zval y.
Proof.
  destruct x as [sx|sx| |sx mx ex]; try discriminate;
    destruct y as [sy|sy| |sy my ey]; try discriminate;
    intros Hx Hy _ _; cbn [Zval]; try lia.
  - pose proof (valid_finite _ _ _ Hy) as (_ & He & _).
    assert (0 < 2 ^ (ey + 1074)) by (apply Z.pow_pos_nonneg; lia).
    destruct sy; [discriminate|]. cbn [cond_Zopp]. lia.
  - pose proof (valid_finite _ _ _ Hx) as (_ & He & _).
    assert (0 < 2 ^ (ex + 1074)) by (apply Z.pow_pos_nonneg; lia).
    destruct sx; [|discriminate]. cbn [cond_Zopp]. lia.
  - pose proof (valid_finite _ _ _ Hx) as (_ & Hex & Hmx & Hnx).
    pose proof (valid_finite _ _ _ Hy) as (_ & Hey & Hmy & Hny).
    assert (Px : 0 < 2 ^ (ex + 1074)) by (apply Z.pow_pos_nonneg; lia).
    assert (Py : 0 < 2 ^ (ey + 1074)) by (apply Z.pow_pos_nonneg; lia).
    assert (Hlt : forall m1 e1 m2 e2, -1074 <= e1 -> e1 < e2 ->
              Z.pos m1 < 2 ^ 53 -> 2 ^ 52 <= Z.pos m2 ->
              Z.pos m1 * 2 ^ (e1 + 1074) <= Z.pos m2 * 2 ^ (e2 + 1074)).
    { intros m1 e1 m2 e2 H1 H12 Hm1 Hm2.
      replace (e2 + 1074) with (e2 - e1 - 1 + (1 + (e1 + 1074))) by lia.
      rewrite (Z.pow_add_r 2 (e2 - e1 - 1)), (Z.pow_add_r 2 1) by lia.
      change (2 ^ 1) with 2.
      assert (0 < 2 ^ (e2 - e1 - 1)) by (apply Z.pow_pos_nonneg; lia).
      assert (0 < 2 ^ (e1 + 1074)) by (apply Z.pow_pos_nonneg; lia).
      assert (Hm : Z.pos m1 <= 2 * Z.pos m2)
        by (change (2 ^ 53) with (2 * 2 ^ 52) in Hm1; lia).
      set (A := 2 ^ (e2 - e1 - 1)) in *. set (B := 2 ^ (e1 + 1074)) in *.
      apply Z.le_trans with (2 * Z.pos m2 * B); nia. }
    unfold SFleb, SFcompare.
    change (Pos.compare_cont Eq mx my) with (mx ?= my)%positive.
    destruct sx, sy; cbn [cond_Zopp]; try discriminate; try lia;
      destruct (Z.compare_spec ex ey) as [->|Hl|Hg]; try discriminate;
      try (destruct (Pos.compare_spec mx my); try discriminate; subst; intros _; nia);
      intros _;
      first [ pose proof (Hlt my ey mx ex ltac:(lia) ltac:(lia) ltac:(lia) ltac:(lia)); lia
            | pose proof (Hlt mx ex my ey ltac:(lia) ltac:(lia) ltac:(lia) ltac:(lia)); lia ].
Qed.

(** * Addition and subtraction *)

Lemma shl_align_fst (m : positive) (e k : Z) :
  k <= e -> Z.pos (fst (shl_align m e k)) = Z.pos m * 2 ^ (e - k).
Proof.
  intros Hk. pose proof (shl_align_spec m e k) as H.
  destruct (shl_align m e k) as [mz ez]. destruct H as [Hez Hmz].
  cbn [fst]. rewrite Hmz. do 2 f_equal. lia.
Qed.

Lemma cond_Zopp_mul (s : bool) (a b : Z) : cond_Zopp s a * b = cond_Zopp s (a * b).
Proof. destruct s; cbn [cond_Zopp]; lia. Qed.

Lemma aligned_Zval (s : bool) (m : positive) (e k : Z) :
  -1074 <= k -> k <= e ->
  cond_Zopp s (Z.pos (fst (shl_align m e k))) * 2 ^ (k + 1074) =
  Zval (S754_finite s m e).
Proof.
  intros Hk Hke. rewrite shl_align_fst by lia. cbn [Zval].
  rewrite !cond_Zopp_mul, <- Z.mul_assoc, <- Z.pow_add_r by lia.
  do 3 f_equal. lia.
Qed.

Lemma SFadd_Zval (x y : spec_float) :
  valid_binary x = true -> valid_binary y = true ->
  is_fin x = true -> is_fin y = true ->
  unsign (SF64add x y) = unsign (bn (Zval x + Zval y) (-1074)).
Proof.
  intros Hx Hy Fx Fy.
  destruct x as [sx|sx| |sx mx ex]; try discriminate;
    destruct y as [sy|sy| |sy my ey]; try discriminate.
  - now destruct sx, sy.
  - change (SF64add (S754_zero sx) (S754_finite sy my ey)) with (S754_finite sy my ey).
    now rewrite Z.add_0_l, bn_Zval.
  - change (SF64add (S754_finite sx mx ex) (S754_zero sy)) with (S754_finite sx mx ex).
    change (Zval (S754_zero sy)) with 0. now rewrite Z.add_0_r, bn_Zval.
  - pose proof (valid_finite _ _ _ Hx) as (_ & Hex & _).
    pose proof (valid_finite _ _ _ Hy) as (_ & Hey & _).
    unfold SF64add, SFadd. set (ez := Z.min ex ey). f_equal.
    rewrite <- (bn_rescale _ ez (ez + 1074)) by lia.
    f_equal; [|lia].
    rewrite Z.mul_add_distr_r, !aligned_Zval by lia. reflexivity.
Qed.

Lemma SFsub_Zval (x y : spec_float) :
  valid_binary x = true -> valid_binary y = true ->
  is_fin x = true -> is_fin y = true ->
  unsign (SF64sub x y) = unsign (bn (Zval x - Zval y) (-1074)).
Proof.
  intros Hx Hy Fx Fy.
  destruct x as [sx|sx| |sx mx ex]; try discriminate;
    destruct y as [sy|sy| |sy my ey]; try discriminate.
  - now destruct sx, sy.
  - change (SF64sub (S754_zero sx) (S754_finite sy my ey))
      with (SFopp (S754_finite sy my ey)).
    rewrite Z.sub_0_l.
    replace (- Zval (S754_finite sy my ey)) with (Zval (SFopp (S754_finite sy my ey)))
      by (cbn [Zval SFopp]; destruct sy; cbn [cond_Zopp negb]; lia).
    rewrite bn_Zval; [reflexivity | now rewrite valid_opp | reflexivity].
  - change (SF64sub (S754_finite sx mx ex) (S754_zero sy)) with (S754_finite sx mx ex).
    change (Zval (S754_zero sy)) with 0. now rewrite Z.sub_0_r, bn_Zval.
  - pose proof (valid_finite _ _ _ Hx) as (_ & Hex & _).
    pose proof (valid_finite _ _ _ Hy) as (_ & Hey & _).
    unfold SF64sub, SFsub. set (ez := Z.min ex ey). f_equal.
    rewrite <- (bn_rescale _ ez (ez + 1074)) by lia.
    f_equal; [|lia].
    rewrite Z.mul_sub_distr_r, !aligned_Zval by lia. reflexivity.
Qed.

Lemma rounded_not_nan (s : bool) (R E : Z) : not_nan (rounded s R E) = true.
Proof.
  unfold rounded.
  now destruct (R =? 0), (R =? 2 ^ 53), (E + 1 <=? 971), (E <=? 971).
Qed.

Lemma not_nan_opp (x : spec_float) : not_nan (SFopp x) = not_nan x.
Proof. now destruct x. Qed.

Lemma bn_not_nan (S e : Z) : not_nan (bn S e) = true.
Proof.
  destruct (Z.lt_trichotomy S 0) as [N|[->|G]]; [| reflexivity |].
  - set (k := Z.min e (target (- S) e)).
    assert (0 < 2 ^ (e - k)) by (apply Z.pow_pos_nonneg; lia).
    assert (Hm : 0 < - S * 2 ^ (e - k)) by nia.
    assert (Ht : k <= target (- S * 2 ^ (e - k)) k).
    { replace k with (e - (e - k)) at 1 3 by lia. rewrite target_shift; lia. }
    rewrite (bn_neg S e k), not_nan_opp, binary_round_aux_exact by (assumption || lia).
    apply rounded_not_nan.
  - set (k := Z.min e (target S e)).
    assert (0 < 2 ^ (e - k)) by (apply Z.pow_pos_nonneg; lia).
    assert (Hm : 0 < S * 2 ^ (e - k)) by nia.
    assert (Ht : k <= target (S * 2 ^ (e - k)) k).
    { replace k with (e - (e - k)) at 1 3 by lia. rewrite target_shift; lia. }
    rewrite (bn_pos S e k), binary_round_aux_exact by (assumption || lia).
    apply rounded_not_nan.
Qed.

Lemma not_nan_unsign (x y : spec_float) :
  unsign x = unsign y -> not_nan y = true -> not_nan x = true.
Proof. destruct x, y; try discriminate; reflexivity. Qed.

Lemma SFadd_not_nan (x y : spec_float) :
  valid_binary x = true -> valid_binary y = true ->
  is_fin x = true -> is_fin y = true -> not_nan (SF64add x y) = true.
Proof.
  intros Hx Hy Fx Fy. pose proof (SFadd_Zval x y Hx Hy Fx Fy) as H.
  apply (not_nan_unsign _ _ H), bn_not_nan.
Qed.

Lemma SFleb_not_nan (x y : spec_float) :
  SFleb x y = true -> not_nan x = true /\ not_nan y = true.
Proof. destruct x, y; try discriminate; auto. Qed.

Lemma SFleb_inf (x : spec_float) :
  not_nan x = true -> SFleb x (S754_infinity false) = true.
Proof. now destruct x as [[]|[]| |[] m e]. Qed.

Lemma SFleb_neg_inf (x : spec_float) :
  not_nan x = true -> SFleb (S754_infinity true) x = true.
Proof. now destruct x as [[]|[]| |[] m e]. Qed.

Lemma SFadd_inf (c : spec_float) (s : bool) :
  is_fin c = true -> SF64add c (S754_infinity s) = S754_infinity s.
Proof. now destruct c. Qed.

(** Adding the same finite float on the left is monotone. *)
Lemma SFadd_mono (c x y : spec_float) :
  valid_binary c = true -> valid_binary x = true -> valid_binary y = true ->
  is_fin c = true -> SFleb x y = true ->
  SFleb (SF64add c x) (SF64add c y) = true.
Proof.
  intros Hc Hx Hy Fc Hle.
  destruct (is_fin x) eqn:Fx, (is_fin y) eqn:Fy.
  - rewrite <- SFleb_unsign, !SFadd_Zval, SFleb_unsign by assumption.
    apply (bn_le _ _ _ _ (-1074)); try lia.
    pose proof (SFleb_Zval x y Hx Hy Fx Fy Hle). rewrite Z.sub_diag. lia.
  - destruct y as [sy|[]| |sy my ey]; try discriminate;
      try (now destruct x as [[]|[]| |[] m e]).
    rewrite SFadd_inf by assumption. apply SFleb_inf. now apply SFadd_not_nan.
  - destruct x as [sx|[]| |sx mx ex]; try discriminate;
      try (now destruct y as [[]|[]| |[] m e]).
    rewrite SFadd_inf by assumption. apply SFleb_neg_inf. now apply SFadd_not_nan.
  - destruct x as [sx|[]| |sx mx ex]; try discriminate;
      destruct y as [sy|[]| |sy my ey]; try discriminate;
      rewrite !SFadd_inf by assumption; reflexivity.
Qed.

(** The difference of two finite floats in order is not positive. *)
Lemma SFsub_le_zero (x y : spec_float) :
  valid_binary x = true -> valid_binary y = true ->
  is_fin x = true -> is_fin y = true -> SFleb x y = true ->
  SFleb (SF64sub x y) (S754_zero false) = true.
Proof.
  intros Hx Hy Fx Fy Hle.
  rewrite <- SFleb_unsign, SFsub_Zval, SFleb_unsign by assumption.
  change (S754_zero false) with (bn 0 (-1074)).
  apply (bn_le _ _ _ _ (-1074)); try lia.
  pose proof (SFleb_Zval x y Hx Hy Fx Fy Hle). rewrite Z.sub_diag. lia.
Qed.

Lemma SFsub_diag (x : spec_float) :
  valid_binary x = true -> is_fin x = true ->
  unsign (SF64sub x x) = S754_zero false.
Proof.
  intros Hx Fx. rewrite SFsub_Zval by assumption. now rewrite Z.sub_diag.
Qed.

(** * Multiplication *)

Lemma mul_target (m1 m2 : positive) (e1 e2 : Z) (s1 s2 : bool) :
  valid_binary (S754_finite s1 m1 e1) = true ->
  valid_binary (S754_finite s2 m2 e2) = true ->
  e1 + e2 <= target (Z.pos (m1 * m2)) (e1 + e2).
Proof.
  intros H1 H2.
  apply valid_finite in H1 as (T1 & E1 & _ & _).
  apply valid_finite in H2 as (T2 & E2 & _ & _).
  pose proof (target_eq (Z.pos m1) e1). pose proof (target_eq (Z.pos m2) e2).
  pose proof (target_eq (Z.pos (m1 * m2)) (e1 + e2)).
  pose proof (Zdigits2_bounds (Z.pos m1) eq_refl) as [L1 _].
  pose proof (Zdigits2_bounds (Z.pos m2) eq_refl) as [L2 _].
  pose proof (Zdigits2_pos (Z.pos m1) eq_refl).
  pose proof (Zdigits2_pos (Z.pos m2) eq_refl).
  assert (Hd : Zdigits2 (Z.pos m1) + Zdigits2 (Z.pos m2) - 1 <= Zdigits2 (Z.pos (m1 * m2))).
  { apply Zdigits2_ge; [reflexivity|].
    replace (Zdigits2 (Z.pos m1) + Zdigits2 (Z.pos m2) - 1 - 1)
      with ((Zdigits2 (Z.pos m1) - 1) + (Zdigits2 (Z.pos m2) - 1)) by lia.
    rewrite Z.pow_add_r, Pos2Z.inj_mul by lia.
    apply Z.mul_le_mono_nonneg; try assumption; apply Z.pow_nonneg; lia. }
  lia.
Qed.

(** Multiplying a float that is not negative by a larger positive float
    gives a larger product. *)
Lemma SFmul_mono (ma mb : positive) (ea eb : Z) (r : spec_float) :
  let a := S754_finite false ma ea in
  let b := S754_finite false mb eb in
  valid_binary a = true -> valid_binary b = true -> valid_binary r = true ->
  SFleb a b = true -> nonneg r = true ->
  SFleb (SF64mul a r) (SF64mul b r) = true.
Proof.
  intros a b Ha Hb Hr Hab Hr0.
  pose proof (SFleb_Zval a b Ha Hb eq_refl eq_refl Hab) as Hv.
  destruct r as [sr|[]| |[] mr er]; try discriminate; try reflexivity.
  unfold SF64mul, SFmul, a, b. cbn [xorb].
  pose proof (valid_finite _ _ _ Ha) as (_ & Ea & _).
  pose proof (valid_finite _ _ _ Hb) as (_ & Eb & _).
  pose proof (valid_finite _ _ _ Hr) as (_ & Er & _).
  apply (BR_le _ _ _ _ (er - 1074)); try reflexivity; try lia.
  - apply (mul_target _ _ _ _ false false); assumption.
  - apply (mul_target _ _ _ _ false false); assumption.
  - cbn [Zval cond_Zopp a b] in Hv.
    replace (ea + er - (er - 1074)) with (ea + 1074) by lia.
    replace (eb + er - (er - 1074)) with (eb + 1074) by lia.
    rewrite !Pos2Z.inj_mul. nia.
Qed.

(** * The order as a lexicographic order *)

Lemma SFcompare_key (x y : spec_float) :
  not_nan x = true -> not_nan y = true ->
  match SFcompare x y with
  | Some Lt => lt3 (key x) (key y)
  | Some Eq => eq3 (key x) (key y)
  | Some Gt => lt3 (key y) (key x)
  | None => False
  end.
Proof.
  destruct x as [[]|[]| |[] mx ex], y as [[]|[]| |[] my ey]; try discriminate;
    intros _ _; cbn [SFcompare key lt3 eq3]; try lia;
    change (Pos.compare_cont Eq mx my) with (mx ?= my)%positive;
    destruct (Z.compare_spec ex ey); cbn [CompOpp]; try lia;
    destruct (Pos.compare_spec mx my); cbn [CompOpp]; lia.
Qed.

Lemma SFltb_key (x y : spec_float) :
  not_nan x = true -> not_nan y = true ->
  (SFltb x y = true <-> lt3 (key x) (key y)).
Proof.
  intros Hx Hy. pose proof (SFcompare_key x y Hx Hy) as H.
  unfold SFltb. destruct (key x) as [[a b] c], (key y) as [[a' b'] c'].
  destruct (SFcompare x y) as [[]|]; cbn [lt3 eq3] in *;
    split; intros; try discriminate; try reflexivity; try lia; tauto.
Qed.

Lemma SFleb_key (x y : spec_float) :
  not_nan x = true -> not_nan y = true ->
  (SFleb x y = true <-> ~ lt3 (key y) (key x)).
Proof.
  intros Hx Hy. pose proof (SFcompare_key x y Hx Hy) as H.
  unfold SFleb. destruct (key x) as [[a b] c], (key y) as [[a' b'] c'].
  destruct (SFcompare x y) as [[]|]; cbn [lt3 eq3] in *;
    split; intros; try discriminate; try reflexivity; try lia; tauto.
Qed.

Lemma SFltb_not_nan (x y : spec_float) :
  SFltb x y = true -> not_nan x = true /\ not_nan y = true.
Proof. destruct x, y; try discriminate; auto. Qed.

Ltac by_key :=
  repeat match goal with
  | H : SFltb ?x ?y = true |- _ =>
      let Hn := fresh in
      pose proof (SFltb_not_nan x y H) as [? ?];
      apply SFltb_key in H; [|assumption..]
  | H : SFleb ?x ?y = true |- _ =>
      let Hn := fresh in
      pose proof (SFleb_not_nan x y H) as [? ?];
      apply SFleb_key in H; [|assumption..]
  end.

Lemma SFltb_trans (x y z : spec_float) :
  SFltb x y = true -> SFltb y z = true -> SFltb x z = true.
Proof.
  intros H1 H2. by_key. apply SFltb_key; try assumption.
  destruct (key x) as [[a b] c], (key y) as [[a' b'] c'], (key z) as [[a'' b''] c''].
  cbn [lt3] in *. lia.
Qed.

Lemma SFleb_trans (x y z : spec_float) :
  SFleb x y = true -> SFleb y z = true -> SFleb x z = true.
Proof.
  intros H1 H2. by_key. apply SFleb_key; try assumption.
  destruct (key x) as [[a b] c], (key y) as [[a' b'] c'], (key z) as [[a'' b''] c''].
  cbn [lt3] in *. lia.
Qed.

Lemma SFleb_ltb_trans (x y z : spec_float) :
  SFleb x y = true -> SFltb y z = true -> SFltb x z = true.
Proof.
  intros H1 H2. by_key. apply SFltb_key; try assumption.
  destruct (key x) as [[a b] c], (key y) as [[a' b'] c'], (key z) as [[a'' b''] c''].
  cbn [lt3] in *. lia.
Qed.

Lemma SFltb_leb (x y : spec_float) : SFltb x y = true -> SFleb x y = true.
Proof.
  intros H. by_key. apply SFleb_key; try assumption.
  destruct (key x) as [[a b] c], (key y) as [[a' b'] c']. cbn [lt3] in *. lia.
Qed.

Lemma SFleb_total (x y : spec_float) :
  not_nan x = true -> not_nan y = true -> SFltb x y = false -> SFleb y x = true.
Proof.
  intros Hx Hy H. apply SFleb_key; try assumption.
  intros Hlt. apply SFltb_key in Hlt; try assumption. congruence.
Qed.

Lemma SFleb_refl (x : spec_float) : not_nan x = true -> SFleb x x = true.
Proof.
  intros Hx. apply SFleb_key; try assumption.
  destruct (key x) as [[a b] c]. cbn [lt3]. lia.
Qed.

(** * Results of rounding are valid floats *)

Lemma rounded_valid (s : bool) (R E : Z) :
  0 <= R <= 2 ^ 53 -> -1074 <= E -> 2 ^ 52 <= R \/ E = -1074 ->
  valid_binary (rounded s R E) = true.
Proof.
  intros HR HE Hn. unfold rounded.
  assert (Hv : forall m e, 0 < m -> target m e = e -> e <= 971 ->
            valid_binary (S754_finite s (Z.to_pos m) e) = true).
  { intros m e Hm Ht He. unfold SpecFloat.valid_binary, bounded, canonical_mantissa.
    change (fexp prec emax (Z.pos (digits2_pos (Z.to_pos m)) + e))
      with (target (Z.pos (Z.to_pos m)) e).
    rewrite Z2Pos.id, Ht, Z.eqb_refl by lia. apply Z.leb_le. exact He. }
  destruct (Z.eqb_spec R 0); [reflexivity|].
  destruct (Z.eqb_spec R (2 ^ 53)).
  - destruct (Z.leb_spec (E + 1) 971); [|reflexivity].
    apply Hv; [reflexivity | | lia]. rewrite target_eq.
    change (Zdigits2 (2 ^ 52)) with 53. lia.
  - destruct (Z.leb_spec E 971); [|reflexivity].
    apply Hv; [lia | | lia]. rewrite target_eq.
    assert (Hd : Zdigits2 R <= 53) by (apply Zdigits2_lt; lia).
    destruct Hn as [Hn| ->]; [|lia].
    assert (53 <= Zdigits2 R) by (apply Zdigits2_ge; [lia | exact Hn]). lia.
Qed.

Lemma BR_valid (s : bool) (m e : Z) :
  0 < m -> e <= target m e -> valid_binary (BR s m e) = true.
Proof.
  intros Hm He. rewrite binary_round_aux_exact by assumption.
  pose proof (target_ge m e) as [Hmin _]. pose proof (target_eq m e) as Heq.
  apply rounded_valid; [now apply round_target_le | exact Hmin |].
  destruct (Z.eq_dec (target m e) (-1074)); [now right | left].
  apply round_target_normal; lia.
Qed.

Lemma bn_valid_result (S e : Z) : valid_binary (bn S e) = true.
Proof.
  destruct (Z.lt_trichotomy S 0) as [N|[->|G]]; [| reflexivity |].
  - set (k := Z.min e (target (- S) e)).
    assert (0 < 2 ^ (e - k)) by (apply Z.pow_pos_nonneg; lia).
    rewrite (bn_neg S e k), valid_opp by lia.
    apply BR_valid; [nia|].
    replace k with (e - (e - k)) at 1 3 by lia. rewrite target_shift; lia.
  - set (k := Z.min e (target S e)).
    assert (0 < 2 ^ (e - k)) by (apply Z.pow_pos_nonneg; lia).
    rewrite (bn_pos S e k) by lia.
    apply BR_valid; [nia|].
    replace k with (e - (e - k)) at 1 3 by lia. rewrite target_shift; lia.
Qed.

(** The square root and the results of rounding with a positive sign are NaN
    or not negative. *)
Lemma binary_round_aux_nonneg (m e : Z) (l : location) :
  let r := binary_round_aux prec emax false m e l in
  r = S754_nan \/ nonneg r = true.
Proof.
  unfold binary_round_aux.
  destruct (shr_fexp prec emax m e l) as [m1 e1].
  destruct (shr_fexp prec emax _ e1 loc_Exact) as [m2 e2].
  destruct (shr_m m2); [now right | | now left].
  destruct (e2 <=? emax - prec); now right.
Qed.

Lemma SFsqrt_nonneg (x : spec_float) :
  SF64sqrt x = S754_nan \/ nonneg (SF64sqrt x) = true.
Proof.
  destruct x as [s|[]| |[] m e]; cbn [SF64sqrt SFsqrt]; auto.
  unfold SF64sqrt, SFsqrt.
  destruct (SFsqrt_core_binary prec emax (Z.pos m) e) as [[mz ez] lz].
  apply binary_round_aux_nonneg.
Qed.

(** * The error of a rounding *)

Lemma rhe_error (n d : Z) :
  0 < d -> 2 * Z.abs (round_half_even n d * d - n) <= d.
Proof.
  intros Hd. destruct (rhe_cases n d Hd) as (E & B & C).
  destruct (Z.even (n / d));
    destruct C as [[? ->]|[[? ->]|[? ->]]]; nia.
Qed.

Lemma Zval_rounded (s : bool) (R E : Z) :
  0 <= R <= 2 ^ 53 -> -1074 <= E <= 970 ->
  Zval (rounded s R E) = cond_Zopp s (R * 2 ^ (E + 1074)) /\
  is_fin (rounded s R E) = true.
Proof.
  intros HR HE. unfold rounded.
  destruct (Z.eqb_spec R 0) as [->|H0].
  - split; [|reflexivity]. cbn [Zval]. now destruct s.
  - destruct (Z.eqb_spec R (2 ^ 53)) as [->|H1].
    + destruct (Z.leb_spec (E + 1) 971); [|lia]. split; [|reflexivity].
      cbn [Zval]. rewrite cond_Zopp_mul. f_equal.
      replace (E + 1 + 1074) with (1 + (E + 1074)) by lia.
      rewrite (Z.pow_add_r 2 1) by lia.
      change (2 ^ 1) with 2. change (2 ^ 53) with 9007199254740992.
      change (Z.pos (Z.to_pos (2 ^ 52))) with 4503599627370496. lia.
    + destruct (Z.leb_spec E 971); [|lia]. split; [|reflexivity].
      cbn [Zval]. rewrite cond_Zopp_mul, Z2Pos.id by lia. reflexivity.
Qed.

Lemma Zval_opp (x : spec_float) : Zval (SFopp x) = - Zval x.
Proof. destruct x as [s|s| |[] m e]; cbn [Zval SFopp negb cond_Zopp]; lia. Qed.

Lemma is_fin_opp (x : spec_float) : is_fin (SFopp x) = is_fin x.
Proof. now destruct x. Qed.

Lemma Zval_unsign (x : spec_float) : Zval (unsign x) = Zval x.
Proof. now destruct x. Qed.

Lemma is_fin_unsign (x : spec_float) : is_fin (unsign x) = is_fin x.
Proof. now destruct x. Qed.

(** The value of a rounding that does not overflow is within half a unit
    in the last place of the exact value. *)
Lemma Zval_bn_error (S : Z) :
  let E := target (Z.abs S) (-1074) in
  E <= 970 ->
  2 * Z.abs (Zval (bn S (-1074)) - S) <= 2 ^ (E + 1074) /\
  is_fin (bn S (-1074)) = true.
Proof.
  intros E HE.
  assert (HBR : forall m, 0 < m -> target m (-1074) <= 970 ->
            2 * Z.abs (Zval (BR false m (-1074)) - m) <= 2 ^ (target m (-1074) + 1074) /\
            is_fin (BR false m (-1074)) = true).
  { intros m Hm Ht. pose proof (target_ge m (-1074)) as [Hmin _].
    rewrite binary_round_aux_exact by lia.
    replace (target m (-1074) - -1074) with (target m (-1074) + 1074) by lia.
    pose proof (round_target_le m (-1074) Hm ltac:(lia)) as HR.
    replace (target m (-1074) - -1074) with (target m (-1074) + 1074) in HR by lia.
    destruct (Zval_rounded false _ (target m (-1074)) HR ltac:(lia)) as [-> ->].
    split; [|reflexivity]. cbn [cond_Zopp].
    apply rhe_error, Z.pow_pos_nonneg; lia. }
  destruct (Z.lt_trichotomy S 0) as [N|[->|G]].
  - subst E. rewrite (Z.abs_neq S) in HE by lia. rewrite (Z.abs_neq S) by lia.
    rewrite (bn_neg S (-1074) (-1074)) by (pose proof (target_ge (- S) (-1074)); lia).
    rewrite Z.sub_diag, Z.mul_1_r, Zval_opp, is_fin_opp.
    destruct (HBR (- S) ltac:(lia) HE) as [H1 H2]. split; [lia | exact H2].
  - split; [|reflexivity]. cbn [Zval binary_normalize].
    assert (0 < 2 ^ (E + 1074)) by (apply Z.pow_pos_nonneg; pose proof (target_ge (Z.abs 0) (-1074)); lia).
    lia.
  - subst E. rewrite (Z.abs_eq S) in HE by lia. rewrite (Z.abs_eq S) by lia.
    rewrite (bn_pos S (-1074) (-1074)) by (pose proof (target_ge S (-1074)); lia).
    rewrite Z.sub_diag, Z.mul_1_r. now apply HBR.
Qed.

Lemma target_lt (S p : Z) :
  Z.abs S < 2 ^ (p + 1074) -> -1074 <= p -> target (Z.abs S) (-1074) <= Z.max (p - 53) (-1074).
Proof.
  intros HS Hp. rewrite target_eq.
  destruct (Z.eq_dec S 0) as [->|Hne].
  - change (Zdigits2 (Z.abs 0)) with 0. lia.
  - assert (Zdigits2 (Z.abs S) <= p + 1074) by (apply Zdigits2_lt; lia). lia.
Qed.

(** Ints of at most 53 bits convert exactly. *)
Lemma bn_int_exact (n : Z) :
  Z.abs n < 2 ^ 53 ->
  Zval (bn n 0) = n * 2 ^ 1074 /\ is_fin (bn n 0) = true.
Proof.
  intros Hn.
  assert (HBR : forall m, 0 < m < 2 ^ 53 ->
            Zval (BR false (m * 2 ^ 1074) (-1074)) = m * 2 ^ 1074 /\
            is_fin (BR false (m * 2 ^ 1074) (-1074)) = true).
  { intros m Hm.
    assert (Ht : target (m * 2 ^ 1074) (-1074) = target m 0)
      by (replace (-1074) with (0 - 1074) by lia; apply target_shift; lia).
    assert (Hd : Zdigits2 m <= 53) by (apply Zdigits2_lt; lia).
    pose proof (Zdigits2_pos m ltac:(lia)) as Hd0.
    pose proof (target_eq m 0) as Hte.
    assert (HE : target m 0 = Zdigits2 m - 53) by lia.
    assert (P : 0 < 2 ^ 1074) by (apply Z.pow_pos_nonneg; lia).
    rewrite binary_round_aux_exact by (try nia; lia).
    rewrite Ht.
    replace (m * 2 ^ 1074) with (m * 2 ^ (- target m 0) * 2 ^ (target m 0 - -1074)).
    2:{ rewrite <- Z.mul_assoc, <- Z.pow_add_r by lia. do 2 f_equal. lia. }
    rewrite rhe_exact by (apply Z.pow_pos_nonneg; lia).
    assert (P' : 0 < 2 ^ (- target m 0)) by (apply Z.pow_pos_nonneg; lia).
    assert (HR : 0 <= m * 2 ^ (- target m 0) <= 2 ^ 53).
    { split; [nia|]. pose proof (Zdigits2_bounds m ltac:(lia)) as [_ Hhi].
      replace 53 with (Zdigits2 m + - target m 0) by lia.
      rewrite Z.pow_add_r by lia. nia. }
    destruct (Zval_rounded false _ (target m 0) HR ltac:(lia)) as [-> ->].
    split; [|reflexivity]. cbn [cond_Zopp].
    replace (target m 0 - -1074) with (target m 0 + 1074) by lia. reflexivity. }
  assert (P : 0 < 2 ^ 1074) by (apply Z.pow_pos_nonneg; lia).
  destruct (Z.lt_trichotomy n 0) as [N|[->|G]].
  - rewrite <- (bn_rescale n 0 1074) by lia. change (0 - 1074) with (-1074).
    rewrite (bn_neg _ (-1074) (-1074)); try lia; try nia.
    + rewrite Z.sub_diag, Z.mul_1_r, Zval_opp, is_fin_opp, <- Z.mul_opp_l.
      destruct (HBR (- n) ltac:(lia)) as [-> ->]. split; [lia | reflexivity].
    + pose proof (target_ge (- (n * 2 ^ 1074)) (-1074)). lia.
  - split; reflexivity.
  - rewrite <- (bn_rescale n 0 1074) by lia. change (0 - 1074) with (-1074).
    rewrite (bn_pos _ (-1074) (-1074)); try lia; try nia.
    + rewrite Z.sub_diag, Z.mul_1_r. apply HBR. lia.
    + pose proof (target_ge (n * 2 ^ 1074) (-1074)). lia.
Qed.

(** * Primitive floats *)

Lemma SFcompare_refl (x : spec_float) :
  not_nan x = true -> SFcompare x x = Some Eq.
Proof.
  destruct x as [[]|[]| |[] m e]; try discriminate; intros _; try reflexivity;
    cbn [SFcompare]; rewrite Z.compare_refl;
    change (Pos.compare_cont Eq m m) with (m ?= m)%positive;
    now rewrite Pos.compare_refl.
Qed.

Lemma is_nan_spec (x : float) : is_nan x = negb (not_nan (Prim2SF x)).
Proof.
  unfold is_nan. rewrite FloatAxioms.eqb_spec. unfold SFeqb.
  destruct (not_nan (Prim2SF x)) eqn:H.
  - now rewrite SFcompare_refl.
  - now destruct (Prim2SF x).
Qed.

Lemma is_finite_spec (x : float) : is_finite x = is_fin (Prim2SF x).
Proof.
  unfold is_finite, is_infinity. rewrite is_nan_spec, FloatAxioms.eqb_spec, abs_spec.
  change (Prim2SF infinity) with (S754_infinity false).
  now destruct (Prim2SF x) as [[]|[]| |[] m e].
Qed.

End Binary64Facts.

Import Binary64Facts.

(** * The result of a computation *)

Lemma bind_Ok {A B : Type} (r : result A) (k : A -> result B) (b : B) :
  bind r k = Ok b -> exists a, r = Ok a /\ k a = Ok b.
Proof. destruct r as [a|e]; simpl; [eauto | discriminate]. Qed.

(** * The operations of the script on primitive floats *)

Section Floats.

Local Open Scope float_scope.

Lemma add_mono (c x y : float) :
  is_finite c = true -> (x <=? y) = true -> (c + x <=? c + y) = true.
Proof.
  rewrite is_finite_spec, !FloatAxioms.leb_spec, !add_spec.
  intros Hc Hxy. apply SFadd_mono; try apply Prim2SF_valid; assumption.
Qed.

Lemma add_nan_r (c x : float) : is_nan x = true -> is_nan (c + x) = true.
Proof.
  rewrite !is_nan_spec, add_spec.
  destruct (Prim2SF x); try discriminate. now destruct (Prim2SF c).
Qed.

Lemma mul_nan_r (c x : float) : is_nan x = true -> is_nan (c * x) = true.
Proof.
  rewrite !is_nan_spec, mul_spec.
  destruct (Prim2SF x); try discriminate. now destruct (Prim2SF c).
Qed.

(** [0.4 * r <= 0.6 * r] for a radius that is not negative. *)
Lemma mul_04_06 (r : float) :
  nonneg (Prim2SF r) = true -> (0.4 * r <=? 0.6 * r) = true.
Proof.
  intros Hr. rewrite FloatAxioms.leb_spec, !mul_spec.
  pose proof (Prim2SF_valid 0.4) as V4. pose proof (Prim2SF_valid 0.6) as V6.
  assert (H4 : Prim2SF 0.4 = S754_finite false 7205759403792794 (-54))
    by (vm_compute; reflexivity).
  assert (H6 : Prim2SF 0.6 = S754_finite false 5404319552844595 (-53))
    by (vm_compute; reflexivity).
  rewrite H4 in *. rewrite H6 in *.
  apply SFmul_mono; try assumption; try apply Prim2SF_valid; reflexivity.
Qed.

Lemma sub_le_zero (x y : float) :
  is_finite x = true -> is_finite y = true -> (x <=? y) = true ->
  (x - y <=? 0) = true.
Proof.
  rewrite !is_finite_spec, !FloatAxioms.leb_spec, sub_spec.
  intros Hx Hy Hxy. apply SFsub_le_zero; try apply Prim2SF_valid; assumption.
Qed.

Lemma sub_diag (x : float) : is_finite x = true -> (x - x =? 0) = true.
Proof.
  rewrite is_finite_spec, FloatAxioms.eqb_spec, sub_spec. intros Hx.
  unfold SFeqb. change (Prim2SF 0) with (unsign (S754_zero false)).
  rewrite <- SFcompare_unsign, SFsub_diag by (try apply Prim2SF_valid; assumption).
  reflexivity.
Qed.

Lemma sub_zero (x : float) : x - 0 = x.
Proof.
  apply Prim2SF_inj. rewrite sub_spec.
  change (Prim2SF 0) with (S754_zero false).
  now destruct (Prim2SF x) as [[]|[]| |[] m e].
Qed.

Lemma sqrt_nonneg (x : float) :
  is_nan (sqrt x) = true \/ nonneg (Prim2SF (sqrt x)) = true.
Proof.
  rewrite is_nan_spec, sqrt_spec.
  destruct (SFsqrt_nonneg (Prim2SF x)) as [-> | H]; [now left | now right].
Qed.

Lemma ltb_SF (x y : float) : (x <? y) = SFltb (Prim2SF x) (Prim2SF y).
Proof. apply FloatAxioms.ltb_spec. Qed.

Lemma leb_SF (x y : float) : (x <=? y) = SFleb (Prim2SF x) (Prim2SF y).
Proof. apply FloatAxioms.leb_spec. Qed.

Lemma not_nan_SF (x : float) : is_nan x = false -> not_nan (Prim2SF x) = true.
Proof. rewrite is_nan_spec. now destruct (not_nan (Prim2SF x)). Qed.

Lemma is_finite_not_nan (x : float) : is_finite x = true -> is_nan x = false.
Proof. rewrite is_finite_spec, is_nan_spec. now destruct (Prim2SF x). Qed.

End Floats.

(** The conversion of an int succeeds with a finite float, the rounding of
    the int. *)
Lemma int_to_float_Ok (n : Z) (c : float) :
  int_to_float n = Ok c ->
  Prim2SF c = binary_normalize prec emax n 0 false /\ is_finite c = true.
Proof.
  unfold int_to_float. intros H.
  pose proof (bn_valid_result n 0) as Hv. pose proof (bn_not_nan n 0) as Hn.
  assert (Hc : c = SF2Prim (binary_normalize prec emax n 0 false))
    by (destruct (binary_normalize prec emax n 0 false); congruence).
  subst c. rewrite is_finite_spec, Prim2SF_SF2Prim by exact Hv.
  split; [reflexivity|].
  now destruct (binary_normalize prec emax n 0 false).
Qed.

Lemma int_to_float_0 : int_to_float 0 = Ok 0%float.
Proof. reflexivity. Qed.

Lemma float_compare_int_0 (x : float) :
  float_compare_int x 0 = SFcompare (Prim2SF x) (S754_zero false).
Proof.
  unfold float_compare_int.
  destruct (Prim2SF x) as [s|s| |s m e]; try reflexivity.
  cbn [SFcompare]. f_equal. rewrite Z.mul_0_l.
  destruct (Z.leb_spec 0 e) as [He|He], s; cbn [cond_Zopp];
    try reflexivity.
  - apply Z.compare_lt_iff.
    assert (0 < 2 ^ e) by (apply Z.pow_pos_nonneg; lia). nia.
  - apply Z.compare_gt_iff.
    assert (0 < 2 ^ e) by (apply Z.pow_pos_nonneg; lia). nia.
Qed.

Lemma float_gt_seed (a : number) (x : float) :
  seeded a -> float_gt x a = (seed a <? x)%float.
Proof.
  intros [-> | [y ->]]; [|reflexivity].
  cbn [float_gt seed]. rewrite float_compare_int_0, ltb_SF.
  change (Prim2SF 0) with (S754_zero false).
  unfold SFltb. rewrite (SFcompare_antisym (Prim2SF x) (S754_zero false)).
  now destruct (SFcompare (Prim2SF x) (S754_zero false)) as [[]|].
Qed.

Lemma py_le_seed (a b : number) :
  seeded a -> seeded b -> py_le a b = (seed a <=? seed b)%float.
Proof.
  intros [-> | [x ->]] [-> | [y ->]]; try reflexivity; cbn [py_le seed];
    rewrite float_compare_int_0, leb_SF; change (Prim2SF 0) with (S754_zero false).
  - unfold SFleb. rewrite (SFcompare_antisym (Prim2SF y) (S754_zero false)).
    now destruct (SFcompare (Prim2SF y) (S754_zero false)) as [[]|].
  - reflexivity.
Qed.

Lemma py_max_seeded (a : number) (x : float) : seeded a -> seeded (py_max a x).
Proof.
  intros Ha. unfold py_max. destruct (float_gt x a); [right; eauto | exact Ha].
Qed.

(** * The loop and its invariants *)

Lemma for_each_invariant {S : Type} (P : S -> Prop) (body : Z -> S -> result S) :
  (forall i s s', P s -> body i s = Ok s' -> P s') ->
  forall indices s r, P s -> for_each indices body s = Ok r -> P r.
Proof.
  intros Hbody indices. induction indices as [|i rest IH]; intros s r Hs Hr.
  - cbn [for_each] in Hr. congruence.
  - cbn [for_each] in Hr. apply bind_Ok in Hr as (s' & Hi & Hrest).
    eapply IH; [|exact Hrest]. eapply Hbody; eassumption.
Qed.

Lemma loop_invariant (P : towers -> Prop) (c : config) (w : float) :
  P towers0 ->
  (forall t v t', P t -> step c w t v = Ok t' -> P t') ->
  forall t, loop c w = Ok t -> P t.
Proof.
  intros H0 Hstep t Ht. unfold loop, for_range in Ht.
  eapply for_each_invariant; [| exact H0 | exact Ht].
  intros i s s' Hs Hi. cbn beta in Hi.
  apply bind_Ok in Hi as (v & _ & Hv). eapply Hstep; eassumption.
Qed.

(** The two candidates of an obstruction: the same finite offset added to
    60% and to 40% of the same radius. *)
Lemma step_Ok (c : config) (w : float) (t : towers) (v : obstruction) (t' : towers) :
  step c w t v = Ok t' ->
  exists r k,
    radius (distanceBtw c) w v = Ok r /\
    int_to_float (Height v - buildingA c) = Ok k /\
    t' = {| LOStowerA := py_max (LOStowerA t) (k + 0.6 * r);
            LOStowerAs := LOStowerAs t ++ [(k + 0.6 * r)%float];
            nearLOStowerA := py_max (nearLOStowerA t) (k + 0.4 * r);
            nearLOStowerAs := nearLOStowerAs t ++ [(k + 0.4 * r)%float] |}.
Proof.
  unfold step. intros H.
  apply bind_Ok in H as (r & Hr & H).
  unfold int_add_float in H.
  apply bind_Ok in H as (los & Hlos & H).
  apply bind_Ok in Hlos as (k & Hk & Hlos).
  apply bind_Ok in H as (nlos & Hnlos & H).
  rewrite Hk in Hnlos. cbn [bind] in Hnlos.
  exists r, k. repeat split; try assumption. congruence.
Qed.

Lemma radius_Ok (d : Z) (w : float) (v : obstruction) (r : float) :
  radius d w v = Ok r -> exists q, r = PrimFloat.sqrt q.
Proof.
  unfold radius. intros H.
  apply bind_Ok in H as (p & _ & H). apply bind_Ok in H as (p' & _ & H).
  apply bind_Ok in H as (q & _ & H). exists q. unfold math_sqrt in H.
  destruct (is_nan (PrimFloat.sqrt q) && negb (is_nan q)); congruence.
Qed.

Lemma candidates_paired (k r q : float) :
  is_finite k = true -> r = PrimFloat.sqrt q ->
  paired (k + 0.4 * r) (k + 0.6 * r).
Proof.
  intros Hk ->. destruct (sqrt_nonneg q) as [Hn|Hr].
  - left. split; apply add_nan_r, mul_nan_r, Hn.
  - right. apply add_mono; [exact Hk|]. apply mul_04_06, Hr.
Qed.

Section Maximum.

Local Open Scope float_scope.

Lemma ltb_nan_r (x y : float) : is_nan y = true -> (x <? y) = false.
Proof.
  rewrite is_nan_spec, ltb_SF. destruct (Prim2SF y); try discriminate.
  now destruct (Prim2SF x).
Qed.

Lemma ltb_irrefl (x : float) : (x <? x) = false.
Proof.
  rewrite ltb_SF. unfold SFltb.
  destruct (not_nan (Prim2SF x)) eqn:H.
  - now rewrite SFcompare_refl.
  - now destruct (Prim2SF x).
Qed.

Lemma ltb_trans (x y z : float) : (x <? y) = true -> (y <? z) = true -> (x <? z) = true.
Proof. rewrite !ltb_SF. apply SFltb_trans. Qed.

Lemma ltb_leb (x y : float) : (x <? y) = true -> (x <=? y) = true.
Proof. rewrite ltb_SF, leb_SF. apply SFltb_leb. Qed.

Lemma leb_total (x y : float) :
  is_nan x = false -> is_nan y = false -> (x <? y) = false -> (y <=? x) = true.
Proof.
  rewrite ltb_SF, leb_SF. intros Hx Hy. apply SFleb_total; now apply not_nan_SF.
Qed.

Lemma leb_not_nan (x y : float) :
  (x <=? y) = true -> is_nan x = false /\ is_nan y = false.
Proof.
  rewrite leb_SF, !is_nan_spec. intros H.
  apply SFleb_not_nan in H as [-> ->]. auto.
Qed.

(** A maximum updated with the larger candidate stays larger. *)
Lemma max_paired (an al cn cl : float) :
  (an <=? al) = true -> paired cn cl ->
  ((if an <? cn then cn else an) <=? (if al <? cl then cl else al)) = true.
Proof.
  intros Ha [[Hn Hl]|Hc].
  - now rewrite !ltb_nan_r.
  - pose proof (leb_not_nan _ _ Ha) as [Nan Nal].
    pose proof (leb_not_nan _ _ Hc) as [Ncn Ncl].
    destruct (an <? cn) eqn:Hn, (al <? cl) eqn:Hl; try assumption.
    + apply (leb_total _ _ Nal Ncl) in Hl. rewrite leb_SF in *.
      eapply SFleb_trans; eassumption.
    + rewrite leb_SF, ltb_SF in *. apply SFltb_leb.
      eapply SFleb_ltb_trans; eassumption.
Qed.

End Maximum.

(** * The error of the additions *)

Lemma value_add_error (x y : float) (p : Z) :
  is_finite x = true -> is_finite y = true -> -1074 <= p <= 1023 ->
  Z.abs (value x + value y) < 2 ^ (p + 1074) ->
  is_finite (x + y) = true /\
  2 * Z.abs (value (x + y) - (value x + value y)) <= 2 ^ (Z.max (p - 53) (-1074) + 1074).
Proof.
  unfold value. rewrite !is_finite_spec, add_spec. intros Hx Hy Hp HS.
  pose proof (SFadd_Zval _ _ (Prim2SF_valid x) (Prim2SF_valid y) Hx Hy) as H.
  pose proof (target_lt _ p HS ltac:(lia)) as Ht.
  destruct (Zval_bn_error (Zval (Prim2SF x) + Zval (Prim2SF y)) ltac:(lia)) as [He Hf].
  rewrite <- (is_fin_unsign (SF64add _ _)), <- (Zval_unsign (SF64add _ _)), H.
  rewrite is_fin_unsign, Zval_unsign. split; [exact Hf|].
  eapply Z.le_trans; [exact He|]. apply Z.pow_le_mono_r; [lia|].
  pose proof (target_ge (Z.abs (Zval (Prim2SF x) + Zval (Prim2SF y))) (-1074)). lia.
Qed.

Lemma value_sub_error (x y : float) (p : Z) :
  is_finite x = true -> is_finite y = true -> -1074 <= p <= 1023 ->
  Z.abs (value x - value y) < 2 ^ (p + 1074) ->
  is_finite (x - y) = true /\
  2 * Z.abs (value (x - y) - (value x - value y)) <= 2 ^ (Z.max (p - 53) (-1074) + 1074).
Proof.
  unfold value. rewrite !is_finite_spec, sub_spec. intros Hx Hy Hp HS.
  pose proof (SFsub_Zval _ _ (Prim2SF_valid x) (Prim2SF_valid y) Hx Hy) as H.
  pose proof (target_lt _ p HS ltac:(lia)) as Ht.
  destruct (Zval_bn_error (Zval (Prim2SF x) - Zval (Prim2SF y)) ltac:(lia)) as [He Hf].
  rewrite <- (is_fin_unsign (SF64sub _ _)), <- (Zval_unsign (SF64sub _ _)), H.
  rewrite is_fin_unsign, Zval_unsign. split; [exact Hf|].
  eapply Z.le_trans; [exact He|]. apply Z.pow_le_mono_r; [lia|].
  pose proof (target_ge (Z.abs (Zval (Prim2SF x) - Zval (Prim2SF y))) (-1074)). lia.
Qed.

Lemma int_to_float_value (n : Z) (k : float) :
  Z.abs n < 2 ^ 53 -> int_to_float n = Ok k -> value k = n * 2 ^ 1074.
Proof.
  intros Hn Hk. apply int_to_float_Ok in Hk as [Hk _].
  unfold value. rewrite Hk. now apply bn_int_exact.
Qed.

Lemma value_bounds (x : float) :
  (0 <? x)%float = true -> (x <=? 1048576)%float = true ->
  is_finite x = true /\ 0 <= value x <= 2 ^ 20 * 2 ^ 1074.
Proof.
  intros H0 H1. apply ltb_leb in H0 as H0'.
  assert (Hf : is_finite x = true).
  { rewrite is_finite_spec. rewrite ltb_SF in H0. rewrite leb_SF in H1.
    change (Prim2SF 0) with (S754_zero false) in H0.
    change (Prim2SF 1048576) with (S754_finite false 4503599627370496 (-32)) in H1.
    now destruct (Prim2SF x) as [[]|[]| |[] m e]. }
  split; [exact Hf|]. rewrite leb_SF in H0', H1. rewrite is_finite_spec in Hf.
  apply SFleb_Zval in H0'; try apply Prim2SF_valid; try assumption; try reflexivity.
  apply SFleb_Zval in H1; try apply Prim2SF_valid; try assumption; try reflexivity.
  change (Zval (Prim2SF 0)) with 0 in H0'.
  replace (Zval (Prim2SF 1048576)) with (2 ^ 20 * 2 ^ 1074) in H1
    by (vm_compute; reflexivity).
  unfold value. lia.
Qed.

(** Adding an int of at most 20 bits to a positive float of at most
    [2 ^ 20] changes its value by the int, up to [2 ^ -32]; the float
    difference of the sum and the float is the int up to [2 ^ -31]. *)
Lemma add_int_tolerance (d : Z) (k x : float) :
  Z.abs d <= 2 ^ 20 -> int_to_float d = Ok k ->
  (0 <? x)%float = true -> (x <=? 1048576)%float = true ->
  2 ^ 32 * Z.abs (value (k + x) - value x - d * 2 ^ 1074) <= 2 ^ 1074 /\
  2 ^ 31 * Z.abs (value (k + x - x) - d * 2 ^ 1074) <= 2 ^ 1074.
Proof.
  intros Hd Hk H0 H1.
  pose proof (int_to_float_value d k ltac:(change (2 ^ 53) with (2 ^ 20 * 2 ^ 33); lia) Hk) as Vk.
  apply int_to_float_Ok in Hk as [_ Fk].
  destruct (value_bounds x H0 H1) as [Fx Vx].
  assert (P1 : 2 ^ 1074 = 2 ^ 32 * 2 ^ 1042) by (rewrite <- Z.pow_add_r by lia; reflexivity).
  assert (P2 : 0 < 2 ^ 1042) by (apply Z.pow_pos_nonneg; lia).
  set (Q := 2 ^ 1042) in *. set (P := 2 ^ 1074) in *.
  change (2 ^ 20) with 1048576 in *. change (2 ^ 32) with 4294967296 in *.
  change (2 ^ 31) with 2147483648.
  destruct (value_add_error k x 22 Fk Fx ltac:(lia)) as [Fy E1].
  { change (2 ^ (22 + 1074)) with (2 ^ 22 * 2 ^ 1074). fold P.
    change (2 ^ 22) with 4194304. lia. }
  change (2 ^ (Z.max (22 - 53) (-1074) + 1074)) with (2 * 2 ^ 1042) in E1. fold Q in E1.
  destruct (value_sub_error (k + x) x 21 Fy Fx ltac:(lia)) as [_ E2].
  { change (2 ^ (21 + 1074)) with (2 ^ 21 * 2 ^ 1074). fold P.
    change (2 ^ 21) with 2097152. lia. }
  change (2 ^ (Z.max (21 - 53) (-1074) + 1074)) with (2 ^ 1042) in E2. fold Q in E2.
  split; lia.
Qed.

Lemma max_of_seeded (top : number) (candidates : list float) :
  max_of top candidates -> seeded top.
Proof. intros [[-> | (x & -> & _)] _]; [now left | right; eauto]. Qed.

Lemma max_of_nil : max_of (Int 0) [].
Proof. split; [now left | intros x []]. Qed.

Lemma max_of_step (top : number) (candidates : list float) (x : float) :
  max_of top candidates -> max_of (py_max top x) (candidates ++ [x]).
Proof.
  intros H. pose proof (max_of_seeded _ _ H) as Hs. destruct H as [Htop Hle].
  unfold py_max. rewrite (float_gt_seed top x Hs).
  destruct (seed top <? x)%float eqn:Hx.
  - split.
    + right. exists x. repeat split; [apply in_or_app; right; now left|].
      destruct Htop as [-> | (y & -> & _ & Hy)]; [exact Hx|].
      eapply ltb_trans; eassumption.
    + intros c Hc. cbn [float_gt]. apply in_app_or in Hc as [Hc|[<-|[]]].
      * specialize (Hle c Hc). rewrite (float_gt_seed top c Hs) in Hle.
        destruct (x <? c)%float eqn:Hxc; [|reflexivity].
        rewrite (ltb_trans _ _ _ Hx Hxc) in Hle. discriminate.
      * apply ltb_irrefl.
  - split.
    + destruct Htop as [-> | (y & -> & Hy & Hy0)]; [now left|].
      right. exists y. repeat split; [apply in_or_app; now left | exact Hy0].
    + intros c Hc. apply in_app_or in Hc as [Hc|[<-|[]]]; [now apply Hle|].
      now rewrite (float_gt_seed top x Hs).
Qed.

Lemma seed_py_max (a : number) (x : float) :
  seeded a -> seed (py_max a x) = if (seed a <? x)%float then x else seed a.
Proof.
  intros Ha. unfold py_max. rewrite (float_gt_seed a x Ha).
  now destruct (seed a <? x)%float.
Qed.

Lemma towers_ok_loop (c : config) (w : float) (t : towers) :
  loop c w = Ok t -> towers_ok t.
Proof.
  apply loop_invariant.
  - split; [apply max_of_nil | apply max_of_nil | reflexivity].
  - intros s v s' [Hl Hn Hle] Hstep.
    apply step_Ok in Hstep as (r & k & Hr & Hk & ->).
    apply radius_Ok in Hr as [q Hq]. apply int_to_float_Ok in Hk as [_ Hk].
    split; cbn [LOStowerA LOStowerAs nearLOStowerA nearLOStowerAs].
    + now apply max_of_step.
    + now apply max_of_step.
    + rewrite !seed_py_max by (eapply max_of_seeded; eassumption).
      apply max_paired; [exact Hle | now apply (candidates_paired k r q)].
Qed.

Lemma clearance_Ok (c : config) (h : heights) :
  clearance c = Ok h ->
  float_mul_int (transmissionFrequency c) 1000000 = Ok (frequencyHz h) /\
  int_truediv_float 300000000 (frequencyHz h) = Ok (waveLength h) /\
  loop c (waveLength h) = Ok (towersA h) /\
  int_add (buildingA c - buildingB c) (LOStowerA (towersA h)) = Ok (LOStowerB h) /\
  int_add (buildingA c - buildingB c) (nearLOStowerA (towersA h)) = Ok (nearLOStowerB h).
Proof.
  unfold clearance. intros H.
  apply bind_Ok in H as (f & Hf & H). apply bind_Ok in H as (w & Hw & H).
  apply bind_Ok in H as (t & Ht & H). apply bind_Ok in H as (b & Hb & H).
  apply bind_Ok in H as (b' & Hb' & H). injection H as <-.
  cbn [frequencyHz waveLength towersA LOStowerB nearLOStowerB]. auto.
Qed.

Lemma clearance_towers_ok (c : config) (h : heights) :
  clearance c = Ok h -> towers_ok (towersA h).
Proof.
  intros H. apply clearance_Ok in H as (_ & _ & H & _).
  eapply towers_ok_loop, H.
Qed.

(** * Indexing *)

Lemma getitem_In {A : Type} (l : list A) (i : Z) (a : A) :
  getitem l i = Ok a -> In a l.
Proof.
  unfold getitem.
  destruct ((0 <=? _) && _); [|discriminate].
  destruct (nth_error l _) eqn:H; [|discriminate].
  intros [= <-]. eapply nth_error_In, H.
Qed.

Lemma getitem_nth {A : Type} (l : list A) (n : nat) (a : A) :
  nth_error l n = Some a -> getitem l (Z.of_nat n) = Ok a.
Proof.
  intros H. assert (Hn : (n < length l)%nat) by (apply nth_error_Some; congruence).
  unfold getitem.
  destruct (Z.ltb_spec (Z.of_nat n) 0); [lia|].
  destruct (Z.leb_spec 0 (Z.of_nat n)); [|lia].
  destruct (Z.ltb_spec (Z.of_nat n) (Z.of_nat (length l))); [|lia].
  cbn [andb]. now rewrite Nat2Z.id, H.
Qed.

Lemma In_getitem {A : Type} (l : list A) (a : A) :
  In a l -> exists i, getitem l i = Ok a.
Proof.
  intros H. apply In_nth_error in H as [n Hn].
  exists (Z.of_nat n). now apply getitem_nth.
Qed.

(** * The gaps *)

Section Gaps.

Local Open Scope float_scope.

Lemma eqb_0_leb (x : float) : (x =? 0) = true -> (0 <=? x) = true.
Proof.
  rewrite FloatAxioms.eqb_spec, leb_SF. change (Prim2SF 0) with (S754_zero false).
  now destruct (Prim2SF x) as [[]|[]| |[] m e].
Qed.

Lemma leb_0_not_ltb (x : float) :
  (0 <=? x) = true -> (0 <? x) = false -> (x =? 0) = true.
Proof.
  rewrite FloatAxioms.eqb_spec, leb_SF, ltb_SF. change (Prim2SF 0) with (S754_zero false).
  now destruct (Prim2SF x) as [[]|[]| |[] m e].
Qed.

Lemma float_sub_seed (x : float) (top : number) :
  seeded top -> float_sub x top = Ok (x - seed top).
Proof. intros [-> | [y ->]]; reflexivity. Qed.

Lemma gap_Ok (candidates : list float) (top : number) (i : Z) (g : float) :
  seeded top -> gap candidates top i = Ok g ->
  exists x, In x candidates /\ g = x - seed top.
Proof.
  intros Hs H. unfold gap in H. apply bind_Ok in H as (x & Hx & H).
  rewrite (float_sub_seed x top Hs) in H. injection H as <-.
  exists x. split; [eapply getitem_In, Hx | reflexivity].
Qed.

Lemma In_gap (candidates : list float) (top : number) (x : float) :
  seeded top -> In x candidates ->
  exists i, gap candidates top i = Ok (x - seed top).
Proof.
  intros Hs H. apply In_getitem in H as [i Hi]. exists i.
  unfold gap. rewrite Hi. cbn [bind]. now apply float_sub_seed.
Qed.

(** No gap of finite candidates is positive. *)
Lemma gap_le_0 (top : number) (candidates : list float) (x : float) :
  max_of top candidates -> Forall (fun c => is_finite c = true) candidates ->
  In x candidates -> (x - seed top <=? 0) = true.
Proof.
  intros Hmax Hfin Hx. pose proof (max_of_seeded _ _ Hmax) as Hs.
  rewrite List.Forall_forall in Hfin. destruct Hmax as [Htop Hle].
  specialize (Hle x Hx). rewrite (float_gt_seed top x Hs) in Hle.
  pose proof (is_finite_not_nan x (Hfin x Hx)) as Nx.
  destruct Htop as [-> | (y & -> & Hy & _)]; cbn [seed] in *.
  - rewrite sub_zero. now apply leb_total.
  - apply sub_le_zero; try (now apply Hfin).
    apply leb_total; [apply is_finite_not_nan; now apply Hfin | exact Nx | exact Hle].
Qed.

(** Some gap is zero exactly when some candidate is not negative. *)
Lemma gap_eq_0 (top : number) (candidates : list float) :
  max_of top candidates -> Forall (fun c => is_finite c = true) candidates ->
  (exists x, In x candidates /\ (x - seed top =? 0) = true) <->
  (exists x, In x candidates /\ (0 <=? x) = true).
Proof.
  intros Hmax Hfin. pose proof (max_of_seeded _ _ Hmax) as Hs.
  rewrite List.Forall_forall in Hfin. destruct Hmax as [Htop Hle].
  destruct Htop as [-> | (y & -> & Hy & Hy0)]; cbn [seed] in *.
  - split; intros (x & Hx & H); exists x; (split; [exact Hx|]).
    + rewrite sub_zero in H. now apply eqb_0_leb.
    + rewrite sub_zero. apply leb_0_not_ltb; [exact H|].
      specialize (Hle x Hx). now rewrite (float_gt_seed (Int 0) x Hs) in Hle.
  - split; intros _; exists y; (split; [exact Hy|]).
    + now apply ltb_leb.
    + apply sub_diag. now apply Hfin.
Qed.

End Gaps.

(** * The specified properties *)

(** ** The worked example *)

(** C1, as stated, fails: on the worked example the LOS height of tower A
    is 5.7947 to four decimals, not 7.3665, and the radius at D1 = 1600 is
    6.3246, not 8.944. *)
Lemma worked_example_not_7_3665 :
  exists h r,
    clearance worked_example = Ok h /\
    format_4f (LOStowerA (towersA h)) = Ok "5.7947"%string /\
    format_4f (LOStowerA (towersA h)) <> Ok "7.3665"%string /\
    radius 2000 (waveLength h) {| D1 := 1600; Height := 22 |} = Ok r /\
    format_4f_float r = "6.3246"%string.
Proof.
  eexists. eexists.
  split; [vm_compute; reflexivity|].
  split; [vm_compute; reflexivity|].
  split; [vm_compute; discriminate|].
  split; vm_compute; reflexivity.
Qed.

(** C1, amended: on the worked example the wavelength is 0.125; the
    obstruction at D1 = 1600 (D2 = 400) has the radius sqrt(40), 6.3246 to four
    decimals, and the largest LOS candidate, 2 + 0.6 * radius; the LOS height
    of tower A is that candidate, 5.7947 to four decimals; and the near-LOS
    height of tower B is 20 - 15 + the near-LOS height of tower A. *)
Theorem worked_example_heights :
  exists h r los,
    clearance worked_example = Ok h /\
    waveLength h = 0.125%float /\
    radius 2000 (waveLength h) {| D1 := 1600; Height := 22 |} = Ok r /\
    r = PrimFloat.sqrt 40 /\
    format_4f_float r = "6.3246"%string /\
    nth_error (LOStowerAs (towersA h)) 3 = Some los /\
    los = (2 + 0.6 * r)%float /\
    forallb (fun x => x <=? los)%float (LOStowerAs (towersA h)) = true /\
    LOStowerA (towersA h) = Float los /\
    format_4f (LOStowerA (towersA h)) = Ok "5.7947"%string /\
    int_add (20 - 15) (nearLOStowerA (towersA h)) = Ok (nearLOStowerB h).
Proof.
  do 3 eexists.
  split; [vm_compute; reflexivity|].
  split; [vm_compute; reflexivity|].
  split; [vm_compute; reflexivity|].
  repeat split; vm_compute; reflexivity.
Qed.

(** ** The sign of the gaps *)

(** C2, as stated, fails: with one obstruction 15 m lower than building A
    the LOS height stays at the seed 0 and the only gap is -10.2566: no gap
    is zero. *)
Lemma low_obstruction_no_zero_gap :
  exists h g,
    clearance low_obstruction = Ok h /\
    LOStowerA (towersA h) = Int 0 /\
    length (LOStowerAs (towersA h)) = 1%nat /\
    gap (LOStowerAs (towersA h)) (LOStowerA (towersA h)) 0 = Ok g /\
    (g =? 0)%float = false /\
    format_4f_float g = "-10.2566"%string.
Proof.
  do 2 eexists.
  split; [vm_compute; reflexivity|].
  repeat split; vm_compute; reflexivity.
Qed.

(** C2, amended: when the LOS candidates are finite, the gap of every
    obstruction is at most 0, and the gap of some obstruction is 0 if and
    only if some candidate is not negative (otherwise the LOS height is the
    seed 0 and every gap is negative). *)
Theorem gap_sign (c : config) (h : heights) :
  clearance c = Ok h ->
  Forall (fun x => is_finite x = true) (LOStowerAs (towersA h)) ->
  (forall i g,
     gap (LOStowerAs (towersA h)) (LOStowerA (towersA h)) i = Ok g ->
     (g <=? 0)%float = true) /\
  ((exists i g,
      gap (LOStowerAs (towersA h)) (LOStowerA (towersA h)) i = Ok g /\
      (g =? 0)%float = true) <->
   (exists x, In x (LOStowerAs (towersA h)) /\ (0 <=? x)%float = true)).
Proof.
  intros Hc Hfin. apply clearance_towers_ok in Hc as [Hmax _ _].
  pose proof (max_of_seeded _ _ Hmax) as Hs.
  split.
  - intros i g Hg. apply (gap_Ok _ _ _ _ Hs) in Hg as (x & Hx & ->).
    now apply (gap_le_0 _ (LOStowerAs (towersA h))).
  - rewrite <- (gap_eq_0 _ _ Hmax Hfin). split.
    + intros (i & g & Hg & H0).
      apply (gap_Ok _ _ _ _ Hs) in Hg as (x & Hx & ->). eauto.
    + intros (x & Hx & H0).
      destruct (In_gap _ _ _ Hs Hx) as [i Hi]. eauto.
Qed.

Lemma worked_example_clearance : clearance worked_example = Ok worked_example_result.
Proof. vm_compute. reflexivity. Qed.

Lemma gap_sign_witness :
  clearance worked_example = Ok worked_example_result /\
  Forall (fun x => is_finite x = true) (LOStowerAs (towersA worked_example_result)) /\
  (forall i g,
     gap (LOStowerAs (towersA worked_example_result))
         (LOStowerA (towersA worked_example_result)) i = Ok g ->
     (g <=? 0)%float = true).
Proof.
  assert (F : Forall (fun x => is_finite x = true)
                (LOStowerAs (towersA worked_example_result)))
    by (repeat constructor).
  split; [exact worked_example_clearance|]. split; [exact F|].
  exact (proj1 (gap_sign worked_example worked_example_result
                  worked_example_clearance F)).
Defined.

(** ** Division by zero in the radius *)

(** The divisor of the radius formula is [D1 + D2 = distanceBtw]: on a path
    of length zero the division raises as soon as the distances convert. *)
Lemma radius_zero_path (w : float) (v : obstruction) :
  succeeds (int_to_float (D1 v)) = true ->
  succeeds (int_to_float (0 - D1 v)) = true ->
  radius 0 w v = Raise ZeroDivisionError.
Proof.
  unfold radius, float_mul_int, float_truediv_int. intros H1 H2.
  destruct (int_to_float (D1 v)) as [a|]; [|discriminate].
  destruct (int_to_float (0 - D1 v)) as [b|]; [|discriminate].
  cbn [bind]. replace (D1 v + (0 - D1 v)) with 0 by lia.
  reflexivity.
Qed.

(** An int other than zero converts to a float other than zero. *)
Lemma int_to_float_nonzero (n : Z) (y : float) :
  n <> 0 -> int_to_float n = Ok y -> (y =? 0)%float = false.
Proof.
  intros Hn Hy. apply int_to_float_Ok in Hy as [Hy _].
  rewrite FloatAxioms.eqb_spec, Hy. change (Prim2SF 0) with (S754_zero false).
  destruct (Z.lt_trichotomy n 0) as [N|[Z0|P]]; [|contradiction|].
  - assert (H : SFleb (binary_normalize prec emax n 0 false)
                  (binary_normalize prec emax (-1) 0 false) = true)
      by (apply (bn_le _ _ _ _ 0); lia).
    change (binary_normalize prec emax (-1) 0 false)
      with (S754_finite true 4503599627370496 (-52)) in H.
    now destruct (binary_normalize prec emax n 0 false) as [[]|[]| |[] m e].
  - assert (H : SFleb (binary_normalize prec emax 1 0 false)
                  (binary_normalize prec emax n 0 false) = true)
      by (apply (bn_le _ _ _ _ 0); lia).
    change (binary_normalize prec emax 1 0 false)
      with (S754_finite false 4503599627370496 (-52)) in H.
    now destruct (binary_normalize prec emax n 0 false) as [[]|[]| |[] m e].
Qed.

Lemma int_to_float_Raise (n : Z) (e : exn) :
  int_to_float n = Raise e -> e = OverflowError.
Proof.
  unfold int_to_float.
  destruct (binary_normalize prec emax n 0 false); congruence.
Qed.

(** On a path whose length is not zero the radius never divides by zero,
    wherever the obstruction stands. *)
Lemma radius_nonzero_path (d : Z) (w : float) (v : obstruction) :
  d <> 0 -> radius d w v <> Raise ZeroDivisionError.
Proof.
  intros Hd. unfold radius, float_mul_int, float_truediv_int, math_sqrt.
  destruct (int_to_float (D1 v)) as [a|e] eqn:Ha; cbn [bind];
    [|apply int_to_float_Raise in Ha; congruence].
  destruct (int_to_float (d - D1 v)) as [b|e] eqn:Hb; cbn [bind];
    [|apply int_to_float_Raise in Hb; congruence].
  replace (D1 v + (d - D1 v)) with d by lia.
  destruct (int_to_float d) as [y|e] eqn:Hy; cbn [bind];
    [|apply int_to_float_Raise in Hy; congruence].
  rewrite (int_to_float_nonzero d y Hd Hy). cbn [bind].
  destruct (is_nan _ && _); discriminate.
Qed.

(** Zeros: products and quotients of a zero, and sums with a zero. *)

Section Zeros.

Local Open Scope float_scope.

Lemma eqb_0_zero (x : float) : (x =? 0) = true <-> exists s, Prim2SF x = S754_zero s.
Proof.
  rewrite FloatAxioms.eqb_spec. change (Prim2SF 0) with (S754_zero false).
  destruct (Prim2SF x) as [s|[]| |[] m e]; cbn; split;
    try discriminate; try (intros [s' H]; discriminate); eauto.
Qed.

Lemma mul_zero_l (z x : float) :
  (z =? 0) = true -> is_finite x = true -> (z * x =? 0) = true.
Proof.
  rewrite is_finite_spec, !eqb_0_zero, mul_spec. intros [s ->].
  destruct (Prim2SF x) as [sx|sx| |sx m e]; try discriminate; intros _; cbn; eauto.
Qed.

Lemma mul_zero_r (x z : float) :
  is_finite x = true -> (z =? 0) = true -> (x * z =? 0) = true.
Proof.
  rewrite is_finite_spec, !eqb_0_zero, mul_spec. intros Hx [s ->].
  destruct (Prim2SF x) as [sx|sx| |sx m e]; try discriminate; cbn; eauto.
Qed.

Lemma div_zero_l (z y : float) :
  (z =? 0) = true -> is_finite y = true -> (y =? 0) = false -> (z / y =? 0) = true.
Proof.
  intros Hz Hy Hy0. apply eqb_0_zero in Hz as [s Hz].
  rewrite is_finite_spec in Hy. rewrite FloatAxioms.eqb_spec in Hy0.
  change (Prim2SF 0) with (S754_zero false) in Hy0.
  apply eqb_0_zero. rewrite div_spec, Hz.
  destruct (Prim2SF y) as [sy|sy| |sy m e]; try discriminate; cbn; eauto.
Qed.

Lemma math_sqrt_zero (z : float) :
  (z =? 0) = true -> math_sqrt z = Ok (sqrt z) /\ (sqrt z =? 0) = true.
Proof.
  intros Hz. apply eqb_0_zero in Hz as [s Hz].
  assert (Hs : Prim2SF (sqrt z) = S754_zero s) by (rewrite sqrt_spec, Hz; reflexivity).
  split; [|apply eqb_0_zero; eauto].
  unfold math_sqrt. rewrite !is_nan_spec, Hs, Hz. reflexivity.
Qed.

(** Adding a zero to the float of an int gives that float. *)
Lemma int_add_zero (n : Z) (k z : float) :
  int_to_float n = Ok k -> (z =? 0) = true -> k + z = k.
Proof.
  intros Hk Hz. apply eqb_0_zero in Hz as [s Hz].
  apply Prim2SF_inj. rewrite add_spec, Hz.
  destruct (Z.eq_dec n 0%Z) as [->|Hn].
  - injection Hk as <-. now destruct s.
  - pose proof (int_to_float_nonzero n k Hn Hk) as H0.
    apply int_to_float_Ok in Hk as [_ Hf]. rewrite is_finite_spec in Hf.
    rewrite FloatAxioms.eqb_spec in H0. change (Prim2SF 0) with (S754_zero false) in H0.
    destruct (Prim2SF k) as [sk|sk| |sk m e]; try discriminate. reflexivity.
Qed.

End Zeros.

(** An obstruction at an end of a path of non-zero length has a radius of
    zero. *)
Lemma radius_end (d : Z) (w : float) (v : obstruction) (y : float) :
  d <> 0 -> is_finite w = true -> int_to_float d = Ok y ->
  D1 v = 0 \/ (D1 v = d /\ is_finite (w * y) = true) ->
  exists r, radius d w v = Ok r /\ (r =? 0)%float = true.
Proof.
  intros Hd Hw Hy Hend.
  pose proof (int_to_float_nonzero _ _ Hd Hy) as Hy0.
  pose proof (int_to_float_Ok _ _ Hy) as [_ Fy].
  unfold radius, float_mul_int, float_truediv_int.
  destruct Hend as [E | [E Hwy]]; rewrite E.
  - rewrite int_to_float_0. cbn [bind]. rewrite Z.sub_0_r, Z.add_0_l, Hy. cbn [bind].
    rewrite Hy0. cbn [bind].
    assert (Hq : (w * 0 * y / y =? 0)%float = true).
    { apply div_zero_l; [|exact Fy | exact Hy0].
      apply mul_zero_l; [|exact Fy]. now apply mul_zero_r. }
    destruct (math_sqrt_zero _ Hq) as [-> Hs]. eauto.
  - rewrite Hy. cbn [bind]. rewrite Z.sub_diag, int_to_float_0. cbn [bind].
    rewrite Z.add_0_r, Hy. cbn [bind]. rewrite Hy0. cbn [bind].
    assert (Hq : (w * y * 0 / y =? 0)%float = true).
    { apply div_zero_l; [|exact Fy | exact Hy0]. now apply mul_zero_r. }
    destruct (math_sqrt_zero _ Hq) as [-> Hs]. eauto.
Qed.

(** C3, as stated, fails: on a path of 2000 m an obstruction at distance 0
    from A, or at the full path length, has a radius of 0 and nothing is
    divided by zero; the computation succeeds on the worked example with
    such obstructions; and on no path of non-zero length does the radius
    divide by zero, wherever the obstruction stands. *)
Lemma end_of_path_no_division_by_zero :
  radius 2000 0.125 {| D1 := 0; Height := 18 |} = Ok 0%float /\
  radius 2000 0.125 {| D1 := 2000; Height := 18 |} = Ok 0%float /\
  succeeds (clearance end_obstructions) = true /\
  (forall (d : Z) (w : float) (v : obstruction),
     d <> 0 -> radius d w v <> Raise ZeroDivisionError).
Proof.
  split; [vm_compute; reflexivity|]. split; [vm_compute; reflexivity|].
  split; [vm_compute; reflexivity|]. exact radius_nonzero_path.
Qed.

(** C3, amended: the radius formula divides by [D1 + D2], which is the path
    length whatever the distance of the obstruction.  As soon as the two
    distances convert to floats, the radius raises ZeroDivisionError exactly
    when the path length is zero; on a path of non-zero length an
    obstruction at building A, or at building B when the wavelength times
    the path length is finite, divides by the path length and has a radius
    of zero. *)
Theorem division_by_zero_iff_zero_path (d : Z) (w : float) (v : obstruction) :
  succeeds (int_to_float (D1 v)) = true ->
  succeeds (int_to_float (d - D1 v)) = true ->
  (radius d w v = Raise ZeroDivisionError <-> d = 0) /\
  (forall y : float,
     d <> 0 -> is_finite w = true -> int_to_float d = Ok y ->
     D1 v = 0 \/ (D1 v = d /\ is_finite (w * y) = true) ->
     exists r, radius d w v = Ok r /\ (r =? 0)%float = true).
Proof.
  intros H1 H2. split.
  - split.
    + intros H. destruct (Z.eq_dec d 0) as [E|N]; [exact E|].
      now destruct (radius_nonzero_path d w v N).
    + intros ->. now apply radius_zero_path.
  - intros y. apply radius_end.
Qed.

Lemma division_by_zero_iff_zero_path_witness :
  radius 0 0.125 {| D1 := 7; Height := 18 |} = Raise ZeroDivisionError /\
  (radius 2000 0.125 {| D1 := 2000; Height := 18 |} = Raise ZeroDivisionError
   <-> 2000 = 0) /\
  exists r, radius 2000 0.125 {| D1 := 2000; Height := 18 |} = Ok r /\
            (r =? 0)%float = true.
Proof.
  split.
  - apply (proj1 (division_by_zero_iff_zero_path 0 0.125 {| D1 := 7; Height := 18 |}
                    eq_refl eq_refl)). reflexivity.
  - destruct (division_by_zero_iff_zero_path 2000 0.125 {| D1 := 2000; Height := 18 |}
                eq_refl eq_refl) as [Hiff Hend].
    split; [exact Hiff|].
    apply (Hend 2000%float); [discriminate | reflexivity | reflexivity|].
    right. split; reflexivity.
Defined.

(** ** Tower B *)

(** C4, as stated, fails: with an obstruction of height [10 ^ 17 + 1] and
    buildings of heights 1 and 0 the two LOS heights are the same float, so
    their difference is 0 and not 1, and likewise for the near-LOS heights. *)
Lemma tall_obstruction_towerB :
  exists h a b,
    clearance tall_obstruction = Ok h /\
    buildingA tall_obstruction - buildingB tall_obstruction = 1 /\
    LOStowerA (towersA h) = Float a /\ LOStowerB h = Float b /\
    (b - a)%float = 0%float /\
    (abs ((b - a) - 1) <=? 0.000000001)%float = false /\
    nearLOStowerA (towersA h) = Float a /\ nearLOStowerB h = Float b.
Proof.
  do 3 eexists. split; [vm_compute; reflexivity|].
  repeat split; vm_compute; reflexivity.
Qed.

(** C4, amended: the height of tower B is [buildingA - buildingB] plus the
    height of tower A in Python arithmetic.  While the height of tower A is
    the seed 0 this is the int [buildingA - buildingB], exactly; when it is
    a finite float, the height of tower B is the exact sum of
    [float(buildingA - buildingB)] and the height of tower A rounded once to
    binary64; and when [buildingA - buildingB] and the height of tower A are
    at most [2 ^ 20] in magnitude, the difference of the two heights is
    [buildingA - buildingB] within [2 ^ -31], less than 1e-9.  The same holds
    for the near-LOS heights. *)
Theorem towerB_relation (c : config) (h : heights) :
  clearance c = Ok h ->
  towerB_of (buildingA c - buildingB c) (LOStowerA (towersA h)) (LOStowerB h) /\
  towerB_of (buildingA c - buildingB c) (nearLOStowerA (towersA h)) (nearLOStowerB h).
Proof.
  intros Hc. pose proof (clearance_towers_ok c h Hc) as [Hl Hn _].
  assert (H : forall a b cs, max_of a cs ->
            int_add (buildingA c - buildingB c) a = Ok b ->
            towerB_of (buildingA c - buildingB c) a b).
  { intros a b cs Hmax Hab. split; [exact Hab|]. split.
    - intros ->. cbn [int_add] in Hab. rewrite Z.add_0_r in Hab. congruence.
    - intros x ->. cbn [int_add] in Hab. unfold int_add_float in Hab.
      apply bind_Ok in Hab as (y & Hy & Hb). apply bind_Ok in Hy as (k & Hk & Hy).
      injection Hy as <-. injection Hb as <-.
      exists k, (k + x)%float. repeat split; try assumption.
      + intros Hx. pose proof (int_to_float_Ok _ _ Hk) as [_ Fk].
        unfold rounded_sum, value. rewrite is_finite_spec in Fk, Hx. rewrite add_spec.
        apply SFadd_Zval; try apply Prim2SF_valid; assumption.
      + apply add_int_tolerance; try assumption.
        destruct Hmax as [[E | (x' & E & _ & Hx')] _]; congruence.
      + apply add_int_tolerance; try assumption.
        destruct Hmax as [[E | (x' & E & _ & Hx')] _]; congruence. }
  apply clearance_Ok in Hc as (_ & _ & _ & Hlb & Hnb).
  split; eapply H; eassumption.
Qed.

Lemma towerB_relation_witness :
  clearance worked_example = Ok worked_example_result /\
  towerB_of (20 - 15) (LOStowerA (towersA worked_example_result))
    (LOStowerB worked_example_result).
Proof.
  split; [exact worked_example_clearance|].
  exact (proj1 (towerB_relation worked_example worked_example_result
                  worked_example_clearance)).
Defined.

(** ** Order and sign of the heights *)

(** C5: the near-LOS height of tower A is at most its LOS height. *)
Theorem near_le_los (c : config) (h : heights) :
  clearance c = Ok h ->
  py_le (nearLOStowerA (towersA h)) (LOStowerA (towersA h)) = true.
Proof.
  intros Hc. apply clearance_towers_ok in Hc as [Hl Hn Hle].
  rewrite py_le_seed; [exact Hle | |]; eapply max_of_seeded; eassumption.
Qed.

Lemma near_le_los_witness :
  clearance worked_example = Ok worked_example_result /\
  py_le (nearLOStowerA (towersA worked_example_result))
        (LOStowerA (towersA worked_example_result)) = true.
Proof.
  split; [exact worked_example_clearance|].
  exact (near_le_los worked_example worked_example_result worked_example_clearance).
Defined.

(** C6: the LOS and the near-LOS heights of tower A are not negative. *)
Theorem heights_nonnegative (c : config) (h : heights) :
  clearance c = Ok h ->
  py_le (Int 0) (LOStowerA (towersA h)) = true /\
  py_le (Int 0) (nearLOStowerA (towersA h)) = true.
Proof.
  intros Hc. apply clearance_towers_ok in Hc as [Hl Hn _].
  assert (H : forall top cs, max_of top cs -> py_le (Int 0) top = true).
  { intros top cs Hmax. pose proof (max_of_seeded _ _ Hmax) as Hs.
    rewrite py_le_seed; [| now left | exact Hs].
    destruct Hmax as [[-> | (x & -> & _ & Hx)] _]; [reflexivity|].
    cbn [seed]. now apply ltb_leb. }
  split; eapply H; eassumption.
Qed.

Lemma heights_nonnegative_witness :
  clearance low_obstruction
    = Ok {| frequencyHz := 2400000000; waveLength := 0.125;
            towersA := {| LOStowerA := Int 0;
                          LOStowerAs := [(-10.256583509747431)%float];
                          nearLOStowerA := Int 0;
                          nearLOStowerAs := [(-11.83772233983162)%float] |};
            LOStowerB := Int 5; nearLOStowerB := Int 5 |} /\
  py_le (Int 0) (Int 0) = true.
Proof.
  assert (H : clearance low_obstruction
    = Ok {| frequencyHz := 2400000000; waveLength := 0.125;
            towersA := {| LOStowerA := Int 0;
                          LOStowerAs := [(-10.256583509747431)%float];
                          nearLOStowerA := Int 0;
                          nearLOStowerAs := [(-11.83772233983162)%float] |};
            LOStowerB := Int 5; nearLOStowerB := Int 5 |})
    by (vm_compute; reflexivity).
  split; [exact H|].
  exact (proj1 (heights_nonnegative low_obstruction _ H)).
Defined.

(** * A run of the script *)

(** ** The output block *)

Lemma silent_eval {A : Type} (r : result A) : silent (eval r).
Proof. intros s. reflexivity. Qed.

Lemma silent_write (text : string) : silent (write text).
Proof. intros s. reflexivity. Qed.

Lemma silent_seq {A B : Type} (m : block A) (k : A -> block B) :
  silent m -> (forall a, silent (k a)) -> silent (seq_block m k).
Proof.
  intros Hm Hk s. unfold seq_block. specialize (Hm s).
  destruct (m s) as [[a|e] s']; cbn [snd] in *; [|exact Hm].
  now rewrite Hk.
Qed.

Lemma silent_for_each (indices : list Z) (body : Z -> block unit) :
  (forall i, silent (body i)) -> silent (block_for_each indices body).
Proof.
  intros Hb. induction indices as [|i rest IH]; cbn [block_for_each].
  - apply silent_eval.
  - apply silent_seq; [apply Hb | intros _; exact IH].
Qed.

Lemma silent_write_gaps (n : Z) (candidates : list float) (top : number) :
  silent (write_gaps n candidates top).
Proof.
  apply silent_for_each. intros i.
  apply silent_seq; [apply silent_eval | intros g; apply silent_write].
Qed.

Lemma silent_report_heights (c : config) (h : heights) : silent (report_heights c h).
Proof.
  unfold report_heights.
  repeat first [ apply silent_write_gaps | apply silent_write | apply silent_eval
               | apply silent_seq; [|intros ?] ].
Qed.

(** The block ends by the path loss: it is computed after the reports,
    printed, and followed in the file by a line feed only. *)
Lemma report_eq (log10 : float -> float) (c : config) (h : heights) (s : io) :
  report log10 c h s =
  match report_heights c h s with
  | (Ok _, s') =>
      match attenuation log10 (frequencyHz h) (distanceBtw c) with
      | Ok att => (Ok tt, {| written := (written s' ++ nl)%string;
                             printed := printed s' ++ [att] |})
      | Raise e => (Raise e, s')
      end
  | (Raise e, s') => (Raise e, s')
  end.
Proof.
  unfold report, seq_block.
  destruct (report_heights c h s) as [[u|e] s']; [|reflexivity].
  unfold eval. now destruct (attenuation log10 (frequencyHz h) (distanceBtw c)).
Qed.

Lemma run_eq (log10 : float -> float) (fs : filesystem) (text : string)
  (c : config) (h : heights) :
  fs !! "deploy_data.txt"%string = Some text -> compute text = Ok (c, h) ->
  run log10 fs =
  let '(r, s) := report log10 c h io0 in
  {| exception := raised r;
     files := <["output.txt"%string := written s]> fs;
     console := printed s |}.
Proof. intros Ht Hc. unfold run. now rewrite Ht, Hc. Qed.

Lemma run_None (log10 : float -> float) (fs : filesystem) :
  exception (run log10 fs) = None ->
  exists text c h s att,
    fs !! "deploy_data.txt"%string = Some text /\
    compute text = Ok (c, h) /\
    report_heights c h io0 = (Ok tt, s) /\
    attenuation log10 (frequencyHz h) (distanceBtw c) = Ok att /\
    run log10 fs = {| exception := None;
                      files := <["output.txt"%string := (written s ++ nl)%string]> fs;
                      console := [att] |}.
Proof.
  unfold run. destruct (fs !! "deploy_data.txt"%string) as [text|] eqn:Ht;
    [|discriminate].
  destruct (compute text) as [[c h]|e] eqn:Hc; [|discriminate].
  fold io0. rewrite report_eq. pose proof (silent_report_heights c h io0) as Hs.
  destruct (report_heights c h io0) as [[[]|e] s] eqn:Hr; [|discriminate].
  destruct (attenuation log10 (frequencyHz h) (distanceBtw c)) as [att|e] eqn:Ha;
    [|discriminate].
  intros _. exists text, c, h, s, att. cbn [snd] in Hs.
  cbn [raised written printed]. rewrite Hs.
  repeat split; try assumption; reflexivity.
Qed.

Lemma compute_Ok (text : string) (c : config) (h : heights) :
  compute text = Ok (c, h) ->
  read_config (readlines text) = Ok c /\ clearance c = Ok h.
Proof.
  unfold compute. intros H. apply bind_Ok in H as (c' & Hc & H).
  apply bind_Ok in H as (h' & Hh & H).
  assert (c' = c /\ h' = h) as [<- <-] by (split; congruence). auto.
Qed.

Lemma int_to_float_1000000 : int_to_float 1000000 = Ok 1000000%float.
Proof. vm_compute. reflexivity. Qed.

Lemma float_mul_int_1000000 (x : float) :
  float_mul_int x 1000000 = Ok (x * 1000000)%float.
Proof. unfold float_mul_int. now rewrite int_to_float_1000000. Qed.

Lemma attenuation_Ok (log10 : float -> float) (f : float) (n : Z) (att : float) :
  attenuation log10 f n = Ok att ->
  exists d l,
    int_to_float n = Ok d /\
    math_log10 log10 (f * d / 1000000000 / 1000)%float = Ok l /\
    att = (92.5 + 20 * l)%float.
Proof.
  unfold attenuation, float_mul_int, float_truediv_int, int_mul_float.
  intros H. apply bind_Ok in H as (x & Hx & H).
  apply bind_Ok in Hx as (d & Hd & Hx). injection Hx as <-.
  change (int_to_float 1000000000) with (Ok 1000000000%float) in H.
  change (int_to_float 1000) with (Ok 1000%float) in H.
  change (int_to_float 20) with (Ok 20%float) in H.
  cbn [bind] in H.
  change (1000000000 =? 0)%float with false in H.
  change (1000 =? 0)%float with false in H. cbn [bind] in H.
  apply bind_Ok in H as (l & Hl & H). injection H as <-.
  exists d, l. auto.
Qed.

(** ** The path loss *)

(** C7: when the script runs to its end, it has printed on the console one
    value, 92.5 + 20 * log10((frequencyHz * distanceBtw / 1e9) / 1000) with
    frequencyHz = transmissionFrequency * 1e6; the output file does not hold
    it: the file is the text of the height reports followed by a line feed,
    the same whatever the C library's log10 computes. *)
Theorem path_loss_printed (log10 : float -> float) (fs : filesystem) :
  exception (run log10 fs) = None ->
  exists text c h d l s,
    fs !! "deploy_data.txt"%string = Some text /\
    compute text = Ok (c, h) /\
    frequencyHz h = (transmissionFrequency c * 1000000)%float /\
    int_to_float (distanceBtw c) = Ok d /\
    math_log10 log10 (frequencyHz h * d / 1000000000 / 1000)%float = Ok l /\
    console (run log10 fs) = [(92.5 + 20 * l)%float] /\
    report_heights c h io0 = (Ok tt, s) /\
    files (run log10 fs) = <["output.txt"%string := (written s ++ nl)%string]> fs /\
    forall log10' : float -> float,
      exception (run log10' fs) = None ->
      files (run log10' fs) = files (run log10 fs).
Proof.
  intros H. apply run_None in H as (text & c & h & s & att & Ht & Hc & Hr & Ha & Hrun).
  pose proof (compute_Ok _ _ _ Hc) as [_ Hcl].
  apply clearance_Ok in Hcl as (Hf & _).
  rewrite float_mul_int_1000000 in Hf. injection Hf as Hf.
  apply attenuation_Ok in Ha as (d & l & Hd & Hl & ->).
  exists text, c, h, d, l, s. rewrite Hrun. cbn [console files].
  repeat split; try assumption; try (symmetry; assumption).
  intros log10' H'.
  apply run_None in H' as (text' & c' & h' & s' & att' & Ht' & Hc' & Hr' & _ & ->).
  cbn [files]. rewrite Ht in Ht'. injection Ht' as <-.
  rewrite Hc in Hc'. injection Hc' as <- <-.
  rewrite Hr in Hr'. now injection Hr' as <-.
Qed.

Lemma path_loss_printed_witness :
  exception (run log10_series (input worked_example_lines)) = None /\
  exists text c h d l s,
    input worked_example_lines !! "deploy_data.txt"%string = Some text /\
    compute text = Ok (c, h) /\
    frequencyHz h = (transmissionFrequency c * 1000000)%float /\
    int_to_float (distanceBtw c) = Ok d /\
    math_log10 log10_series (frequencyHz h * d / 1000000000 / 1000)%float = Ok l /\
    console (run log10_series (input worked_example_lines)) = [(92.5 + 20 * l)%float] /\
    report_heights c h io0 = (Ok tt, s) /\
    files (run log10_series (input worked_example_lines))
    = <["output.txt"%string := (written s ++ nl)%string]> (input worked_example_lines) /\
    forall log10' : float -> float,
      exception (run log10' (input worked_example_lines)) = None ->
      files (run log10' (input worked_example_lines))
      = files (run log10_series (input worked_example_lines)).
Proof.
  assert (H : exception (run log10_series (input worked_example_lines)) = None)
    by (vm_compute; reflexivity).
  split; [exact H|].
  exact (path_loss_printed log10_series (input worked_example_lines) H).
Defined.

(** ** Determinism *)

(** C8: two runs in file systems that hold the same input file end in the
    same way, with the same computed values, the same console output and,
    as soon as the output file is opened, the same output file, whatever
    else the file systems hold. *)
Theorem run_deterministic (log10 : float -> float) (fs1 fs2 : filesystem) :
  fs1 !! "deploy_data.txt"%string = fs2 !! "deploy_data.txt"%string ->
  option_map compute (fs1 !! "deploy_data.txt"%string)
  = option_map compute (fs2 !! "deploy_data.txt"%string) /\
  exception (run log10 fs1) = exception (run log10 fs2) /\
  console (run log10 fs1) = console (run log10 fs2) /\
  forall text r,
    fs1 !! "deploy_data.txt"%string = Some text -> compute text = Ok r ->
    files (run log10 fs1) !! "output.txt"%string
    = files (run log10 fs2) !! "output.txt"%string.
Proof.
  intros H. unfold run. rewrite <- H.
  destruct (fs1 !! "deploy_data.txt"%string) as [text|]; cbn [option_map].
  - destruct (compute text) as [[c h]|e] eqn:Hc.
    + destruct (report log10 c h _) as [r s]. cbv beta iota.
      cbn [exception console files].
      repeat split. intros _ _ _ _. now rewrite !lookup_insert_eq.
    + repeat split. intros t r [= <-] Hr. congruence.
  - repeat split. discriminate.
Qed.

Lemma run_deterministic_witness :
  let fs1 := input worked_example_lines in
  let fs2 := <["output.txt"%string := "left by an earlier run"%string]>
               (<["notes.txt"%string := "unrelated"%string]> fs1) in
  fs1 !! "deploy_data.txt"%string = fs2 !! "deploy_data.txt"%string /\
  exception (run log10_series fs1) = exception (run log10_series fs2) /\
  files (run log10_series fs1) !! "output.txt"%string
  = files (run log10_series fs2) !! "output.txt"%string.
Proof.
  intros fs1 fs2.
  assert (H : fs1 !! "deploy_data.txt"%string = fs2 !! "deploy_data.txt"%string)
    by (vm_compute; reflexivity).
  split; [exact H|].
  destruct (run_deterministic log10_series fs1 fs2 H) as (_ & He & _ & Hf).
  split; [exact He|].
  apply (Hf (text_of worked_example_lines) (worked_example, worked_example_result));
    vm_compute; reflexivity.
Defined.

(** ** No obstruction *)

Lemma loop_no_obstruction (c : config) (w : float) :
  noOfBuilding c = 0 -> loop c w = Ok towers0.
Proof. intros H. unfold loop, for_range. now rewrite H. Qed.

Lemma append_assoc (s1 s2 s3 : string) :
  ((s1 ++ s2) ++ s3 = s1 ++ (s2 ++ s3))%string.
Proof.
  induction s1 as [|a s1 IH]; [reflexivity|].
  change (String a ((s1 ++ s2) ++ s3) = String a (s1 ++ (s2 ++ s3)))%string.
  now rewrite IH.
Qed.

Lemma report_heights_no_obstruction (c : config) (h : heights) (d : Z) (k : float) :
  noOfBuilding c = 0 -> towersA h = towers0 ->
  LOStowerB h = Int d -> nearLOStowerB h = Int d -> int_to_float d = Ok k ->
  exists s, report_heights c h io0 = (Ok tt, s) /\
            (written s ++ nl)%string = no_obstruction_text (format_4f_float k).
Proof.
  intros HN Ht Hl Hn Hk. unfold report_heights, write_gaps.
  rewrite HN, Ht, Hl, Hn. cbn [LOStowerA nearLOStowerA LOStowerAs nearLOStowerAs towers0].
  change (py_range 0 0 1) with (@nil Z).
  change (format_4f (Int 0)) with (@Ok string "0.0000").
  unfold format_4f. rewrite Hk.
  cbn [bind block_for_each seq_block eval write written printed io0].
  eexists. split; [reflexivity|].
  cbn [written]. unfold no_obstruction_text.
  rewrite !append_assoc. reflexivity.
Qed.

(** C9, as stated, fails: with no obstruction and well-formed header lines
    the computation raises ZeroDivisionError when the frequency is 0, and
    it raises ValueError in the path loss, after the reports are written,
    when the distance is 0. *)
Lemma no_obstruction_failures :
  (exists c,
     read_config (readlines (text_of zero_frequency_lines)) = Ok c /\
     noOfBuilding c = 0 /\
     compute (text_of zero_frequency_lines) = Raise ZeroDivisionError) /\
  (forall log10 : float -> float,
     run log10 (input zero_frequency_lines)
     = {| exception := Some ZeroDivisionError;
          files := input zero_frequency_lines; console := [] |}) /\
  (forall log10 : float -> float,
     exception (run log10 (input zero_distance_lines)) = Some ValueError).
Proof.
  split; [|split].
  - eexists. split; [vm_compute; reflexivity|]. split; vm_compute; reflexivity.
  - intros log10. vm_compute. reflexivity.
  - intros log10. vm_compute. reflexivity.
Qed.

(** C9, amended: if the input is a plain text whose header lines are
    well-formed, the obstruction count is 0, the frequency is not zero,
    [buildingA - buildingB] converts to a float and the path loss is
    defined, then the computation succeeds: the heights of tower A are the
    int 0, those of tower B are the int [buildingA - buildingB], and both
    GAP lines of the output file are empty. *)
Theorem no_obstruction (log10 : float -> float) (fs : filesystem) (text : string)
  (c : config) (k att : float) :
  fs !! "deploy_data.txt"%string = Some text ->
  plain text = true ->
  read_config (readlines text) = Ok c ->
  noOfBuilding c = 0 ->
  (transmissionFrequency c * 1000000 =? 0)%float = false ->
  int_to_float (buildingA c - buildingB c) = Ok k ->
  attenuation log10 (transmissionFrequency c * 1000000)%float (distanceBtw c) = Ok att ->
  compute text
  = Ok (c, {| frequencyHz := (transmissionFrequency c * 1000000)%float;
              waveLength := (300000000 / (transmissionFrequency c * 1000000))%float;
              towersA := towers0;
              LOStowerB := Int (buildingA c - buildingB c);
              nearLOStowerB := Int (buildingA c - buildingB c) |}) /\
  run log10 fs
  = {| exception := None;
       files := <["output.txt"%string := no_obstruction_text (format_4f_float k)]> fs;
       console := [att] |}.
Proof.
  intros Ht _ Hc HN Hf Hk Ha.
  set (h := {| frequencyHz := (transmissionFrequency c * 1000000)%float;
               waveLength := (300000000 / (transmissionFrequency c * 1000000))%float;
               towersA := towers0;
               LOStowerB := Int (buildingA c - buildingB c);
               nearLOStowerB := Int (buildingA c - buildingB c) |}).
  assert (Hcomp : compute text = Ok (c, h)).
  { unfold compute. rewrite Hc. cbn [bind]. unfold clearance.
    rewrite float_mul_int_1000000. cbn [bind]. unfold int_truediv_float.
    change (int_to_float 300000000) with (Ok 300000000%float).
    cbn [bind]. rewrite Hf. cbn [bind]. rewrite (loop_no_obstruction c _ HN).
    cbn [bind int_add LOStowerA nearLOStowerA towers0].
    now rewrite Z.add_0_r. }
  split; [exact Hcomp|].
  rewrite (run_eq log10 fs text _ _ Ht Hcomp), report_eq.
  destruct (report_heights_no_obstruction c h _ k HN eq_refl eq_refl eq_refl Hk)
    as (s & Hs & Htext).
  pose proof (silent_report_heights c h io0) as Hp.
  rewrite Hs in Hp |- *. cbn [snd] in Hp. cbn [frequencyHz h]. rewrite Ha.
  cbn [raised written printed]. now rewrite Htext, Hp.
Qed.

Lemma no_obstruction_witness :
  plain (text_of no_obstruction_lines) = true /\
  exists att,
    attenuation log10_series (2400.5 * 1000000)%float 2000 = Ok att /\
    run log10_series (input no_obstruction_lines)
    = {| exception := None;
         files := <["output.txt"%string := no_obstruction_text "5.0000"]>
                    (input no_obstruction_lines);
         console := [att] |}.
Proof.
  split; [vm_compute; reflexivity|].
  destruct (attenuation log10_series (2400.5 * 1000000)%float 2000) as [att|e] eqn:Ha;
    [|vm_compute in Ha; discriminate].
  exists att. split; [reflexivity|].
  refine (proj2 (no_obstruction log10_series (input no_obstruction_lines)
                   (text_of no_obstruction_lines)
                   {| buildingA := 20; buildingB := 15; distanceBtw := 2000;
                      transmissionFrequency := 2400.5; noOfBuilding := 0;
                      variables := [] |} 5%float att _ _ _ _ _ _ Ha));
    vm_compute; reflexivity.
Defined.

(** ** Lines that are not integers *)

Lemma py_int_cases (s : string) :
  (exists n, py_int s = Ok n) \/ py_int s = Raise ValueError.
Proof.
  unfold py_int. destruct (signed (strip s)) as [neg t].
  destruct (digits 0 false t); eauto.
Qed.

Lemma py_float_cases (s : string) :
  (exists x, py_float s = Ok x) \/ py_float s = Raise ValueError.
Proof.
  unfold py_float. destruct (drop_underscores _ _); [|now right].
  destruct (signed s0) as [neg u].
  destruct (_ || _); [eauto|]. destruct (String.eqb _ _); [eauto|].
  destruct (decimal_numeral neg u); eauto.
Qed.

Section Lines.

Variable lines : list string.

Lemma getitem_line (j : nat) :
  (j < length lines)%nat -> exists l, nth_error lines j = Some l /\
                                      getitem lines (Z.of_nat j) = Ok l.
Proof.
  intros Hj. destruct (nth_error lines j) as [l|] eqn:H.
  - exists l. split; [reflexivity | now apply getitem_nth].
  - apply nth_error_None in H. lia.
Qed.

Lemma int_line_cases (j : nat) :
  (j < length lines)%nat ->
  (exists n, int_line lines (Z.of_nat j) = Ok n) \/
  int_line lines (Z.of_nat j) = Raise ValueError.
Proof.
  intros Hj. destruct (getitem_line j Hj) as (l & _ & Hl).
  unfold int_line. rewrite Hl. cbn [bind]. apply py_int_cases.
Qed.

Lemma float_line_cases (j : nat) :
  (j < length lines)%nat ->
  (exists x, float_line lines (Z.of_nat j) = Ok x) \/
  float_line lines (Z.of_nat j) = Raise ValueError.
Proof.
  intros Hj. destruct (getitem_line j Hj) as (l & _ & Hl).
  unfold float_line. rewrite Hl. cbn [bind]. apply py_float_cases.
Qed.

Lemma py_range_pairs (n : Z) :
  py_range 5 (5 + n * 2) 2
  = List.map (fun j => Z.of_nat 5 + 2 * Z.of_nat j) (seq 0 (Z.to_nat n)).
Proof.
  unfold py_range. replace (5 + n * 2 - 5 + 2 - 1) with (1 + n * 2) by lia.
  rewrite Z.div_add by lia. reflexivity.
Qed.

(** The obstruction [i] of the comprehension is read from the lines
    [start + 2 * i] and [start + 2 * i + 1]. *)
Lemma comprehension_Ok (n start : nat) (vs : list obstruction) :
  comprehension lines
    (List.map (fun j => Z.of_nat start + 2 * Z.of_nat j) (seq 0 n)) = Ok vs ->
  length vs = n /\
  forall (i : nat) (v : obstruction),
    nth_error vs i = Some v ->
    int_line lines (Z.of_nat start + 2 * Z.of_nat i) = Ok (D1 v) /\
    int_line lines (Z.of_nat start + 1 + 2 * Z.of_nat i) = Ok (Height v).
Proof.
  revert start vs. induction n as [|n IH]; intros start vs H.
  { cbn [seq List.map comprehension] in H. injection H as <-.
    split; [reflexivity|]. intros [|i] v; discriminate. }
  cbn [seq List.map comprehension] in H.
  replace (Z.of_nat start + 2 * Z.of_nat 0) with (Z.of_nat start) in H by lia.
  apply bind_Ok in H as (d & Hd & H). apply bind_Ok in H as (h & Hh & H).
  apply bind_Ok in H as (rest & Hrest & H). injection H as <-.
  rewrite <- seq_shift, List.map_map in Hrest.
  rewrite (List.map_ext _ (fun j => Z.of_nat (S (S start)) + 2 * Z.of_nat j))
    in Hrest by (intros j; lia).
  apply IH in Hrest as [Hlen Hrest].
  split; [cbn [length]; now rewrite Hlen|].
  intros [|i] v Hv; cbn [nth_error] in Hv.
  - injection Hv as <-. cbn [D1 Height].
    replace (Z.of_nat start + 2 * Z.of_nat 0) with (Z.of_nat start) by lia.
    replace (Z.of_nat start + 1 + 2 * Z.of_nat 0) with (Z.of_nat start + 1) by lia.
    auto.
  - apply Hrest in Hv as [H1 H2].
    replace (Z.of_nat start + 2 * Z.of_nat (S i))
      with (Z.of_nat (S (S start)) + 2 * Z.of_nat i) by lia.
    replace (Z.of_nat start + 1 + 2 * Z.of_nat (S i))
      with (Z.of_nat (S (S start)) + 1 + 2 * Z.of_nat i) by lia.
    auto.
Qed.

Lemma read_config_Ok (c : config) : read_config lines = Ok c -> read_from lines c.
Proof.
  unfold read_config. intros H.
  apply bind_Ok in H as (a & Ha & H). apply bind_Ok in H as (b & Hb & H).
  apply bind_Ok in H as (d & Hd & H). apply bind_Ok in H as (f & Hf & H).
  apply bind_Ok in H as (n & Hn & H). apply bind_Ok in H as (vs & Hvs & H).
  injection H as <-. rewrite py_range_pairs in Hvs.
  apply comprehension_Ok in Hvs as [Hlen Hvs].
  unfold read_from. cbn [buildingA buildingB distanceBtw transmissionFrequency
                           noOfBuilding variables].
  repeat split; try assumption.
  - replace (5 + 2 * Z.of_nat i) with (Z.of_nat 5 + 2 * Z.of_nat i) by lia.
    now apply Hvs.
  - replace (6 + 2 * Z.of_nat i) with (Z.of_nat 5 + 1 + 2 * Z.of_nat i) by lia.
    now apply Hvs.
Qed.

Variable k : nat.
Variable bad : string.
Hypothesis bad_line : nth_error lines k = Some bad.
Hypothesis not_int : py_int bad = Raise ValueError.

Lemma int_line_bad : int_line lines (Z.of_nat k) = Raise ValueError.
Proof.
  unfold int_line. rewrite (getitem_nth _ _ _ bad_line). exact not_int.
Qed.

Lemma bad_line_length : (k < length lines)%nat.
Proof. apply nth_error_Some. rewrite bad_line. discriminate. Qed.

(** The comprehension reads the lines [start], [start + 1], ... in order
    and stops at the first that is not an int. *)
Lemma comprehension_bad (n start : nat) :
  (start <= k < start + 2 * n)%nat ->
  comprehension lines
    (List.map (fun j => Z.of_nat start + 2 * Z.of_nat j) (seq 0 n))
  = Raise ValueError.
Proof.
  pose proof bad_line_length as Hlen.
  revert start. induction n as [|n IH]; intros start Hk; [lia|].
  cbn [seq List.map comprehension].
  replace (Z.of_nat start + 2 * Z.of_nat 0) with (Z.of_nat start) by lia.
  destruct (Nat.eq_dec k start) as [E|Hne].
  { rewrite <- E. now rewrite int_line_bad. }
  destruct (int_line_cases start ltac:(lia)) as [[d ->] | ->]; [|reflexivity].
  cbn [bind]. replace (Z.of_nat start + 1) with (Z.of_nat (S start)) by lia.
  destruct (Nat.eq_dec k (S start)) as [E|Hne'].
  { rewrite <- E. now rewrite int_line_bad. }
  destruct (int_line_cases (S start) ltac:(lia)) as [[h ->] | ->]; [|reflexivity].
  cbn [bind]. rewrite <- seq_shift, List.map_map.
  rewrite (List.map_ext _ (fun j => Z.of_nat (S (S start)) + 2 * Z.of_nat j))
    by (intros j; lia).
  rewrite IH by lia. reflexivity.
Qed.

Lemma read_config_bad :
  int_position lines k -> read_config lines = Raise ValueError.
Proof.
  pose proof bad_line_length as Hlen. pose proof int_line_bad as Hbad.
  intros Hpos. unfold read_config.
  assert (Hint : forall (j : nat) (z : Z), z = Z.of_nat j -> (j <= k)%nat ->
            int_line lines z = Raise ValueError \/
            (j <> k /\ exists n, int_line lines z = Ok n)).
  { intros j z -> Hj. destruct (Nat.eq_dec j k) as [->|Hne]; [now left|].
    destruct (int_line_cases j ltac:(lia)) as [[n Hn] | Hn]; [right | left]; eauto. }
  destruct (Hint 0%nat 0 eq_refl ltac:(lia)) as [-> | (N0 & a & ->)]; [reflexivity|].
  cbn [bind].
  destruct (Hint 1%nat 1 eq_refl ltac:(lia)) as [-> | (N1 & b & ->)]; [reflexivity|].
  cbn [bind].
  destruct (Hint 2%nat 2 eq_refl ltac:(lia)) as [-> | (N2 & d & ->)]; [reflexivity|].
  cbn [bind].
  assert (H3 : (3 < length lines)%nat).
  { destruct Hpos as [?|[?|[?|[?|(n & _ & ?)]]]]; lia. }
  destruct (float_line_cases 3%nat H3) as [[f Hf] | Hf];
    change (Z.of_nat 3) with 3 in Hf; rewrite Hf; [|reflexivity].
  cbn [bind].
  assert (H4 : (4 <= k)%nat).
  { destruct Hpos as [?|[?|[?|[?|(n & _ & ?)]]]]; lia. }
  destruct (Hint 4%nat 4 eq_refl H4) as [-> | (N4 & n' & Hn')]; [reflexivity|].
  destruct Hpos as [?|[?|[?|[?|(n & Hn & Hk)]]]]; try lia.
  rewrite Hn. cbn [bind]. rewrite py_range_pairs, comprehension_bad; [reflexivity|lia].
Qed.

End Lines.

(** C10: in a plain text input, the building heights, the distance, the
    obstruction count and the distance and height of every obstruction are
    read as ints, and only the frequency as a float.  When one of the int
    lines holds a numeral that is not an int, such as 300.5, the run stops
    on a ValueError before the output file is opened: the file system is
    left as it was and nothing is printed. *)
Theorem non_integer_line (log10 : float -> float) (fs : filesystem) (text : string) :
  fs !! "deploy_data.txt"%string = Some text ->
  plain text = true ->
  (forall c : config,
     read_config (readlines text) = Ok c -> read_from (readlines text) c) /\
  (forall (k : nat) (bad : string),
     nth_error (readlines text) k = Some bad ->
     int_position (readlines text) k ->
     py_int bad = Raise ValueError ->
     run log10 fs = {| exception := Some ValueError; files := fs; console := [] |}).
Proof.
  intros Ht _. split; [intros c; apply read_config_Ok|].
  intros k bad Hk Hpos Hbad. unfold run, compute. rewrite Ht.
  now rewrite (read_config_bad _ k bad Hk Hbad Hpos).
Qed.

Lemma non_integer_line_witness :
  input decimal_distance_lines !! "deploy_data.txt"%string
  = Some (text_of decimal_distance_lines) /\
  plain (text_of decimal_distance_lines) = true /\
  nth_error (readlines (text_of decimal_distance_lines)) 5
  = Some ("300.5" ++ nl)%string /\
  py_int ("300.5" ++ nl)%string = Raise ValueError /\
  run log10_series (input decimal_distance_lines)
  = {| exception := Some ValueError;
       files := input decimal_distance_lines; console := [] |}.
Proof.
  assert (H : input decimal_distance_lines !! "deploy_data.txt"%string
              = Some (text_of decimal_distance_lines)) by (vm_compute; reflexivity).
  split; [exact H|]. split; [vm_compute; reflexivity|].
  split; [vm_compute; reflexivity|]. split; [vm_compute; reflexivity|].
  apply (proj2 (non_integer_line log10_series (input decimal_distance_lines)
                  (text_of decimal_distance_lines) H ltac:(vm_compute; reflexivity))
           5%nat ("300.5" ++ nl)%string).
  - vm_compute. reflexivity.
  - right. right. right. right. exists 4. split; [vm_compute; reflexivity | lia].
  - vm_compute. reflexivity.
Defined.

(** Only the frequency is read as a float: a decimal numeral on its line is
    accepted. *)
Lemma frequency_line_float :
  float_line (readlines (text_of no_obstruction_lines)) 3 = Ok 2400.5%float /\
  int_line (readlines (text_of no_obstruction_lines)) 3 = Raise ValueError /\
  exception (run log10_series (input no_obstruction_lines)) = None.
Proof. repeat split; vm_compute; reflexivity. Qed.

(** * The structure of a run *)
Lemma bind_Raise {A B : Type} (r : result A) (k : A -> result B) (e : exn) :
  bind r k = Raise e -> r = Raise e \/ exists a, r = Ok a /\ k a = Raise e.
Proof. destruct r as [a|e']; cbn [bind]; [right; eauto | left; congruence]. Qed.

Lemma py_range_0 (n : Z) : py_range 0 n 1 = List.map Z.of_nat (seq 0 (Z.to_nat n)).
Proof.
  unfold py_range. replace (n - 0 + 1 - 1) with n by lia. rewrite Z.div_1_r.
  apply List.map_ext. intros k. lia.
Qed.

Lemma getitem_Ok_nth {A : Type} (l : list A) (n : nat) (a : A) :
  getitem l (Z.of_nat n) = Ok a -> nth_error l n = Some a.
Proof.
  unfold getitem. destruct (Z.ltb_spec (Z.of_nat n) 0); [lia|].
  destruct (_ && _); [|discriminate]. rewrite Nat2Z.id.
  destruct (nth_error l n); congruence.
Qed.

Lemma getitem_Raise {A : Type} (l : list A) (i : Z) (e : exn) :
  getitem l i = Raise e -> e = IndexError.
Proof.
  unfold getitem. destruct (_ && _); [|congruence].
  destruct (nth_error l _); congruence.
Qed.

Lemma getitem_short {A : Type} (l : list A) (n : nat) :
  (length l <= n)%nat -> getitem l (Z.of_nat n) = Raise IndexError.
Proof.
  intros H. unfold getitem. destruct (Z.ltb_spec (Z.of_nat n) 0); [lia|].
  destruct (Z.ltb_spec (Z.of_nat n) (Z.of_nat (length l))); [lia|].
  now rewrite andb_false_r.
Qed.

(** The iterations [s], ..., [s + n - 1] of the loop append one candidate
    each to both lists, that of the obstruction of the same index. *)
Lemma loop_from (c : config) (w : float) (n s : nat) (t0 t : towers) :
  for_each (List.map Z.of_nat (seq s n))
    (fun i t => let* v := getitem (variables c) i in step c w t v) t0 = Ok t ->
  exists los nlos,
    LOStowerAs t = LOStowerAs t0 ++ los /\
    nearLOStowerAs t = nearLOStowerAs t0 ++ nlos /\
    length los = n /\ length nlos = n /\
    forall j, (j < n)%nat ->
      exists v r k,
        nth_error (variables c) (s + j) = Some v /\
        radius (distanceBtw c) w v = Ok r /\
        int_to_float (Height v - buildingA c) = Ok k /\
        nth_error los j = Some (k + 0.6 * r)%float /\
        nth_error nlos j = Some (k + 0.4 * r)%float.
Proof.
  revert s t0. induction n as [|n IH]; intros s t0 H.
  - cbn [seq List.map for_each] in H. injection H as <-.
    exists [], []. rewrite !app_nil_r. repeat split; try reflexivity. intros j Hj; lia.
  - cbn [seq List.map for_each] in H. apply bind_Ok in H as (t1 & H1 & H).
    apply bind_Ok in H1 as (v & Hv & H1). apply getitem_Ok_nth in Hv.
    apply step_Ok in H1 as (r & k & Hr & Hk & ->).
    apply IH in H as (los & nlos & Hl & Hn & Ll & Ln & Hj).
    cbn [LOStowerAs nearLOStowerAs] in Hl, Hn.
    exists ((k + 0.6 * r)%float :: los), ((k + 0.4 * r)%float :: nlos).
    rewrite Hl, Hn, <- !app_assoc. cbn [length]. repeat split; try congruence.
    intros [|j] Hlt.
    + exists v, r, k. rewrite Nat.add_0_r. auto.
    + destruct (Hj j ltac:(lia)) as (v' & r' & k' & H').
      exists v', r', k'. now rewrite <- Nat.add_succ_comm.
Qed.

(** The loop appends the two candidates of every obstruction, in order. *)
Lemma loop_candidates (c : config) (w : float) (t : towers) :
  loop c w = Ok t ->
  length (LOStowerAs t) = Z.to_nat (noOfBuilding c) /\
  length (nearLOStowerAs t) = Z.to_nat (noOfBuilding c) /\
  forall i, (i < Z.to_nat (noOfBuilding c))%nat ->
    exists v r k,
      nth_error (variables c) i = Some v /\
      radius (distanceBtw c) w v = Ok r /\
      int_to_float (Height v - buildingA c) = Ok k /\
      nth_error (LOStowerAs t) i = Some (k + 0.6 * r)%float /\
      nth_error (nearLOStowerAs t) i = Some (k + 0.4 * r)%float.
Proof.
  unfold loop, for_range. rewrite py_range_0. intros H.
  apply loop_from in H as (los & nlos & Hl & Hn & Ll & Ln & Hj).
  cbn [towers0 LOStowerAs nearLOStowerAs app] in Hl, Hn. subst los nlos.
  auto.
Qed.

(** * The output file *)

Lemma skipn_cons_nth {A : Type} (l : list A) (s : nat) (x : A) (rest : list A) :
  skipn s l = x :: rest -> nth_error l s = Some x /\ skipn (S s) l = rest.
Proof.
  revert l. induction s as [|s IH]; intros [|y l] H; simpl in H; try discriminate.
  - injection H as -> ->. split; reflexivity.
  - apply IH in H as [H1 H2]. split; [exact H1 | exact H2].
Qed.

Lemma gaps_from (top : number) (candidates : list float) (n s : nat) (rest : list float)
  (st : io) :
  seeded top -> skipn s candidates = rest -> length rest = n ->
  block_for_each (List.map Z.of_nat (seq s n))
    (fun i => do* g := eval (let* d := gap candidates top i in format_4f (Float d)) in
              write (g ++ " ")) st
  = (Ok tt, {| written := (written st ++ gap_text (seed top) rest)%string;
               printed := printed st |}).
Proof.
  intros Hs. revert s rest st. induction n as [|n IH]; intros s rest st Hr Hl.
  - destruct rest; [|discriminate]. cbn [seq List.map block_for_each gap_text eval].
    destruct st as [w p]. cbn [written printed].
    f_equal. f_equal. clear. induction w as [|a w IHw]; [reflexivity|].
    change (String a w = String a (w ++ ""))%string. now rewrite <- IHw.
  - destruct rest as [|x rest]; [discriminate|]. injection Hl as Hl.
    apply skipn_cons_nth in Hr as [Hx Hr'].
    cbn [seq List.map block_for_each]. unfold seq_block at 1. unfold seq_block at 1.
    unfold eval at 1, gap. rewrite (getitem_nth _ _ _ Hx). cbn [bind].
    rewrite (float_sub_seed x top Hs). cbn [bind format_4f].
    unfold write at 1. rewrite (IH (S s) rest _ Hr' Hl). cbn [written printed gap_text].
    now rewrite !append_assoc.
Qed.

Lemma write_gaps_text (top : number) (candidates : list float) (n : Z) (st : io) :
  seeded top -> length candidates = Z.to_nat n ->
  write_gaps n candidates top st
  = (Ok tt, {| written := (written st ++ gap_text (seed top) candidates)%string;
               printed := printed st |}).
Proof.
  intros Hs Hl. unfold write_gaps. rewrite py_range_0.
  now apply gaps_from.
Qed.

Lemma report_heights_Ok (c : config) (h : heights) (s : io) :
  clearance c = Ok h -> report_heights c h io0 = (Ok tt, s) ->
  exists a b a' b',
    format_4f (LOStowerA (towersA h)) = Ok a /\
    format_4f (LOStowerB h) = Ok b /\
    format_4f (nearLOStowerA (towersA h)) = Ok a' /\
    format_4f (nearLOStowerB h) = Ok b' /\
    (written s ++ nl)%string
    = report_text a b
        (gap_text (seed (LOStowerA (towersA h))) (LOStowerAs (towersA h)))
        a' b'
        (gap_text (seed (nearLOStowerA (towersA h))) (nearLOStowerAs (towersA h))).
Proof.
  intros Hc. pose proof (clearance_towers_ok c h Hc) as [Hl Hn _].
  apply max_of_seeded in Hl, Hn.
  apply clearance_Ok in Hc as (_ & _ & Hloop & _).
  apply loop_candidates in Hloop as (Ll & Ln & _).
  unfold report_heights, seq_block, write at 1 2 3 4 5 6 7 8 9, eval.
  cbn [written printed io0].
  destruct (format_4f (LOStowerA (towersA h))) as [a|e]; [|discriminate].
  destruct (format_4f (LOStowerB h)) as [b|e]; [|discriminate].
  rewrite (write_gaps_text _ _ _ _ Hl Ll). cbn [written printed].
  destruct (format_4f (nearLOStowerA (towersA h))) as [a'|e]; [|discriminate].
  destruct (format_4f (nearLOStowerB h)) as [b'|e]; [|discriminate].
  rewrite (write_gaps_text _ _ _ _ Hn Ln). intros [= <-].
  exists a, b, a', b'. repeat split. cbn [written]. unfold report_text.
  rewrite !append_assoc. reflexivity.
Qed.

(** * Where the exceptions come from *)

Lemma for_each_Raise {S : Type} (indices : list Z) (body : Z -> S -> result S)
  (s : S) (e : exn) :
  for_each indices body s = Raise e ->
  exists i s', In i indices /\ body i s' = Raise e.
Proof.
  revert s. induction indices as [|i rest IH]; intros s H; [discriminate|].
  cbn [for_each] in H. apply bind_Raise in H as [H | (s' & _ & H)].
  - exists i, s. split; [now left | exact H].
  - apply IH in H as (j & s'' & Hj & H). exists j, s''. split; [now right | exact H].
Qed.

Lemma int_line_Raise (lines : list string) (i : Z) (e : exn) :
  int_line lines i = Raise e ->
  (e = IndexError /\ getitem lines i = Raise IndexError) \/ e = ValueError.
Proof.
  unfold int_line. intros H. apply bind_Raise in H as [H | (l & _ & H)].
  - left. pose proof (getitem_Raise _ _ _ H) as ->. auto.
  - right. destruct (py_int_cases l) as [[n Hn] | Hn]; congruence.
Qed.

Lemma float_line_Raise (lines : list string) (i : Z) (e : exn) :
  float_line lines i = Raise e ->
  (e = IndexError /\ getitem lines i = Raise IndexError) \/ e = ValueError.
Proof.
  unfold float_line. intros H. apply bind_Raise in H as [H | (l & _ & H)].
  - left. pose proof (getitem_Raise _ _ _ H) as ->. auto.
  - right. destruct (py_float_cases l) as [[n Hn] | Hn]; congruence.
Qed.

Lemma comprehension_Raise (lines : list string) (indices : list Z) (e : exn) :
  comprehension lines indices = Raise e -> e = IndexError \/ e = ValueError.
Proof.
  induction indices as [|i rest IH]; [discriminate|]. cbn [comprehension]. intros H.
  apply bind_Raise in H as [H | (d & _ & H)];
    [apply int_line_Raise in H as [[-> _] | ->]; auto|].
  apply bind_Raise in H as [H | (h & _ & H)];
    [apply int_line_Raise in H as [[-> _] | ->]; auto|].
  apply bind_Raise in H as [H | (vs & _ & H)]; [auto | discriminate].
Qed.

(** Reading the input raises IndexError on a missing line and ValueError on
    a malformed one, and nothing else. *)
Lemma read_config_Raise (lines : list string) (e : exn) :
  read_config lines = Raise e -> e = IndexError \/ e = ValueError.
Proof.
  unfold read_config. intros H.
  apply bind_Raise in H as [H | (a & _ & H)];
    [apply int_line_Raise in H as [[-> _] | ->]; auto|].
  apply bind_Raise in H as [H | (b & _ & H)];
    [apply int_line_Raise in H as [[-> _] | ->]; auto|].
  apply bind_Raise in H as [H | (d & _ & H)];
    [apply int_line_Raise in H as [[-> _] | ->]; auto|].
  apply bind_Raise in H as [H | (f & _ & H)];
    [apply float_line_Raise in H as [[-> _] | ->]; auto|].
  apply bind_Raise in H as [H | (n & _ & H)];
    [apply int_line_Raise in H as [[-> _] | ->]; auto|].
  apply bind_Raise in H as [H | (vs & _ & H)]; [|discriminate].
  eapply comprehension_Raise, H.
Qed.

Lemma float_mul_int_Raise (x : float) (n : Z) (e : exn) :
  float_mul_int x n = Raise e -> e = OverflowError.
Proof.
  unfold float_mul_int. intros H. apply bind_Raise in H as [H | (y & _ & H)];
    [eapply int_to_float_Raise, H | discriminate].
Qed.

Lemma int_add_float_Raise (n : Z) (x : float) (e : exn) :
  int_add_float n x = Raise e -> e = OverflowError.
Proof.
  unfold int_add_float. intros H. apply bind_Raise in H as [H | (y & _ & H)];
    [eapply int_to_float_Raise, H | discriminate].
Qed.

Lemma math_sqrt_Raise (x : float) (e : exn) : math_sqrt x = Raise e -> e = ValueError.
Proof. unfold math_sqrt. destruct (_ && _); congruence. Qed.

(** The radius raises OverflowError when a distance does not convert,
    ZeroDivisionError on a path of length zero, and ValueError in the
    square root. *)
Lemma radius_Raise (d : Z) (w : float) (v : obstruction) (e : exn) :
  radius d w v = Raise e ->
  e = OverflowError \/ (e = ZeroDivisionError /\ d = 0) \/ e = ValueError.
Proof.
  intros H. destruct e; auto.
  - unfold radius in H. apply bind_Raise in H as [H | (p & _ & H)];
      [apply float_mul_int_Raise in H; auto|].
    apply bind_Raise in H as [H | (p' & _ & H)];
      [apply float_mul_int_Raise in H; auto|].
    apply bind_Raise in H as [H | (q & _ & H)]; [|apply math_sqrt_Raise in H; auto].
    unfold float_truediv_int in H.
    apply bind_Raise in H as [H | (y & _ & H)];
      [apply int_to_float_Raise in H; auto|].
    destruct (y =? 0)%float; discriminate.
  - unfold radius in H. apply bind_Raise in H as [H | (p & _ & H)];
      [apply float_mul_int_Raise in H; auto|].
    apply bind_Raise in H as [H | (p' & _ & H)];
      [apply float_mul_int_Raise in H; auto|].
    apply bind_Raise in H as [H | (q & _ & H)]; [|apply math_sqrt_Raise in H; auto].
    unfold float_truediv_int in H.
    apply bind_Raise in H as [H | (y & _ & H)];
      [apply int_to_float_Raise in H; auto|].
    destruct (y =? 0)%float; discriminate.
  - right. left. split; [reflexivity|].
    destruct (Z.eq_dec d 0) as [E|N]; [exact E|].
    now destruct (radius_nonzero_path d w v N).
Qed.

Lemma step_Raise (c : config) (w : float) (t : towers) (v : obstruction) (e : exn) :
  step c w t v = Raise e ->
  e = OverflowError \/ (e = ZeroDivisionError /\ distanceBtw c = 0) \/ e = ValueError.
Proof.
  unfold step. intros H.
  apply bind_Raise in H as [H | (r & _ & H)]; [eapply radius_Raise, H|].
  apply bind_Raise in H as [H | (los & _ & H)];
    [apply int_add_float_Raise in H; auto|].
  apply bind_Raise in H as [H | (nlos & _ & H)];
    [apply int_add_float_Raise in H; auto | discriminate].
Qed.

(** With as many obstructions as the count says, the loop never indexes out
    of range. *)
Lemma loop_Raise (c : config) (w : float) (e : exn) :
  length (variables c) = Z.to_nat (noOfBuilding c) ->
  loop c w = Raise e ->
  0 < noOfBuilding c /\
  (e = OverflowError \/ (e = ZeroDivisionError /\ distanceBtw c = 0) \/ e = ValueError).
Proof.
  intros Hl H. unfold loop, for_range in H. rewrite py_range_0 in H.
  apply for_each_Raise in H as (i & t & Hi & H).
  apply in_map_iff in Hi as (j & <- & Hj). apply in_seq in Hj.
  split; [lia|].
  apply bind_Raise in H as [H | (v & _ & H)]; [|eapply step_Raise, H].
  destruct (nth_error (variables c) j) as [v|] eqn:Hv.
  - rewrite (getitem_nth _ _ _ Hv) in H. discriminate.
  - apply nth_error_None in Hv. lia.
Qed.

Lemma int_add_Raise (n : Z) (a : number) (e : exn) :
  int_add n a = Raise e -> e = OverflowError.
Proof.
  destruct a as [m|x]; cbn [int_add]; [discriminate|]. intros H.
  apply bind_Raise in H as [H | (y & _ & H)];
    [eapply int_add_float_Raise, H | discriminate].
Qed.

Lemma clearance_Raise (c : config) (e : exn) :
  length (variables c) = Z.to_nat (noOfBuilding c) ->
  clearance c = Raise e ->
  e = OverflowError \/ e = ValueError \/
  (e = ZeroDivisionError /\
   ((transmissionFrequency c * 1000000 =? 0)%float = true \/
    (distanceBtw c = 0 /\ 0 < noOfBuilding c))).
Proof.
  intros Hl. unfold clearance. rewrite float_mul_int_1000000. cbn [bind].
  unfold int_truediv_float. change (int_to_float 300000000) with (Ok 300000000%float).
  cbn [bind]. destruct (transmissionFrequency c * 1000000 =? 0)%float eqn:Hf.
  - cbn [bind]. intros [= <-]. auto.
  - cbn [bind]. intros H.
    apply bind_Raise in H as [H | (t & _ & H)].
    + apply (loop_Raise c _ e Hl) in H as [HN [-> | [[-> Hd] | ->]]]; auto 6.
    + apply bind_Raise in H as [H | (b & _ & H)]; [apply int_add_Raise in H; auto|].
      apply bind_Raise in H as [H | (b' & _ & H)];
        [apply int_add_Raise in H; auto | discriminate].
Qed.

Lemma format_4f_Raise (a : number) (e : exn) : format_4f a = Raise e -> e = OverflowError.
Proof.
  destruct a as [n|x]; cbn [format_4f]; [|discriminate]. intros H.
  apply bind_Raise in H as [H | (y & _ & H)];
    [eapply int_to_float_Raise, H | discriminate].
Qed.

Lemma format_seeded (a : number) : seeded a -> exists t, format_4f a = Ok t.
Proof. intros [-> | [x ->]]; eexists; reflexivity. Qed.

Lemma format_towerB (d : Z) (top b : number) :
  seeded top -> int_add d top = Ok b ->
  match format_4f b with
  | Ok _ => True
  | Raise _ => int_to_float d = Raise OverflowError
  end.
Proof.
  intros [-> | [x ->]]; cbn [int_add].
  - intros [= <-]. rewrite Z.add_0_r. cbn [format_4f].
    destruct (int_to_float d) as [k|e] eqn:Hk; cbn [bind]; [exact I|].
    now rewrite (int_to_float_Raise _ _ Hk).
  - intros H. apply bind_Ok in H as (y & _ & [= <-]). exact I.
Qed.

(** Once the heights are computed the reports fail only on an int height
    of tower B that does not convert to a float. *)
Lemma report_heights_Raise (c : config) (h : heights) (s : io) (e : exn) :
  clearance c = Ok h -> report_heights c h io0 = (Raise e, s) ->
  e = OverflowError /\ int_to_float (buildingA c - buildingB c) = Raise OverflowError.
Proof.
  intros Hc. pose proof (clearance_towers_ok c h Hc) as [Hl Hn _].
  apply max_of_seeded in Hl, Hn.
  apply clearance_Ok in Hc as (_ & _ & Hloop & Hb & Hb').
  apply loop_candidates in Hloop as (Ll & Ln & _).
  pose proof (format_towerB _ _ _ Hl Hb) as Fb.
  pose proof (format_towerB _ _ _ Hn Hb') as Fb'.
  unfold report_heights, seq_block, write at 1 2 3 4 5 6 7 8 9, eval.
  cbn [written printed io0].
  destruct (format_seeded _ Hl) as [a ->].
  destruct (format_4f (LOStowerB h)) as [b|e'] eqn:E2;
    [|intros [= <- _]; split; [eapply format_4f_Raise, E2 | exact Fb]].
  rewrite (write_gaps_text _ _ _ _ Hl Ll). cbn [written printed].
  destruct (format_seeded _ Hn) as [a' ->].
  destruct (format_4f (nearLOStowerB h)) as [b'|e'] eqn:E4;
    [|intros [= <- _]; split; [eapply format_4f_Raise, E4 | exact Fb']].
  rewrite (write_gaps_text _ _ _ _ Hn Ln). discriminate.
Qed.

Lemma math_log10_Raise (log10 : float -> float) (x : float) (e : exn) :
  math_log10 log10 x = Raise e -> e = ValueError.
Proof.
  unfold math_log10. destruct (_ && _); [congruence|]. destruct (_ && _); congruence.
Qed.

Lemma attenuation_Raise (log10 : float -> float) (f : float) (d : Z) (e : exn) :
  attenuation log10 f d = Raise e -> e = OverflowError \/ e = ValueError.
Proof.
  unfold attenuation, float_truediv_int, int_mul_float. intros H.
  apply bind_Raise in H as [H | (x & _ & H)]; [apply float_mul_int_Raise in H; auto|].
  change (int_to_float 1000000000) with (Ok 1000000000%float) in H.
  change (int_to_float 1000) with (Ok 1000%float) in H.
  change (int_to_float 20) with (Ok 20%float) in H. cbn [bind] in H.
  change (1000000000 =? 0)%float with false in H.
  change (1000 =? 0)%float with false in H. cbn [bind] in H.
  apply bind_Raise in H as [H | (l & _ & H)];
    [apply math_log10_Raise in H; auto | discriminate].
Qed.

Lemma compute_Raise (text : string) (e : exn) :
  compute text = Raise e ->
  read_config (readlines text) = Raise e \/
  exists c, read_config (readlines text) = Ok c /\ clearance c = Raise e.
Proof.
  unfold compute. intros H. apply bind_Raise in H as [H | (c & Hc & H)]; [now left|].
  right. exists c. split; [exact Hc|].
  apply bind_Raise in H as [H | (h & _ & H)]; [exact H | discriminate].
Qed.

(** How a run can stop on an exception: on the missing input file, before
    the output file is opened, in the reports, or in the path loss. *)
Lemma run_Some (log10 : float -> float) (fs : filesystem) (e : exn) :
  exception (run log10 fs) = Some e ->
  (fs !! "deploy_data.txt"%string = None /\ e = FileNotFoundError /\
   run log10 fs = {| exception := Some e; files := fs; console := [] |}) \/
  (exists text,
     fs !! "deploy_data.txt"%string = Some text /\ compute text = Raise e /\
     run log10 fs = {| exception := Some e; files := fs; console := [] |}) \/
  (exists text c h s,
     fs !! "deploy_data.txt"%string = Some text /\ compute text = Ok (c, h) /\
     (report_heights c h io0 = (Raise e, s) \/
      (report_heights c h io0 = (Ok tt, s) /\
       attenuation log10 (frequencyHz h) (distanceBtw c) = Raise e)) /\
     run log10 fs = {| exception := Some e;
                       files := <["output.txt"%string := written s]> fs;
                       console := [] |}).
Proof.
  unfold run. destruct (fs !! "deploy_data.txt"%string) as [text|] eqn:Ht.
  - destruct (compute text) as [[c h]|e'] eqn:Hc.
    + fold io0. rewrite report_eq. pose proof (silent_report_heights c h io0) as Hs.
      destruct (report_heights c h io0) as [[[]|e'] s] eqn:Hr.
      * destruct (attenuation log10 (frequencyHz h) (distanceBtw c)) as [att|e'] eqn:Ha;
          [discriminate|].
        cbn [exception raised]. intros [= ->]. right. right.
        exists text, c, h, s. cbn [snd] in Hs. rewrite Hs.
        split; [reflexivity|]. split; [exact Hc|].
        split; [right; split; [exact Hr | exact Ha] | reflexivity].
      * cbn [exception raised]. intros [= ->]. right. right.
        exists text, c, h, s. cbn [snd] in Hs. rewrite Hs.
        split; [reflexivity|]. split; [exact Hc|].
        split; [left; exact Hr | reflexivity].
    + cbn [exception]. intros [= ->]. right. left. exists text. auto.
  - cbn [exception]. intros [= <-]. left. auto.
Qed.

(** * Missing lines *)

Lemma getitem_Raise_length {A : Type} (l : list A) (n : nat) (e : exn) :
  getitem l (Z.of_nat n) = Raise e -> (length l <= n)%nat.
Proof.
  intros H. destruct (Nat.le_gt_cases (length l) n) as [Hl|Hl]; [exact Hl|].
  destruct (nth_error l n) as [a|] eqn:Ha.
  - rewrite (getitem_nth _ _ _ Ha) in H. discriminate.
  - apply nth_error_None in Ha. lia.
Qed.

Lemma int_line_IndexError (lines : list string) (n : nat) :
  int_line lines (Z.of_nat n) = Raise IndexError -> (length lines <= n)%nat.
Proof.
  intros H. apply int_line_Raise in H as [[_ H] | H]; [|discriminate].
  eapply getitem_Raise_length, H.
Qed.

Lemma int_line_Ok_length (lines : list string) (j : nat) (n : Z) :
  int_line lines (Z.of_nat j) = Ok n -> (j < length lines)%nat.
Proof.
  unfold int_line. intros H. apply bind_Ok in H as (l & Hl & _).
  apply getitem_Ok_nth in Hl. apply nth_error_Some. congruence.
Qed.

Lemma float_line_IndexError (lines : list string) (n : nat) :
  float_line lines (Z.of_nat n) = Raise IndexError -> (length lines <= n)%nat.
Proof.
  intros H. apply float_line_Raise in H as [[_ H] | H]; [|discriminate].
  eapply getitem_Raise_length, H.
Qed.

Lemma comprehension_IndexError (lines : list string) (n start : nat) :
  comprehension lines
    (List.map (fun j => Z.of_nat start + 2 * Z.of_nat j) (seq 0 n)) = Raise IndexError ->
  (length lines < start + 2 * n)%nat.
Proof.
  revert start. induction n as [|n IH]; intros start H; [discriminate|].
  cbn [seq List.map comprehension] in H.
  replace (Z.of_nat start + 2 * Z.of_nat 0) with (Z.of_nat start) in H by lia.
  apply bind_Raise in H as [H | (d & _ & H)];
    [apply int_line_IndexError in H; lia|].
  replace (Z.of_nat start + 1) with (Z.of_nat (S start)) in H by lia.
  apply bind_Raise in H as [H | (h & _ & H)];
    [apply int_line_IndexError in H; lia|].
  apply bind_Raise in H as [H | (vs & _ & H)]; [|discriminate].
  rewrite <- seq_shift, List.map_map in H.
  rewrite (List.map_ext _ (fun j => Z.of_nat (S (S start)) + 2 * Z.of_nat j))
    in H by (intros j; lia).
  apply IH in H. lia.
Qed.

Lemma read_config_IndexError (lines : list string) :
  read_config lines = Raise IndexError -> too_short lines.
Proof.
  unfold read_config. intros H.
  apply bind_Raise in H as [H | (a & _ & H)];
    [apply (int_line_IndexError lines 0) in H; left; lia|].
  apply bind_Raise in H as [H | (b & _ & H)];
    [apply (int_line_IndexError lines 1) in H; left; lia|].
  apply bind_Raise in H as [H | (d & _ & H)];
    [apply (int_line_IndexError lines 2) in H; left; lia|].
  apply bind_Raise in H as [H | (f & _ & H)];
    [apply (float_line_IndexError lines 3) in H; left; lia|].
  apply bind_Raise in H as [H | (n & Hn & H)];
    [apply (int_line_IndexError lines 4) in H; left; lia|].
  apply bind_Raise in H as [H | (vs & _ & H)]; [|discriminate].
  rewrite py_range_pairs in H. apply comprehension_IndexError in H.
  pose proof (int_line_Ok_length lines 4 n Hn) as H4.
  right. exists n. split; [exact Hn | lia].
Qed.

Section Truncated.

Variable lines : list string.
Hypothesis wf : well_formed lines.

Lemma int_line_wf (j : nat) :
  j <> 3%nat ->
  (exists n, int_line lines (Z.of_nat j) = Ok n /\ (j < length lines)%nat) \/
  (int_line lines (Z.of_nat j) = Raise IndexError /\ (length lines <= j)%nat).
Proof.
  intros Hj. unfold int_line. destruct (nth_error lines j) as [l|] eqn:Hl.
  - left. rewrite (getitem_nth _ _ _ Hl). cbn [bind].
    destruct (proj1 wf j l Hl Hj) as [n Hn]. exists n. split; [exact Hn|].
    apply nth_error_Some. congruence.
  - right. apply nth_error_None in Hl. now rewrite getitem_short.
Qed.

Lemma float_line_wf :
  (exists x, float_line lines 3 = Ok x /\ (3 < length lines)%nat) \/
  (float_line lines 3 = Raise IndexError /\ (length lines <= 3)%nat).
Proof.
  unfold float_line. destruct (nth_error lines 3) as [l|] eqn:Hl.
  - left. pose proof (getitem_nth _ 3%nat _ Hl) as G.
    change (Z.of_nat 3) with 3 in G. rewrite G. cbn [bind].
    destruct (proj2 wf l Hl) as [x Hx]. exists x. split; [exact Hx|].
    apply nth_error_Some. congruence.
  - right. apply nth_error_None in Hl. pose proof (getitem_short _ 3%nat Hl) as G.
    change (Z.of_nat 3) with 3 in G. now rewrite G.
Qed.

Lemma comprehension_short (n start : nat) :
  (3 < start <= length lines)%nat -> (length lines < start + 2 * n)%nat ->
  comprehension lines
    (List.map (fun j => Z.of_nat start + 2 * Z.of_nat j) (seq 0 n)) = Raise IndexError.
Proof.
  revert start. induction n as [|n IH]; intros start H3 H; [lia|].
  cbn [seq List.map comprehension].
  replace (Z.of_nat start + 2 * Z.of_nat 0) with (Z.of_nat start) by lia.
  destruct (int_line_wf start ltac:(lia)) as [(d & -> & Hd) | [-> _]]; [|reflexivity].
  cbn [bind]. replace (Z.of_nat start + 1) with (Z.of_nat (S start)) by lia.
  destruct (int_line_wf (S start) ltac:(lia)) as [(h & -> & Hh) | [-> _]]; [|reflexivity].
  cbn [bind]. rewrite <- seq_shift, List.map_map.
  rewrite (List.map_ext _ (fun j => Z.of_nat (S (S start)) + 2 * Z.of_nat j))
    by (intros j; lia).
  rewrite IH by lia. reflexivity.
Qed.

Lemma read_config_short : too_short lines -> read_config lines = Raise IndexError.
Proof.
  intros Hs. unfold read_config.
  destruct (int_line_wf 0 ltac:(lia)) as [(a & Ha & La) | [Ha _]];
    change (Z.of_nat 0) with 0 in Ha; rewrite Ha; [|reflexivity]. cbn [bind].
  destruct (int_line_wf 1 ltac:(lia)) as [(b & Hb & Lb) | [Hb _]];
    change (Z.of_nat 1) with 1 in Hb; rewrite Hb; [|reflexivity]. cbn [bind].
  destruct (int_line_wf 2 ltac:(lia)) as [(d & Hd & Ld) | [Hd _]];
    change (Z.of_nat 2) with 2 in Hd; rewrite Hd; [|reflexivity]. cbn [bind].
  destruct float_line_wf as [(f & Hf & Lf) | [Hf _]]; rewrite Hf; [|reflexivity].
  cbn [bind].
  destruct (int_line_wf 4 ltac:(lia)) as [(n & Hn & Ln) | [Hn _]];
    change (Z.of_nat 4) with 4 in Hn; rewrite Hn; [|reflexivity]. cbn [bind].
  destruct Hs as [Hs | (n' & Hn' & Hs)]; [lia|].
  assert (n' = n) as -> by congruence.
  rewrite py_range_pairs, comprehension_short; [reflexivity | lia | lia].
Qed.

End Truncated.

(** * Signs *)

Lemma shr_1_m_nonneg (R : shr_record) : 0 <= shr_m R -> 0 <= shr_m (shr_1 R).
Proof.
  destruct R as [m r s]. cbn [shr_m]. intros Hm.
  rewrite (shr_1_nonneg m r s Hm). cbn [shr_m]. now apply Z.div_pos.
Qed.

Lemma shr_m_nonneg (R : shr_record) (e n : Z) :
  0 <= shr_m R -> 0 <= shr_m (fst (shr R e n)).
Proof.
  intros Hm. destruct n as [|p|p]; cbn [shr fst]; try exact Hm.
  rewrite iter_pos_nat. induction (Pos.to_nat p) as [|k IH]; [exact Hm|].
  cbn [Nat.iter]. now apply shr_1_m_nonneg.
Qed.

Lemma shr_record_of_loc_m (m : Z) (l : location) : shr_m (shr_record_of_loc m l) = m.
Proof. now destruct l as [|[]]. Qed.

Lemma round_nearest_even_nonneg (m : Z) (l : location) :
  0 <= m -> 0 <= round_nearest_even m l.
Proof.
  intros Hm. destruct l as [|[]]; cbn [round_nearest_even]; try lia.
  destruct (Z.even m); lia.
Qed.

(** Rounding keeps the sign: the result is a zero, a finite float or an
    infinity of the sign it was given. *)
Lemma binary_round_aux_signed (s : bool) (m e : Z) (l : location) :
  0 <= m -> signed_as s (binary_round_aux prec emax s m e l).
Proof.
  intros Hm. unfold binary_round_aux, shr_fexp.
  pose proof (shr_m_nonneg (shr_record_of_loc m l) e
                (fexp prec emax (Zdigits2 m + e) - e)) as H1.
  rewrite shr_record_of_loc_m in H1. specialize (H1 Hm).
  destruct (shr (shr_record_of_loc m l) e _) as [R1 e1]. cbn [fst] in H1.
  set (m1 := round_nearest_even (shr_m R1) (loc_of_shr_record R1)).
  assert (Hm1 : 0 <= m1) by now apply round_nearest_even_nonneg.
  pose proof (shr_m_nonneg (shr_record_of_loc m1 loc_Exact) e1
                (fexp prec emax (Zdigits2 m1 + e1) - e1)) as H2.
  rewrite shr_record_of_loc_m in H2. specialize (H2 Hm1).
  destruct (shr (shr_record_of_loc m1 loc_Exact) e1 _) as [R2 e2]. cbn [fst] in H2.
  destruct (shr_m R2) as [|p|p]; [reflexivity | | lia].
  now destruct (e2 <=? emax - prec).
Qed.

Lemma nonpos_leb (x : spec_float) : SFleb x (S754_zero false) = true <-> nonpos x.
Proof. destruct x as [[]|[]| |[] m e]; cbn; split; congruence || auto. Qed.

Lemma SFmul_pos_nonpos (m : positive) (e : Z) (y : spec_float) :
  nonpos y -> nonpos (SF64mul (S754_finite false m e) y).
Proof.
  destruct y as [sy|sy| |sy my ey]; cbn [nonpos]; try contradiction; intros Hy.
  - exact I.
  - subst sy. reflexivity.
  - subst sy. unfold SF64mul, SFmul. cbn [xorb].
    pose proof (binary_round_aux_signed true (Z.pos (m * my)) (e + ey) loc_Exact
                  ltac:(lia)) as H.
    now destruct (binary_round_aux _ _ _ _ _ _).
Qed.

Lemma SFdiv_nonpos_pos (x : spec_float) (m : positive) (e : Z) :
  nonpos x -> nonpos (SF64div x (S754_finite false m e)).
Proof.
  destruct x as [sx|sx| |sx mx ex]; cbn [nonpos]; try contradiction; intros Hx.
  - exact I.
  - subst sx. reflexivity.
  - subst sx. unfold SF64div, SFdiv. cbn [xorb].
    unfold SFdiv_core_binary.
    set (m' := match _ - _ with Z.pos _ => _ | 0 => _ | Z.neg _ => _ end).
    assert (Hm' : 0 <= m').
    { subst m'. destruct (_ - _) as [|p|p]; try lia.
      rewrite Z.shiftl_mul_pow2 by lia.
      assert (0 < 2 ^ Z.pos p) by (apply Z.pow_pos_nonneg; lia). lia. }
    pose proof (Z_div_mod m' (Z.pos m) ltac:(lia)) as Hq.
    destruct (Z.div_eucl m' (Z.pos m)) as [q r]. destruct Hq as [Hq Hr].
    assert (Hq0 : 0 <= q) by nia.
    pose proof (binary_round_aux_signed true q
                  (Z.min (fexp prec emax (Zdigits2 (Z.pos mx) + ex
                                          - (Zdigits2 (Z.pos m) + e))) (ex - e))
                  (new_location (Z.pos m) r) Hq0) as Hs.
    now destruct (binary_round_aux _ _ _ _ _ _).
Qed.

Section Signs.

Local Open Scope float_scope.

Lemma leb_0_nonpos (x : float) : (x <=? 0) = true <-> nonpos (Prim2SF x).
Proof. rewrite leb_SF. apply nonpos_leb. Qed.

Lemma int_to_float_le_0 (d : Z) (y : float) :
  (d <= 0)%Z -> int_to_float d = Ok y -> (y <=? 0) = true.
Proof.
  intros Hd Hy. apply int_to_float_Ok in Hy as [Hy _].
  rewrite leb_SF, Hy. change (Prim2SF 0) with (bn 0 0).
  apply (bn_le _ _ _ _ 0%Z); lia.
Qed.

Lemma mul_pos_nonpos (f y : float) :
  is_finite f = true -> (0 <? f) = true -> (y <=? 0) = true -> (f * y <=? 0) = true.
Proof.
  rewrite is_finite_spec, ltb_SF, !leb_0_nonpos, mul_spec.
  change (Prim2SF 0) with (S754_zero false).
  destruct (Prim2SF f) as [[]|[]| |[] m e]; try discriminate.
  intros _ _. apply SFmul_pos_nonpos.
Qed.

Lemma div_nonpos_pos (x c : float) (m : positive) (e : Z) :
  Prim2SF c = S754_finite false m e -> (x <=? 0) = true -> (x / c <=? 0) = true.
Proof.
  intros Hc. rewrite !leb_0_nonpos, div_spec, Hc. apply SFdiv_nonpos_pos.
Qed.

End Signs.

(** [math.log10] raises on a zero, on a negative argument and on the
    negative infinity, whatever the C library computes. *)
Lemma math_log10_nonpos (log10 : float -> float) (x : float) :
  (x <=? 0)%float = true -> math_log10 log10 x = Raise ValueError.
Proof.
  intros H. unfold math_log10, m_log10.
  assert (Hlt : (0 <? x)%float = false).
  { rewrite ltb_SF. apply leb_0_nonpos in H. change (Prim2SF 0) with (S754_zero false).
    now destruct (Prim2SF x) as [[]|[]| |[] m e]. }
  assert (Hn : is_nan x = false).
  { rewrite is_nan_spec. apply leb_0_nonpos in H.
    now destruct (Prim2SF x) as [[]|[]| |[] m e]. }
  rewrite Hlt, Hn. destruct (is_finite x) eqn:Hf.
  - destruct (x =? 0)%float; reflexivity.
  - reflexivity.
Qed.

(** * Related configurations *)

Lemma for_each_ext {S : Type} (indices : list Z) (f g : Z -> S -> result S) (s : S) :
  (forall i s, f i s = g i s) -> for_each indices f s = for_each indices g s.
Proof.
  intros H. revert s. induction indices as [|i rest IH]; intros s; [reflexivity|].
  cbn [for_each]. rewrite H. destruct (g i s) as [s'|e]; cbn [bind]; [apply IH | reflexivity].
Qed.

Lemma getitem_map {A B : Type} (f : A -> B) (l : list A) (i : Z) :
  getitem (List.map f l) i = let* a := getitem l i in Ok (f a).
Proof.
  unfold getitem. rewrite length_map.
  destruct (_ && _); [|reflexivity].
  rewrite nth_error_map. now destruct (nth_error l _).
Qed.

Lemma step_shift (k : Z) (c : config) (w : float) (t : towers) (v : obstruction) :
  step (shift k c) w t {| D1 := D1 v; Height := Height v + k |} = step c w t v.
Proof.
  unfold step. cbn [shift distanceBtw buildingA Height].
  replace (Height v + k - (buildingA c + k)) with (Height v - buildingA c) by lia.
  reflexivity.
Qed.

Lemma loop_shift (k : Z) (c : config) (w : float) : loop (shift k c) w = loop c w.
Proof.
  unfold loop, for_range. cbn [shift noOfBuilding variables].
  apply for_each_ext. intros i t. rewrite getitem_map.
  destruct (getitem (variables c) i) as [v|e]; cbn [bind]; [apply step_shift | reflexivity].
Qed.

(** * The order of the obstructions *)

Lemma candidates_In (c : config) (w : float) (t : towers) :
  loop c w = Ok t -> length (variables c) = Z.to_nat (noOfBuilding c) ->
  (forall x, In x (LOStowerAs t) <->
     exists v r k, In v (variables c) /\ radius (distanceBtw c) w v = Ok r /\
                   int_to_float (Height v - buildingA c) = Ok k /\
                   x = (k + 0.6 * r)%float) /\
  (forall x, In x (nearLOStowerAs t) <->
     exists v r k, In v (variables c) /\ radius (distanceBtw c) w v = Ok r /\
                   int_to_float (Height v - buildingA c) = Ok k /\
                   x = (k + 0.4 * r)%float).
Proof.
  intros H Hl. apply loop_candidates in H as (Ll & Ln & Hi).
  split; intros x; split.
  - intros Hx. apply In_nth_error in Hx as [i Hx].
    assert (Hlt : (i < Z.to_nat (noOfBuilding c))%nat)
      by (rewrite <- Ll; apply nth_error_Some; congruence).
    destruct (Hi i Hlt) as (v & r & k & Hv & Hr & Hk & Hlos & _).
    exists v, r, k. repeat split; try assumption; [eapply nth_error_In, Hv | congruence].
  - intros (v & r & k & Hv & Hr & Hk & ->). apply In_nth_error in Hv as [i Hv].
    assert (Hlt : (i < Z.to_nat (noOfBuilding c))%nat)
      by (rewrite <- Hl; apply nth_error_Some; congruence).
    destruct (Hi i Hlt) as (v' & r' & k' & Hv' & Hr' & Hk' & Hlos & _).
    assert (v' = v) as -> by congruence.
    assert (r' = r) as -> by congruence. assert (k' = k) as -> by congruence.
    eapply nth_error_In, Hlos.
  - intros Hx. apply In_nth_error in Hx as [i Hx].
    assert (Hlt : (i < Z.to_nat (noOfBuilding c))%nat)
      by (rewrite <- Ln; apply nth_error_Some; congruence).
    destruct (Hi i Hlt) as (v & r & k & Hv & Hr & Hk & _ & Hnlos).
    exists v, r, k. repeat split; try assumption; [eapply nth_error_In, Hv | congruence].
  - intros (v & r & k & Hv & Hr & Hk & ->). apply In_nth_error in Hv as [i Hv].
    assert (Hlt : (i < Z.to_nat (noOfBuilding c))%nat)
      by (rewrite <- Hl; apply nth_error_Some; congruence).
    destruct (Hi i Hlt) as (v' & r' & k' & Hv' & Hr' & Hk' & _ & Hnlos).
    assert (v' = v) as -> by congruence.
    assert (r' = r) as -> by congruence. assert (k' = k) as -> by congruence.
    eapply nth_error_In, Hnlos.
Qed.

(** Two positive floats neither of which is less than the other are the
    same float. *)
Lemma ltb_antisym (x y : float) :
  (0 <? x)%float = true -> (0 <? y)%float = true ->
  (x <? y)%float = false -> (y <? x)%float = false -> x = y.
Proof.
  rewrite !ltb_SF. change (Prim2SF 0) with (S754_zero false).
  intros Hx Hy Hxy Hyx. apply Prim2SF_inj.
  destruct (Prim2SF x) as [sx|[]| |[] mx ex]; try discriminate;
    destruct (Prim2SF y) as [sy|[]| |[] my ey]; try discriminate; try reflexivity.
  unfold SFltb, SFcompare in Hxy, Hyx.
  destruct (Z.compare_spec ex ey) as [E|L|G]; try discriminate.
  - subst ey. rewrite Z.compare_refl in Hyx.
    fold (Pos.compare mx my) in Hxy. fold (Pos.compare my mx) in Hyx.
    destruct (Pos.compare_spec mx my) as [E|L|G]; try discriminate; [now subst|].
    apply Pos.compare_lt_iff in G. now rewrite G in Hyx.
  - apply Z.compare_lt_iff in G. now rewrite G in Hyx.
Qed.

(** The maximum of the same candidates is the same, whatever their order. *)
Lemma max_of_unique (t1 t2 : number) (l1 l2 : list float) :
  max_of t1 l1 -> max_of t2 l2 -> (forall x, In x l1 <-> In x l2) -> t1 = t2.
Proof.
  intros [H1 G1] [H2 G2] Hin.
  destruct H1 as [-> | (x1 & -> & I1 & P1)], H2 as [-> | (x2 & -> & I2 & P2)].
  - reflexivity.
  - apply Hin in I2. specialize (G1 x2 I2).
    rewrite (float_gt_seed (Int 0) x2) in G1 by now left. cbn [seed] in G1. congruence.
  - apply Hin in I1. specialize (G2 x1 I1).
    rewrite (float_gt_seed (Int 0) x1) in G2 by now left. cbn [seed] in G2. congruence.
  - pose proof (G1 x2 (proj2 (Hin x2) I2)) as A. pose proof (G2 x1 (proj1 (Hin x1) I1)) as B.
    cbn [float_gt] in A, B. f_equal. now apply ltb_antisym.
Qed.

Lemma loop_succeeds (c : config) (w : float) :
  length (variables c) = Z.to_nat (noOfBuilding c) ->
  (forall v, In v (variables c) ->
     exists r k, radius (distanceBtw c) w v = Ok r /\
                 int_to_float (Height v - buildingA c) = Ok k) ->
  exists t, loop c w = Ok t.
Proof.
  intros Hl Hv. destruct (loop c w) as [t|e] eqn:H; [eauto|]. exfalso.
  unfold loop, for_range in H. rewrite py_range_0 in H.
  apply for_each_Raise in H as (i & t & Hi & H).
  apply in_map_iff in Hi as (j & <- & Hj). apply in_seq in Hj.
  destruct (nth_error (variables c) j) as [v|] eqn:E.
  - rewrite (getitem_nth _ _ _ E) in H. cbn [bind] in H.
    destruct (Hv v (nth_error_In _ _ E)) as (r & k & Hr & Hk).
    unfold step, int_add_float in H. rewrite Hr, Hk in H. discriminate.
  - apply nth_error_None in E. lia.
Qed.

Lemma same_heights (c1 c2 : config) (w : float) (t1 t2 : towers) :
  buildingA c1 = buildingA c2 -> distanceBtw c1 = distanceBtw c2 ->
  (forall v, In v (variables c1) <-> In v (variables c2)) ->
  length (variables c1) = Z.to_nat (noOfBuilding c1) ->
  length (variables c2) = Z.to_nat (noOfBuilding c2) ->
  loop c1 w = Ok t1 -> loop c2 w = Ok t2 ->
  LOStowerA t1 = LOStowerA t2 /\ nearLOStowerA t1 = nearLOStowerA t2.
Proof.
  intros HA Hd Hv L1 L2 H1 H2.
  pose proof (towers_ok_loop _ _ _ H1) as [M1 N1 _].
  pose proof (towers_ok_loop _ _ _ H2) as [M2 N2 _].
  destruct (candidates_In _ _ _ H1 L1) as [I1 J1].
  destruct (candidates_In _ _ _ H2 L2) as [I2 J2].
  rewrite <- HA, <- Hd in I2, J2. split.
  - apply (max_of_unique _ _ _ _ M1 M2). intros x. rewrite I1, I2.
    split; intros (v & r & k & Iv & H); exists v, r, k; (split; [now apply Hv | exact H]).
  - apply (max_of_unique _ _ _ _ N1 N2). intros x. rewrite J1, J2.
    split; intros (v & r & k & Iv & H); exists v, r, k; (split; [now apply Hv | exact H]).
Qed.

(** * A frequency that is not a number *)

Section NaN.

Local Open Scope float_scope.

Lemma mul_nan_l (x c : float) : is_nan x = true -> is_nan (x * c) = true.
Proof.
  rewrite !is_nan_spec, mul_spec. now destruct (Prim2SF x).
Qed.

Lemma div_nan_l (x c : float) : is_nan x = true -> is_nan (x / c) = true.
Proof.
  rewrite !is_nan_spec, div_spec. now destruct (Prim2SF x).
Qed.

Lemma div_nan_r (c x : float) : is_nan x = true -> is_nan (c / x) = true.
Proof.
  rewrite !is_nan_spec, div_spec.
  destruct (Prim2SF x); try discriminate. now destruct (Prim2SF c).
Qed.

Lemma sqrt_nan (x : float) : is_nan x = true -> is_nan (sqrt x) = true.
Proof.
  rewrite !is_nan_spec, sqrt_spec. now destruct (Prim2SF x).
Qed.

Lemma eqb_nan (x : float) : is_nan x = true -> (x =? 0) = false.
Proof.
  rewrite is_nan_spec, FloatAxioms.eqb_spec. now destruct (Prim2SF x).
Qed.

Lemma float_gt_nan (x : float) (a : number) : is_nan x = true -> float_gt x a = false.
Proof.
  intros H. destruct a as [n|y]; cbn [float_gt]; [|now apply ltb_nan_r].
  unfold float_compare_int. rewrite is_nan_spec in H. now destruct (Prim2SF x).
Qed.

End NaN.

Lemma radius_nan (d : Z) (w : float) (v : obstruction) (r : float) :
  is_nan w = true -> radius d w v = Ok r -> is_nan r = true.
Proof.
  intros Hw H. unfold radius, float_mul_int, float_truediv_int in H.
  apply bind_Ok in H as (p & Hp & H). apply bind_Ok in Hp as (a & _ & [= <-]).
  apply bind_Ok in H as (p' & Hp' & H). apply bind_Ok in Hp' as (b & _ & [= <-]).
  apply bind_Ok in H as (q & Hq & H). apply bind_Ok in Hq as (y & _ & Hq).
  destruct (y =? 0)%float; [discriminate|]. injection Hq as <-.
  unfold math_sqrt in H. destruct (_ && _); [discriminate|]. injection H as <-.
  now apply sqrt_nan, div_nan_l, mul_nan_l, mul_nan_l.
Qed.

(** * Taller obstructions *)

Section Order.

Local Open Scope float_scope.

Lemma leb_trans (x y z : float) : (x <=? y) = true -> (y <=? z) = true -> (x <=? z) = true.
Proof. rewrite !leb_SF. apply SFleb_trans. Qed.

Lemma leb_ltb_trans (x y z : float) :
  (x <=? y) = true -> (y <? z) = true -> (x <? z) = true.
Proof. rewrite !leb_SF, !ltb_SF. apply SFleb_ltb_trans. Qed.

Lemma leb_refl (x : float) : is_nan x = false -> (x <=? x) = true.
Proof. intros H. rewrite leb_SF. now apply SFleb_refl, not_nan_SF. Qed.

(** Adding the same float on the right is monotone on finite floats. *)
Lemma add_mono_l (k1 k2 z : float) :
  is_finite k1 = true -> is_finite k2 = true -> (k1 <=? k2) = true ->
  paired (k1 + z) (k2 + z).
Proof.
  intros F1 F2 Hle. unfold paired. rewrite !is_nan_spec, leb_SF, !add_spec.
  rewrite is_finite_spec in F1, F2. rewrite leb_SF in Hle.
  pose proof (Prim2SF_valid k1) as V1. pose proof (Prim2SF_valid k2) as V2.
  pose proof (Prim2SF_valid z) as Vz.
  destruct (is_fin (Prim2SF z)) eqn:Fz.
  - right. rewrite <- SFleb_unsign, !SFadd_Zval, SFleb_unsign by assumption.
    apply (bn_le _ _ _ _ (-1074)%Z); try lia.
    pose proof (SFleb_Zval _ _ V1 V2 F1 F2 Hle). rewrite Z.sub_diag. lia.
  - destruct (Prim2SF z) as [sz|sz| |sz mz ez]; try discriminate.
    + right. rewrite !SFadd_inf by assumption. now destruct sz.
    + left. now destruct (Prim2SF k1), (Prim2SF k2).
Qed.

Lemma int_to_float_mono (n1 n2 : Z) (k1 k2 : float) :
  (n1 <= n2)%Z -> int_to_float n1 = Ok k1 -> int_to_float n2 = Ok k2 ->
  (k1 <=? k2) = true.
Proof.
  intros Hn H1 H2. apply int_to_float_Ok in H1 as [H1 _], H2 as [H2 _].
  rewrite leb_SF, H1, H2. apply (bn_le _ _ _ _ 0%Z); lia.
Qed.

End Order.

Lemma radius_D1 (d : Z) (w : float) (v1 v2 : obstruction) :
  D1 v1 = D1 v2 -> radius d w v1 = radius d w v2.
Proof. intros H. unfold radius. now rewrite H. Qed.

Lemma Forall2_nth_error {A B : Type} (R : A -> B -> Prop) (l1 : list A) (l2 : list B)
  (i : nat) (a : A) (b : B) :
  Forall2 R l1 l2 -> nth_error l1 i = Some a -> nth_error l2 i = Some b -> R a b.
Proof.
  intros H. revert i. induction H as [|x y l1 l2 Hxy _ IH]; intros [|i] Ha Hb;
    try discriminate; cbn [nth_error] in *; [congruence | eauto].
Qed.

(** A maximum over candidates that are each at most the candidate of the
    same index in a second list is at most the maximum over the second
    list. *)
Lemma max_of_mono (top1 top2 : number) (l1 l2 : list float) :
  max_of top1 l1 -> max_of top2 l2 ->
  (forall i x1, nth_error l1 i = Some x1 ->
     exists x2, nth_error l2 i = Some x2 /\ paired x1 x2) ->
  py_le top1 top2 = true.
Proof.
  intros M1 M2 H. pose proof (max_of_seeded _ _ M1) as S1.
  pose proof (max_of_seeded _ _ M2) as S2. rewrite (py_le_seed _ _ S1 S2).
  destruct M1 as [[-> | (x1 & -> & I1 & P1)] _]; cbn [seed].
  - destruct M2 as [[-> | (y2 & -> & _ & P2)] _]; cbn [seed]; [reflexivity|].
    now apply ltb_leb.
  - apply In_nth_error in I1 as [i I1]. destruct (H i x1 I1) as (x2 & I2 & P).
    assert (N1 : is_nan x1 = false) by (apply ltb_leb, leb_not_nan in P1; tauto).
    destruct P as [[P _] | P]; [congruence|].
    pose proof (leb_not_nan _ _ P) as [_ N2].
    destruct M2 as [Htop G2]. specialize (G2 x2 (nth_error_In _ _ I2)).
    rewrite (float_gt_seed _ _ S2) in G2.
    assert (Hx2 : (x2 <=? seed top2)%float = true).
    { apply leb_total; [|exact N2 | exact G2].
      destruct Htop as [-> | (y2 & -> & _ & P2)]; [reflexivity|].
      apply ltb_leb, leb_not_nan in P2. tauto. }
    eapply leb_trans; eassumption.
Qed.

(** * Inputs on which the script succeeds *)

Lemma signed_as_nonneg (x : spec_float) : signed_as false x -> nonneg x = true.
Proof. destruct x as [s|s| |s m e]; cbn; intros H; try contradiction; now subst. Qed.

Lemma SFmul_nan_or_nonneg (x y : spec_float) :
  nan_or_nonneg x -> nan_or_nonneg y -> nan_or_nonneg (SF64mul x y).
Proof.
  intros [-> | Hx] [-> | Hy]; try (left; now destruct x); try (left; reflexivity).
  destruct x as [sx|sx| |sx mx ex], y as [sy|sy| |sy my ey];
    cbn [nonneg] in Hx, Hy; try discriminate;
    try (apply negb_true_iff in Hx; subst sx);
    try (apply negb_true_iff in Hy; subst sy);
    try (now left); try (now right).
  right. unfold SF64mul, SFmul. cbn [xorb].
  apply signed_as_nonneg, binary_round_aux_signed. lia.
Qed.

Lemma SFdiv_nan_or_nonneg (x : spec_float) (m : positive) (e : Z) :
  nan_or_nonneg x -> nan_or_nonneg (SF64div x (S754_finite false m e)).
Proof.
  intros [-> | Hx]; [now left|].
  destruct x as [sx|sx| |sx mx ex]; cbn [nonneg] in Hx; try discriminate;
    try (apply negb_true_iff in Hx; subst sx); try (now right).
  right. unfold SF64div, SFdiv. cbn [xorb]. unfold SFdiv_core_binary.
  set (m' := match _ - _ with Z.pos _ => _ | 0 => _ | Z.neg _ => _ end).
  assert (Hm' : 0 <= m').
  { subst m'. destruct (_ - _) as [|p|p]; try lia.
    rewrite Z.shiftl_mul_pow2 by lia.
    assert (0 < 2 ^ Z.pos p) by (apply Z.pow_pos_nonneg; lia). lia. }
  pose proof (Z_div_mod m' (Z.pos m) ltac:(lia)) as Hq.
  destruct (Z.div_eucl m' (Z.pos m)) as [q r]. destruct Hq as [Hq Hr].
  assert (Hq0 : 0 <= q) by nia.
  apply signed_as_nonneg, binary_round_aux_signed, Hq0.
Qed.

Lemma SFsqrt_nan_or_nonneg (x : spec_float) :
  nan_or_nonneg x -> x = S754_nan \/ not_nan (SF64sqrt x) = true.
Proof.
  intros [-> | Hx]; [now left|]. right.
  destruct x as [sx|sx| |sx mx ex]; cbn [nonneg] in Hx; try discriminate;
    try (apply negb_true_iff in Hx; subst sx); try reflexivity.
  unfold SF64sqrt, SFsqrt.
  destruct (SFsqrt_core_binary prec emax (Z.pos mx) ex) as [[mz ez] lz] eqn:E.
  assert (Hmz : 0 <= mz).
  { unfold SFsqrt_core_binary in E.
    set (m' := match _ - _ with Z.pos _ => _ | _ => _ end) in E.
    pose proof (Z.sqrtrem_spec m') as Hs.
    destruct (Z.sqrtrem m') as [q r]. injection E as <- _ _.
    assert (Hm' : 0 <= m').
    { subst m'. destruct (_ - _) as [|p|p]; try lia.
      rewrite Z.shiftl_mul_pow2 by lia.
      assert (0 < 2 ^ Z.pos p) by (apply Z.pow_pos_nonneg; lia). lia. }
    specialize (Hs Hm'). cbv beta iota in Hs. nia. }
  pose proof (binary_round_aux_signed false mz ez lz Hmz) as H.
  now destruct (binary_round_aux _ _ _ _ _ _).
Qed.

Lemma math_sqrt_nan_or_nonneg (q : float) :
  nan_or_nonneg (Prim2SF q) -> math_sqrt q = Ok (PrimFloat.sqrt q).
Proof.
  intros H. unfold math_sqrt. rewrite !is_nan_spec, sqrt_spec.
  destruct (SFsqrt_nan_or_nonneg _ H) as [-> | ->]; reflexivity.
Qed.

(** The ints of magnitude at most [2 ^ 1023] convert to a float. *)
Lemma int_to_float_bounded (n : Z) :
  Z.abs n <= 2 ^ 1023 -> exists k, int_to_float n = Ok k.
Proof.
  intros Hn. unfold int_to_float.
  assert (Hlo : SFleb (bn (- 2 ^ 1023) 0) (bn n 0) = true) by (apply (bn_le _ _ _ _ 0); lia).
  assert (Hhi : SFleb (bn n 0) (bn (2 ^ 1023) 0) = true) by (apply (bn_le _ _ _ _ 0); lia).
  assert (E1 : bn (- 2 ^ 1023) 0 = S754_finite true 4503599627370496 971)
    by (vm_compute; reflexivity).
  assert (E2 : bn (2 ^ 1023) 0 = S754_finite false 4503599627370496 971)
    by (vm_compute; reflexivity).
  rewrite E1 in Hlo. rewrite E2 in Hhi.
  destruct (bn n 0) as [s|[]| |s m e]; try discriminate; eauto.
Qed.

Lemma int_to_float_nonneg (n : Z) (k : float) :
  0 <= n -> int_to_float n = Ok k -> nonneg (Prim2SF k) = true.
Proof.
  intros Hn Hk. apply int_to_float_Ok in Hk as [Hk _]. rewrite Hk.
  assert (H : SFleb (bn 0 0) (bn n 0) = true) by (apply (bn_le _ _ _ _ 0); lia).
  change (bn 0 0) with (S754_zero false) in H.
  now destruct (bn n 0) as [[]|[]| |[] m e].
Qed.

Lemma int_to_float_positive (n : Z) (y : float) :
  0 < n -> int_to_float n = Ok y -> exists m e, Prim2SF y = S754_finite false m e.
Proof.
  intros Hn Hy. pose proof (int_to_float_nonneg n y ltac:(lia) Hy) as Hs.
  pose proof (int_to_float_nonzero n y ltac:(lia) Hy) as H0.
  apply int_to_float_Ok in Hy as [_ Hf]. rewrite is_finite_spec in Hf.
  rewrite FloatAxioms.eqb_spec in H0. change (Prim2SF 0) with (S754_zero false) in H0.
  destruct (Prim2SF y) as [[]|[]| |[] m e]; try discriminate; eauto.
Qed.

(** The radius of an obstruction between the two buildings is computed
    without error whenever the wavelength is NaN or not negative. *)
Lemma radius_succeeds (d : Z) (w : float) (v : obstruction) :
  0 < d <= 2 ^ 1023 -> 0 <= D1 v <= d -> nan_or_nonneg (Prim2SF w) ->
  exists r, radius d w v = Ok r.
Proof.
  intros Hd Hv Hw. unfold radius, float_mul_int, float_truediv_int.
  destruct (int_to_float_bounded (D1 v) ltac:(lia)) as [a Ha].
  destruct (int_to_float_bounded (d - D1 v) ltac:(lia)) as [b Hb].
  destruct (int_to_float_bounded d ltac:(lia)) as [y Hy].
  replace (D1 v + (d - D1 v)) with d by lia. rewrite Ha, Hb, Hy. cbn [bind].
  rewrite (int_to_float_nonzero d y ltac:(lia) Hy). cbn [bind].
  destruct (int_to_float_positive d y ltac:(lia) Hy) as (m & e & Ey).
  rewrite math_sqrt_nan_or_nonneg; [eauto|].
  rewrite div_spec, !mul_spec, Ey.
  apply SFdiv_nan_or_nonneg, SFmul_nan_or_nonneg; [apply SFmul_nan_or_nonneg|].
  - exact Hw.
  - right. eapply int_to_float_nonneg; [|exact Ha]. lia.
  - right. eapply int_to_float_nonneg; [|exact Hb]. lia.
Qed.

(** The wavelength of a positive frequency is not negative. *)
Lemma wavelength_nonneg (f : float) :
  (0 <? f)%float = true -> nan_or_nonneg (Prim2SF (300000000 / f)).
Proof.
  rewrite ltb_SF, div_spec. change (Prim2SF 0) with (S754_zero false).
  assert (E : Prim2SF 300000000 = S754_finite false 5033164800000000 (-24))
    by (vm_compute; reflexivity).
  rewrite E. destruct (Prim2SF f) as [[]|[]| |[] m e]; try discriminate; intros _.
  - right. reflexivity.
  - right. unfold SF64div, SFdiv. cbn [xorb]. unfold SFdiv_core_binary.
    set (m' := match _ - _ with Z.pos _ => _ | 0 => _ | Z.neg _ => _ end).
    assert (Hm' : 0 <= m').
    { subst m'. destruct (_ - _) as [|p|p]; try lia.
      rewrite Z.shiftl_mul_pow2 by lia.
      assert (0 < 2 ^ Z.pos p) by (apply Z.pow_pos_nonneg; lia). lia. }
    pose proof (Z_div_mod m' (Z.pos m) ltac:(lia)) as Hq.
    destruct (Z.div_eucl m' (Z.pos m)) as [q r]. destruct Hq as [Hq Hr].
    assert (Hq0 : 0 <= q) by nia.
    apply signed_as_nonneg, binary_round_aux_signed, Hq0.
Qed.

(** * Further properties of the script *)

(** ** The output file *)

(** X1: the output file of a run that ends normally holds the two reports: the
    heights of the towers with four decimals, and on each GAP line the gap
    of every obstruction, in the order of the input, each followed by a
    space. *)
Theorem output_layout (log10 : float -> float) (fs : filesystem) :
  exception (run log10 fs) = None ->
  exists text c h a b a' b',
    fs !! "deploy_data.txt"%string = Some text /\
    compute text = Ok (c, h) /\
    format_4f (LOStowerA (towersA h)) = Ok a /\
    format_4f (LOStowerB h) = Ok b /\
    format_4f (nearLOStowerA (towersA h)) = Ok a' /\
    format_4f (nearLOStowerB h) = Ok b' /\
    files (run log10 fs)
    = <["output.txt"%string :=
          report_text a b
            (gap_text (seed (LOStowerA (towersA h))) (LOStowerAs (towersA h)))
            a' b'
            (gap_text (seed (nearLOStowerA (towersA h))) (nearLOStowerAs (towersA h)))]>
        fs.
Proof.
  intros H. apply run_None in H as (text & c & h & s & att & Ht & Hc & Hr & _ & ->).
  pose proof (compute_Ok _ _ _ Hc) as [_ Hcl].
  destruct (report_heights_Ok c h s Hcl Hr) as (a & b & a' & b' & Ha & Hb & Ha' & Hb' & E).
  exists text, c, h, a, b, a', b'. cbn [files]. rewrite E. auto 10.
Qed.

Lemma output_layout_witness :
  exception (run log10_series (input worked_example_lines)) = None /\
  files (run log10_series (input worked_example_lines)) !! "output.txt"%string
  = Some (report_text "5.7947" "10.7947" "-4.4073 -2.4473 -0.1472 0.0000 "
            "4.5298" "9.5298" "-4.2715 -2.6315 -0.4314 0.0000 ").
Proof.
  assert (H : exception (run log10_series (input worked_example_lines)) = None)
    by (vm_compute; reflexivity).
  split; [exact H|].
  destruct (output_layout log10_series (input worked_example_lines) H)
    as (text & c & h & a & b & a' & b' & Ht & Hc & Ha & Hb & Ha' & Hb' & ->).
  rewrite lookup_insert_eq. f_equal.
  vm_compute in Ht. injection Ht as <-.
  vm_compute in Hc. injection Hc as <- <-.
  vm_compute in Ha, Hb, Ha', Hb'.
  injection Ha as <-. injection Hb as <-. injection Ha' as <-. injection Hb' as <-.
  vm_compute. reflexivity.
Defined.

(** ** The order of the candidates *)

(** X2: when the computation succeeds, each list of candidates has one entry
    for every obstruction, in the order of the input: the entry [i] is
    [Height - buildingA] plus 60% (LOS) or 40% (near-LOS) of the radius of
    the obstruction [i]. *)
Theorem candidates_in_order (c : config) (h : heights) :
  clearance c = Ok h ->
  length (LOStowerAs (towersA h)) = Z.to_nat (noOfBuilding c) /\
  length (nearLOStowerAs (towersA h)) = Z.to_nat (noOfBuilding c) /\
  forall i, (i < Z.to_nat (noOfBuilding c))%nat ->
    exists v r k,
      nth_error (variables c) i = Some v /\
      radius (distanceBtw c) (waveLength h) v = Ok r /\
      int_to_float (Height v - buildingA c) = Ok k /\
      nth_error (LOStowerAs (towersA h)) i = Some (k + 0.6 * r)%float /\
      nth_error (nearLOStowerAs (towersA h)) i = Some (k + 0.4 * r)%float.
Proof.
  intros H. apply clearance_Ok in H as (_ & _ & H & _). now apply loop_candidates.
Qed.

Lemma candidates_in_order_witness :
  clearance worked_example = Ok worked_example_result /\
  length (LOStowerAs (towersA worked_example_result)) = 4%nat /\
  exists v r k,
    nth_error (variables worked_example) 3 = Some v /\
    radius 2000 0.125 v = Ok r /\
    int_to_float (Height v - 20) = Ok k /\
    nth_error (LOStowerAs (towersA worked_example_result)) 3 = Some (k + 0.6 * r)%float /\
    nth_error (nearLOStowerAs (towersA worked_example_result)) 3
    = Some (k + 0.4 * r)%float.
Proof.
  split; [exact worked_example_clearance|].
  destruct (candidates_in_order worked_example worked_example_result
              worked_example_clearance) as (Hl & _ & Hi).
  split; [exact Hl|]. apply (Hi 3%nat). vm_compute. lia.
Defined.

(** ** Where a run stops *)

(** X3: a run stops on FileNotFoundError exactly when the input file does not
    exist. *)
Theorem missing_input_file (log10 : float -> float) (fs : filesystem) :
  exception (run log10 fs) = Some FileNotFoundError <->
  fs !! "deploy_data.txt"%string = None.
Proof.
  split.
  - intros H. apply run_Some in H as [(H & _) | [(text & Ht & H & _) | H]];
      [exact H | exfalso | exfalso].
    + apply compute_Raise in H as [H | (c & _ & H)].
      * apply read_config_Raise in H as [H | H]; discriminate.
      * unfold clearance in H. rewrite float_mul_int_1000000 in H. cbn [bind] in H.
        apply bind_Raise in H as [H | (w & _ & H)].
        { unfold int_truediv_float in H.
          change (int_to_float 300000000) with (Ok 300000000%float) in H.
          cbn [bind] in H. destruct (_ =? 0)%float; discriminate. }
        apply bind_Raise in H as [H | (t & _ & H)].
        { unfold loop, for_range in H. apply for_each_Raise in H as (i & t & _ & H).
          apply bind_Raise in H as [H | (v & _ & H)];
            [apply getitem_Raise in H; discriminate|].
          apply step_Raise in H as [H | [[H _] | H]]; discriminate. }
        apply bind_Raise in H as [H | (b & _ & H)];
          [apply int_add_Raise in H; discriminate|].
        apply bind_Raise in H as [H | (b' & _ & H)];
          [apply int_add_Raise in H; discriminate | discriminate].
    + destruct H as (text & c & h & s & _ & Hc & [H | [_ H]] & _).
      * pose proof (compute_Ok _ _ _ Hc) as [_ Hcl].
        apply (report_heights_Raise c h s _ Hcl) in H as [H _]. discriminate.
      * apply attenuation_Raise in H as [H | H]; discriminate.
  - intros H. unfold run. now rewrite H.
Qed.

(** X4: a run stops on IndexError only while it reads the input, when a line
    the script reads is missing: the loop and the reports never index out
    of range.  The output file is not opened. *)
Theorem index_error_origin (log10 : float -> float) (fs : filesystem) :
  exception (run log10 fs) = Some IndexError ->
  exists text,
    fs !! "deploy_data.txt"%string = Some text /\
    too_short (readlines text) /\
    run log10 fs = {| exception := Some IndexError; files := fs; console := [] |}.
Proof.
  intros H. apply run_Some in H as [(_ & H & _) | [(text & Ht & H & Hrun) | H]];
    [discriminate | | exfalso].
  - exists text. split; [exact Ht|]. split; [|exact Hrun].
    apply compute_Raise in H as [H | (c & Hc & H)];
      [now apply read_config_IndexError|].
    exfalso. apply read_config_Ok in Hc as (_ & _ & _ & _ & _ & Hl & _).
    apply (clearance_Raise c _ Hl) in H as [H | [H | [H _]]]; discriminate.
  - destruct H as (text & c & h & s & _ & Hc & [H | [_ H]] & _).
    + pose proof (compute_Ok _ _ _ Hc) as [_ Hcl].
      apply (report_heights_Raise c h s _ Hcl) in H as [H _]. discriminate.
    + apply attenuation_Raise in H as [H | H]; discriminate.
Qed.

Lemma index_error_origin_witness :
  exception (run log10_series (input truncated_lines)) = Some IndexError /\
  exists text,
    input truncated_lines !! "deploy_data.txt"%string = Some text /\
    too_short (readlines text) /\
    run log10_series (input truncated_lines)
    = {| exception := Some IndexError; files := input truncated_lines; console := [] |}.
Proof.
  assert (H : exception (run log10_series (input truncated_lines)) = Some IndexError)
    by (vm_compute; reflexivity).
  split; [exact H|].
  exact (index_error_origin log10_series (input truncated_lines) H).
Defined.

(** X5: when the input is a plain text of which every line holds a number
    of the expected type but a line the script reads is missing, the run
    stops on IndexError before the output file is opened. *)
Theorem truncated_input (log10 : float -> float) (fs : filesystem) (text : string) :
  fs !! "deploy_data.txt"%string = Some text ->
  plain text = true ->
  well_formed (readlines text) -> too_short (readlines text) ->
  run log10 fs = {| exception := Some IndexError; files := fs; console := [] |}.
Proof.
  intros Ht _ Hwf Hs. unfold run, compute. rewrite Ht.
  now rewrite (read_config_short _ Hwf Hs).
Qed.

Lemma well_formed_truncated_lines : well_formed (readlines (text_of truncated_lines)).
Proof.
  split.
  - intros k l Hk H3.
    do 8 (destruct k as [|k]; [vm_compute in Hk; injection Hk as <-;
                               try (eexists; vm_compute; reflexivity); congruence|]).
    vm_compute in Hk. destruct k; discriminate.
  - intros l Hl. vm_compute in Hl. injection Hl as <-. eexists. vm_compute. reflexivity.
Qed.

Lemma truncated_input_witness :
  plain (text_of truncated_lines) = true /\
  too_short (readlines (text_of truncated_lines)) /\
  run log10_series (input truncated_lines)
  = {| exception := Some IndexError; files := input truncated_lines; console := [] |}.
Proof.
  assert (Hs : too_short (readlines (text_of truncated_lines))).
  { right. exists 2. split; [vm_compute; reflexivity | vm_compute; reflexivity]. }
  split; [vm_compute; reflexivity|]. split; [exact Hs|].
  apply (truncated_input log10_series (input truncated_lines) (text_of truncated_lines)).
  - vm_compute. reflexivity.
  - vm_compute. reflexivity.
  - exact well_formed_truncated_lines.
  - exact Hs.
Defined.

(** X6: a run stops on ZeroDivisionError only before the output file is opened,
    and only when the frequency is zero or when there is an obstruction on
    a path of length zero: the path loss divides by constants. *)
Theorem zero_division_origin (log10 : float -> float) (fs : filesystem) :
  exception (run log10 fs) = Some ZeroDivisionError ->
  exists text c,
    fs !! "deploy_data.txt"%string = Some text /\
    read_config (readlines text) = Ok c /\
    ((transmissionFrequency c * 1000000 =? 0)%float = true \/
     (distanceBtw c = 0 /\ 0 < noOfBuilding c)) /\
    run log10 fs = {| exception := Some ZeroDivisionError; files := fs; console := [] |}.
Proof.
  intros H. apply run_Some in H as [(_ & H & _) | [(text & Ht & H & Hrun) | H]];
    [discriminate | | exfalso].
  - apply compute_Raise in H as [H | (c & Hc & H)];
      [apply read_config_Raise in H as [H | H]; discriminate|].
    exists text, c. split; [exact Ht|]. split; [exact Hc|]. split; [|exact Hrun].
    pose proof (read_config_Ok _ _ Hc) as (_ & _ & _ & _ & _ & Hl & _).
    apply (clearance_Raise c _ Hl) in H as [H | [H | [_ H]]];
      [discriminate | discriminate | exact H].
  - destruct H as (text & c & h & s & _ & Hc & [H | [_ H]] & _).
    + pose proof (compute_Ok _ _ _ Hc) as [_ Hcl].
      apply (report_heights_Raise c h s _ Hcl) in H as [H _]. discriminate.
    + apply attenuation_Raise in H as [H | H]; discriminate.
Qed.

Lemma zero_division_origin_witness :
  exception (run log10_series (input zero_frequency_lines)) = Some ZeroDivisionError /\
  exists text c,
    input zero_frequency_lines !! "deploy_data.txt"%string = Some text /\
    read_config (readlines text) = Ok c /\
    ((transmissionFrequency c * 1000000 =? 0)%float = true \/
     (distanceBtw c = 0 /\ 0 < noOfBuilding c)) /\
    run log10_series (input zero_frequency_lines)
    = {| exception := Some ZeroDivisionError;
         files := input zero_frequency_lines; console := [] |}.
Proof.
  assert (H : exception (run log10_series (input zero_frequency_lines))
              = Some ZeroDivisionError) by (vm_compute; reflexivity).
  split; [exact H|].
  exact (zero_division_origin log10_series (input zero_frequency_lines) H).
Defined.

(** X7: a run that stops on an exception has printed nothing. *)
Theorem failed_run_prints_nothing (log10 : float -> float) (fs : filesystem) (e : exn) :
  exception (run log10 fs) = Some e -> console (run log10 fs) = [].
Proof.
  intros H. apply run_Some in H as [(_ & _ & ->) | [(text & _ & _ & ->) | H]];
    try reflexivity.
  destruct H as (text & c & h & s & _ & _ & _ & ->). reflexivity.
Qed.

Lemma failed_run_prints_nothing_witness :
  exception (run log10_series (input zero_distance_lines)) = Some ValueError /\
  console (run log10_series (input zero_distance_lines)) = [].
Proof.
  assert (H : exception (run log10_series (input zero_distance_lines)) = Some ValueError)
    by (vm_compute; reflexivity).
  split; [exact H|].
  exact (failed_run_prints_nothing log10_series (input zero_distance_lines) _ H).
Defined.

(** ** Zero and negative inputs *)

(** X8: when the input is a plain text that is read without error, a
    frequency of zero stops the run on ZeroDivisionError, in the wavelength,
    before the output file is opened. *)
Theorem zero_frequency (log10 : float -> float) (fs : filesystem) (text : string)
  (c : config) :
  fs !! "deploy_data.txt"%string = Some text ->
  plain text = true ->
  read_config (readlines text) = Ok c ->
  (transmissionFrequency c =? 0)%float = true ->
  run log10 fs = {| exception := Some ZeroDivisionError; files := fs; console := [] |}.
Proof.
  intros Ht _ Hc Hf. unfold run, compute, clearance. rewrite Ht, Hc. cbn [bind].
  rewrite float_mul_int_1000000. cbn [bind]. unfold int_truediv_float.
  change (int_to_float 300000000) with (Ok 300000000%float). cbn [bind].
  rewrite (mul_zero_l _ 1000000 Hf eq_refl). reflexivity.
Qed.

Lemma zero_frequency_witness :
  plain (text_of zero_frequency_lines) = true /\
  read_config (readlines (text_of zero_frequency_lines))
  = Ok {| buildingA := 20; buildingB := 15; distanceBtw := 2000;
          transmissionFrequency := 0; noOfBuilding := 0; variables := [] |} /\
  run log10_series (input zero_frequency_lines)
  = {| exception := Some ZeroDivisionError;
       files := input zero_frequency_lines; console := [] |}.
Proof.
  assert (H : read_config (readlines (text_of zero_frequency_lines))
              = Ok {| buildingA := 20; buildingB := 15; distanceBtw := 2000;
                      transmissionFrequency := 0; noOfBuilding := 0; variables := [] |})
    by (vm_compute; reflexivity).
  split; [vm_compute; reflexivity|]. split; [exact H|].
  apply (zero_frequency log10_series (input zero_frequency_lines)
           (text_of zero_frequency_lines) _ ltac:(vm_compute; reflexivity)
           ltac:(vm_compute; reflexivity) H).
  vm_compute. reflexivity.
Defined.

(** X9: when the input is a plain text that is read without error, with at
    least one obstruction, a path of length zero stops the run on
    ZeroDivisionError, in the radius of the first obstruction, as soon as
    the frequency is not zero and the distance of the first obstruction
    and its opposite convert to floats. *)
Theorem zero_length_path (log10 : float -> float) (fs : filesystem) (text : string)
  (c : config) (v : obstruction) :
  fs !! "deploy_data.txt"%string = Some text ->
  plain text = true ->
  read_config (readlines text) = Ok c ->
  (transmissionFrequency c * 1000000 =? 0)%float = false ->
  distanceBtw c = 0 -> nth_error (variables c) 0 = Some v ->
  succeeds (int_to_float (D1 v)) = true ->
  succeeds (int_to_float (0 - D1 v)) = true ->
  run log10 fs = {| exception := Some ZeroDivisionError; files := fs; console := [] |}.
Proof.
  intros Ht _ Hc Hf Hd Hv H1 H2. unfold run, compute, clearance. rewrite Ht, Hc.
  cbn [bind].
  rewrite float_mul_int_1000000. cbn [bind]. unfold int_truediv_float.
  change (int_to_float 300000000) with (Ok 300000000%float). cbn [bind].
  rewrite Hf. cbn [bind].
  assert (HN : (0 < Z.to_nat (noOfBuilding c))%nat).
  { apply read_config_Ok in Hc as (_ & _ & _ & _ & _ & Hl & _). rewrite <- Hl.
    destruct (variables c); [discriminate | cbn [length]; lia]. }
  unfold loop, for_range. rewrite py_range_0.
  destruct (Z.to_nat (noOfBuilding c)) as [|n]; [lia|].
  cbn [seq List.map for_each]. change (Z.of_nat 0) with 0.
  rewrite (getitem_nth _ 0%nat _ Hv : getitem (variables c) 0 = Ok v). cbn [bind].
  unfold step. rewrite Hd, (radius_zero_path _ v H1 H2). reflexivity.
Qed.

Lemma zero_length_path_witness :
  plain (text_of zero_path_lines) = true /\
  read_config (readlines (text_of zero_path_lines)) = Ok zero_path /\
  run log10_series (input zero_path_lines)
  = {| exception := Some ZeroDivisionError;
       files := input zero_path_lines; console := [] |}.
Proof.
  assert (H : read_config (readlines (text_of zero_path_lines)) = Ok zero_path)
    by (vm_compute; reflexivity).
  split; [vm_compute; reflexivity|]. split; [exact H|].
  apply (zero_length_path log10_series (input zero_path_lines)
           (text_of zero_path_lines) zero_path {| D1 := 0; Height := 18 |}
           ltac:(vm_compute; reflexivity) ltac:(vm_compute; reflexivity) H);
    vm_compute; reflexivity.
Defined.

(** X10: when the input is a plain text on which the heights are computed,
    the path length is zero or negative and converts to a float,
    [buildingA - buildingB] converts to a float and the frequency in Hz is
    positive and finite, the run stops on ValueError in the logarithm of
    the path loss, whatever the C library: the reports are in the output
    file, which lacks its last line feed, and nothing is printed. *)
Theorem nonpositive_path_length (log10 : float -> float) (fs : filesystem)
  (text : string) (c : config) (h : heights) (k y : float) :
  fs !! "deploy_data.txt"%string = Some text ->
  plain text = true ->
  compute text = Ok (c, h) ->
  distanceBtw c <= 0 ->
  is_finite (frequencyHz h) = true -> (0 <? frequencyHz h)%float = true ->
  int_to_float (buildingA c - buildingB c) = Ok k ->
  int_to_float (distanceBtw c) = Ok y ->
  exists s,
    report_heights c h io0 = (Ok tt, s) /\
    run log10 fs = {| exception := Some ValueError;
                      files := <["output.txt"%string := written s]> fs;
                      console := [] |}.
Proof.
  intros Ht _ Hc Hd Hfin Hpos Hk Hy.
  pose proof (compute_Ok _ _ _ Hc) as [_ Hcl].
  assert (Ha : attenuation log10 (frequencyHz h) (distanceBtw c) = Raise ValueError).
  { unfold attenuation, float_mul_int, float_truediv_int. rewrite Hy.
    cbn [bind]. change (int_to_float 1000000000) with (Ok 1000000000%float).
    change (int_to_float 1000) with (Ok 1000%float). cbn [bind].
    change (1000000000 =? 0)%float with false.
    change (1000 =? 0)%float with false. cbn [bind].
    rewrite math_log10_nonpos; [reflexivity|].
    apply (div_nonpos_pos _ 1000 8796093022208000 (-43)); [vm_compute; reflexivity|].
    apply (div_nonpos_pos _ 1000000000 8388608000000000 (-23));
      [vm_compute; reflexivity|].
    apply mul_pos_nonpos; [exact Hfin | exact Hpos|].
    eapply int_to_float_le_0; eassumption. }
  destruct (report_heights c h io0) as [[[]|e] s] eqn:Hr.
  - exists s. split; [reflexivity|].
    rewrite (run_eq log10 fs text c h Ht Hc), report_eq, Hr, Ha.
    pose proof (silent_report_heights c h io0) as Hs. rewrite Hr in Hs. cbn [snd] in Hs.
    cbn [raised]. now rewrite Hs.
  - apply (report_heights_Raise c h s e Hcl) in Hr as [_ Hr]. congruence.
Qed.

Lemma nonpositive_path_length_witness :
  plain (text_of zero_distance_lines) = true /\
  exists c h s,
    compute (text_of zero_distance_lines) = Ok (c, h) /\
    distanceBtw c = 0 /\
    report_heights c h io0 = (Ok tt, s) /\
    run log10_series (input zero_distance_lines)
    = {| exception := Some ValueError;
         files := <["output.txt"%string := written s]> (input zero_distance_lines);
         console := [] |}.
Proof.
  split; [vm_compute; reflexivity|].
  set (c := {| buildingA := 20; buildingB := 15; distanceBtw := 0;
               transmissionFrequency := 2400; noOfBuilding := 0; variables := [] |}).
  set (h := {| frequencyHz := 2400000000; waveLength := 0.125; towersA := towers0;
               LOStowerB := Int 5; nearLOStowerB := Int 5 |}).
  assert (Hc : compute (text_of zero_distance_lines) = Ok (c, h))
    by (vm_compute; reflexivity).
  destruct (nonpositive_path_length log10_series (input zero_distance_lines)
              (text_of zero_distance_lines) c h 5 0
              ltac:(vm_compute; reflexivity) ltac:(vm_compute; reflexivity)
              Hc ltac:(vm_compute; discriminate)
              ltac:(vm_compute; reflexivity) ltac:(vm_compute; reflexivity)
              ltac:(vm_compute; reflexivity) ltac:(vm_compute; reflexivity))
    as (s & Hr & Hrun).
  exists c, h, s. split; [exact Hc|]. split; [reflexivity|]. split; [exact Hr | exact Hrun].
Defined.

(** ** An obstruction at an end of the path *)

(** X11: an obstruction at building A, or at building B when the wavelength
    times the path length is finite, has a radius of zero: both its
    candidates are the float of [Height - buildingA], exactly. *)
Theorem obstruction_at_an_end (c : config) (w : float) (t : towers) (v : obstruction)
  (y k : float) :
  distanceBtw c <> 0 -> is_finite w = true ->
  int_to_float (distanceBtw c) = Ok y ->
  int_to_float (Height v - buildingA c) = Ok k ->
  D1 v = 0 \/ (D1 v = distanceBtw c /\ is_finite (w * y) = true) ->
  (exists r, radius (distanceBtw c) w v = Ok r /\ (r =? 0)%float = true) /\
  step c w t v
  = Ok {| LOStowerA := py_max (LOStowerA t) k;
          LOStowerAs := LOStowerAs t ++ [k];
          nearLOStowerA := py_max (nearLOStowerA t) k;
          nearLOStowerAs := nearLOStowerAs t ++ [k] |}.
Proof.
  intros Hd Hw Hy Hk Hend.
  pose proof (int_to_float_nonzero _ _ Hd Hy) as Hy0.
  pose proof (int_to_float_Ok _ _ Hy) as [_ Fy].
  assert (Hr : exists r, radius (distanceBtw c) w v = Ok r /\ (r =? 0)%float = true).
  { unfold radius, float_mul_int, float_truediv_int.
    destruct Hend as [E | [E Hwy]]; rewrite E.
    - rewrite int_to_float_0. cbn [bind]. rewrite Z.sub_0_r, Z.add_0_l, Hy. cbn [bind].
      rewrite Hy0. cbn [bind].
      assert (Hq : (w * 0 * y / y =? 0)%float = true).
      { apply div_zero_l; [|exact Fy | exact Hy0].
        apply mul_zero_l; [|exact Fy]. now apply mul_zero_r. }
      destruct (math_sqrt_zero _ Hq) as [-> Hs]. eauto.
    - rewrite Hy. cbn [bind]. rewrite Z.sub_diag, int_to_float_0. cbn [bind].
      rewrite Z.add_0_r, Hy. cbn [bind]. rewrite Hy0. cbn [bind].
      assert (Hq : (w * y * 0 / y =? 0)%float = true).
      { apply div_zero_l; [|exact Fy | exact Hy0]. now apply mul_zero_r. }
      destruct (math_sqrt_zero _ Hq) as [-> Hs]. eauto. }
  split; [exact Hr|]. destruct Hr as (r & Hr & Hr0).
  unfold step, int_add_float. rewrite Hr, Hk. cbn [bind].
  rewrite (int_add_zero _ k (0.6 * r) Hk) by (now apply mul_zero_r).
  rewrite (int_add_zero _ k (0.4 * r) Hk) by (now apply mul_zero_r).
  reflexivity.
Qed.

Lemma obstruction_at_an_end_witness :
  step worked_example 0.125 towers0 {| D1 := 0; Height := 22 |}
  = Ok {| LOStowerA := py_max (Int 0) 2; LOStowerAs := [2%float];
          nearLOStowerA := py_max (Int 0) 2; nearLOStowerAs := [2%float] |}.
Proof.
  apply (obstruction_at_an_end worked_example 0.125 towers0
           {| D1 := 0; Height := 22 |} 2000 2);
    [discriminate | reflexivity | reflexivity | reflexivity | left; reflexivity].
Defined.

(** ** Heights measured from another datum *)

(** X12: only differences of heights enter the computation: raising the two
    buildings and every obstruction by the same [k] changes nothing in the
    computed heights, bit for bit, nor in the reports. *)
Theorem datum_shift (k : Z) (c : config) :
  clearance (shift k c) = clearance c /\
  forall (log10 : float -> float) (h : heights),
    report log10 (shift k c) h = report log10 c h.
Proof.
  split; [|reflexivity].
  unfold clearance. cbn [shift transmissionFrequency buildingA buildingB].
  replace (buildingA c + k - (buildingB c + k)) with (buildingA c - buildingB c) by lia.
  destruct (float_mul_int (transmissionFrequency c) 1000000) as [f|e]; [|reflexivity].
  cbn [bind]. destruct (int_truediv_float 300000000 f) as [w|e]; [|reflexivity].
  cbn [bind]. fold (shift k c). now rewrite loop_shift.
Qed.

(** ** The order of the obstructions *)

(** X13: the heights of the towers do not depend on the order in which the
    obstructions are listed: when the computation succeeds on a
    configuration it succeeds on every reordering of its obstructions, with
    the same four heights. *)
Theorem order_independent (c1 c2 : config) (h1 : heights) :
  buildingA c1 = buildingA c2 -> buildingB c1 = buildingB c2 ->
  distanceBtw c1 = distanceBtw c2 ->
  transmissionFrequency c1 = transmissionFrequency c2 ->
  Permutation (variables c1) (variables c2) ->
  length (variables c1) = Z.to_nat (noOfBuilding c1) ->
  length (variables c2) = Z.to_nat (noOfBuilding c2) ->
  clearance c1 = Ok h1 ->
  exists h2,
    clearance c2 = Ok h2 /\
    LOStowerA (towersA h2) = LOStowerA (towersA h1) /\
    nearLOStowerA (towersA h2) = nearLOStowerA (towersA h1) /\
    LOStowerB h2 = LOStowerB h1 /\
    nearLOStowerB h2 = nearLOStowerB h1.
Proof.
  intros HA HB Hd Hf Hp L1 L2 H1.
  apply clearance_Ok in H1 as (F1 & W1 & Loop1 & B1 & B1').
  assert (Hv : forall v, In v (variables c1) <-> In v (variables c2)).
  { intros v. split; apply Permutation_in; [exact Hp | now apply Permutation_sym]. }
  destruct (loop_succeeds c2 (waveLength h1) L2) as [t2 Loop2].
  { intros v Iv. apply Hv in Iv. apply In_nth_error in Iv as [i Iv].
    assert (Hlt : (i < Z.to_nat (noOfBuilding c1))%nat)
      by (rewrite <- L1; apply nth_error_Some; congruence).
    apply loop_candidates in Loop1 as (_ & _ & Hi).
    destruct (Hi i Hlt) as (v' & r & k & Hv' & Hr & Hk & _).
    assert (v' = v) as -> by congruence.
    exists r, k. now rewrite <- Hd, <- HA. }
  destruct (same_heights c1 c2 _ _ _ HA Hd Hv L1 L2 Loop1 Loop2) as [E E'].
  exists {| frequencyHz := frequencyHz h1; waveLength := waveLength h1; towersA := t2;
            LOStowerB := LOStowerB h1; nearLOStowerB := nearLOStowerB h1 |}.
  cbn [towersA LOStowerB nearLOStowerB]. repeat split; try congruence.
  unfold clearance. rewrite <- Hf, F1. cbn [bind]. rewrite W1. cbn [bind].
  rewrite Loop2. cbn [bind]. rewrite <- HA, <- HB, <- E, <- E', B1, B1'. reflexivity.
Qed.

Lemma order_independent_witness :
  Permutation (variables worked_example) (variables worked_example_reversed) /\
  clearance worked_example = Ok worked_example_result /\
  exists h2,
    clearance worked_example_reversed = Ok h2 /\
    LOStowerA (towersA h2) = Float 5.7947331922020551 /\
    LOStowerB h2 = Float 10.794733192202056.
Proof.
  assert (Hp : Permutation (variables worked_example) (variables worked_example_reversed))
    by apply Permutation_rev.
  split; [exact Hp|]. split; [exact worked_example_clearance|].
  destruct (order_independent worked_example worked_example_reversed
              worked_example_result eq_refl eq_refl eq_refl eq_refl Hp eq_refl eq_refl
              worked_example_clearance) as (h2 & H2 & E1 & _ & E3 & _).
  exists h2. split; [exact H2|]. split; [exact E1 | exact E3].
Defined.

(** ** The heights as maxima *)

(** X14: each height of tower A is the maximum of 0 and its candidates: it is
    the int 0 or a positive candidate, and no candidate is greater.  A
    candidate that is not a number is never taken. *)
Theorem tower_heights_are_maxima (c : config) (h : heights) :
  clearance c = Ok h ->
  max_of (LOStowerA (towersA h)) (LOStowerAs (towersA h)) /\
  max_of (nearLOStowerA (towersA h)) (nearLOStowerAs (towersA h)) /\
  (forall x, LOStowerA (towersA h) = Float x -> is_nan x = false) /\
  (forall x, nearLOStowerA (towersA h) = Float x -> is_nan x = false).
Proof.
  intros H. pose proof (clearance_towers_ok c h H) as [Hl Hn _].
  split; [exact Hl|]. split; [exact Hn|].
  split; intros x Hx.
  - destruct Hl as [[E | (y & E & _ & Hy)] _]; [congruence|].
    assert (y = x) as -> by congruence.
    apply ltb_leb, leb_not_nan in Hy. tauto.
  - destruct Hn as [[E | (y & E & _ & Hy)] _]; [congruence|].
    assert (y = x) as -> by congruence.
    apply ltb_leb, leb_not_nan in Hy. tauto.
Qed.

Lemma tower_heights_are_maxima_witness :
  clearance worked_example = Ok worked_example_result /\
  max_of (Float 5.7947331922020551)
    [1.3874769371908644; 3.3474130238568316; 5.6475800154489004; 5.7947331922020551]%float.
Proof.
  split; [exact worked_example_clearance|].
  exact (proj1 (tower_heights_are_maxima worked_example worked_example_result
                  worked_example_clearance)).
Defined.

(** ** A frequency that is not a number *)

(** X15: a frequency that reads [nan] is not rejected: when the computation
    succeeds every candidate is NaN, so the heights of tower A stay the
    int 0 and those of tower B the int [buildingA - buildingB]. *)
Theorem nan_frequency (c : config) (h : heights) :
  is_nan (transmissionFrequency c) = true -> clearance c = Ok h ->
  towersA h
  = {| LOStowerA := Int 0; LOStowerAs := LOStowerAs (towersA h);
       nearLOStowerA := Int 0; nearLOStowerAs := nearLOStowerAs (towersA h) |} /\
  Forall (fun x => is_nan x = true) (LOStowerAs (towersA h)) /\
  Forall (fun x => is_nan x = true) (nearLOStowerAs (towersA h)) /\
  LOStowerB h = Int (buildingA c - buildingB c) /\
  nearLOStowerB h = Int (buildingA c - buildingB c).
Proof.
  intros Hf H. apply clearance_Ok in H as (F & W & Hloop & B & B').
  rewrite float_mul_int_1000000 in F. injection F as F.
  assert (Hw : is_nan (waveLength h) = true).
  { unfold int_truediv_float in W.
    change (int_to_float 300000000) with (Ok 300000000%float) in W. cbn [bind] in W.
    destruct (frequencyHz h =? 0)%float; [discriminate|]. injection W as <-.
    apply div_nan_r. rewrite <- F. now apply mul_nan_l. }
  assert (P : LOStowerA (towersA h) = Int 0 /\ nearLOStowerA (towersA h) = Int 0 /\
              Forall (fun x => is_nan x = true) (LOStowerAs (towersA h)) /\
              Forall (fun x => is_nan x = true) (nearLOStowerAs (towersA h))).
  { apply (loop_invariant
             (fun t => LOStowerA t = Int 0 /\ nearLOStowerA t = Int 0 /\
                       Forall (fun x => is_nan x = true) (LOStowerAs t) /\
                       Forall (fun x => is_nan x = true) (nearLOStowerAs t))
             c (waveLength h)); [now repeat split | | exact Hloop].
    intros t v t' (E & E' & A & A') Hs.
    apply step_Ok in Hs as (r & k & Hr & _ & ->).
    apply (radius_nan _ _ _ _ Hw) in Hr.
    assert (N6 : is_nan (k + 0.6 * r) = true) by now apply add_nan_r, mul_nan_r.
    assert (N4 : is_nan (k + 0.4 * r) = true) by now apply add_nan_r, mul_nan_r.
    cbn [LOStowerA nearLOStowerA LOStowerAs nearLOStowerAs]. unfold py_max.
    rewrite (float_gt_nan _ _ N6), (float_gt_nan _ _ N4).
    repeat split; try assumption; apply Forall_app; split; auto. }
  destruct P as (E & E' & A & A'). rewrite E in B. rewrite E' in B'.
  cbn [int_add] in B, B'. rewrite Z.add_0_r in B, B'.
  repeat split; try assumption; try congruence.
  destruct (towersA h) as [a l a' l']. cbn [LOStowerA nearLOStowerA] in E, E'.
  now subst.
Qed.

Lemma nan_frequency_witness :
  exists h,
    clearance nan_frequency_example = Ok h /\
    LOStowerA (towersA h) = Int 0 /\ LOStowerB h = Int 5 /\
    Forall (fun x => is_nan x = true) (LOStowerAs (towersA h)).
Proof.
  destruct (clearance nan_frequency_example) as [h|e] eqn:H;
    [|vm_compute in H; discriminate].
  exists h. split; [reflexivity|].
  destruct (nan_frequency nan_frequency_example h eq_refl H) as (E & A & _ & B & _).
  split; [now rewrite E|]. split; [exact B | exact A].
Defined.

(** ** The count of obstructions *)

(** X16: a count that is zero or negative is accepted and no obstruction line is
    read: the loop and the GAP lines do nothing, the heights of tower A are
    the int 0 and those of tower B the int [buildingA - buildingB]. *)
Theorem nonpositive_count (lines : list string) (c : config) :
  read_config lines = Ok c -> noOfBuilding c <= 0 ->
  variables c = [] /\
  (forall w, loop c w = Ok towers0) /\
  (forall candidates top st, write_gaps (noOfBuilding c) candidates top st = (Ok tt, st)) /\
  (forall h, clearance c = Ok h ->
     towersA h = towers0 /\
     LOStowerB h = Int (buildingA c - buildingB c) /\
     nearLOStowerB h = Int (buildingA c - buildingB c)).
Proof.
  intros Hc HN.
  assert (Hr : py_range 0 (noOfBuilding c) 1 = [])
    by (rewrite py_range_0; now replace (Z.to_nat (noOfBuilding c)) with 0%nat by lia).
  assert (Hloop : forall w, loop c w = Ok towers0)
    by (intros w; unfold loop, for_range; now rewrite Hr).
  split; [|split; [exact Hloop | split]].
  - apply read_config_Ok in Hc as (_ & _ & _ & _ & _ & Hl & _).
    destruct (variables c); [reflexivity | cbn [length] in Hl; lia].
  - intros cs top st. unfold write_gaps. now rewrite Hr.
  - intros h H. apply clearance_Ok in H as (_ & _ & Ht & B & B').
    rewrite Hloop in Ht. injection Ht as Ht. rewrite <- Ht in B, B'.
    cbn [int_add towers0 LOStowerA nearLOStowerA] in B, B'.
    rewrite Z.add_0_r in B, B'. repeat split; congruence.
Qed.

Lemma nonpositive_count_witness :
  exists c,
    read_config (readlines (text_of negative_count_lines)) = Ok c /\
    noOfBuilding c = -3 /\ variables c = [] /\ loop c 0.125 = Ok towers0.
Proof.
  destruct (read_config (readlines (text_of negative_count_lines)))
    as [c|e] eqn:H; [|vm_compute in H; discriminate].
  exists c. split; [reflexivity|].
  assert (HN : noOfBuilding c = -3) by (vm_compute in H; now injection H as <-).
  split; [exact HN|].
  destruct (nonpositive_count _ c H ltac:(lia)) as (Hv & Hl & _).
  split; [exact Hv | apply Hl].
Defined.

(** ** Lines after the last obstruction *)

Lemma getitem_app {A : Type} (l extra : list A) (j : nat) (a : A) :
  getitem l (Z.of_nat j) = Ok a -> getitem (l ++ extra) (Z.of_nat j) = Ok a.
Proof.
  intros H. apply getitem_Ok_nth in H. apply getitem_nth.
  rewrite nth_error_app1; [exact H|]. apply nth_error_Some. congruence.
Qed.

Lemma int_line_app (lines extra : list string) (j : nat) (n : Z) :
  int_line lines (Z.of_nat j) = Ok n -> int_line (lines ++ extra) (Z.of_nat j) = Ok n.
Proof.
  unfold int_line. intros H. apply bind_Ok in H as (l & Hl & H).
  now rewrite (getitem_app _ extra _ _ Hl).
Qed.

Lemma float_line_app (lines extra : list string) (j : nat) (x : float) :
  float_line lines (Z.of_nat j) = Ok x -> float_line (lines ++ extra) (Z.of_nat j) = Ok x.
Proof.
  unfold float_line. intros H. apply bind_Ok in H as (l & Hl & H).
  now rewrite (getitem_app _ extra _ _ Hl).
Qed.

Lemma comprehension_app (lines extra : list string) (n start : nat)
  (vs : list obstruction) :
  comprehension lines
    (List.map (fun j => Z.of_nat start + 2 * Z.of_nat j) (seq 0 n)) = Ok vs ->
  comprehension (lines ++ extra)
    (List.map (fun j => Z.of_nat start + 2 * Z.of_nat j) (seq 0 n)) = Ok vs.
Proof.
  revert start vs. induction n as [|n IH]; intros start vs H; [exact H|].
  cbn [seq List.map comprehension] in *.
  replace (Z.of_nat start + 2 * Z.of_nat 0) with (Z.of_nat start) in * by lia.
  apply bind_Ok in H as (d & Hd & H). apply bind_Ok in H as (h & Hh & H).
  apply bind_Ok in H as (rest & Hrest & H).
  replace (Z.of_nat start + 1) with (Z.of_nat (S start)) in * by lia.
  rewrite (int_line_app _ extra _ _ Hd), (int_line_app _ extra _ _ Hh). cbn [bind].
  rewrite <- seq_shift, List.map_map in Hrest |- *.
  rewrite (List.map_ext _ (fun j => Z.of_nat (S (S start)) + 2 * Z.of_nat j))
    in Hrest |- * by (intros j; lia).
  now rewrite (IH _ _ Hrest).
Qed.

(** X17: the lines after those of the last obstruction are never read: when
    a plain text is read without error, every plain text that holds the
    same lines followed by others is read to the same configuration and
    gives the same heights. *)
Theorem trailing_lines_ignored (text text' : string) (extra : list string)
  (c : config) :
  plain text = true -> plain text' = true ->
  readlines text' = (readlines text ++ extra)%list ->
  read_config (readlines text) = Ok c ->
  read_config (readlines text') = Ok c /\ compute text' = compute text.
Proof.
  intros _ _ E H. set (lines := readlines text) in *.
  assert (H' : read_config (lines ++ extra) = Ok c).
  { unfold read_config in *.
    apply bind_Ok in H as (a & Ha & H). apply bind_Ok in H as (b & Hb & H).
    apply bind_Ok in H as (d & Hd & H). apply bind_Ok in H as (f & Hf & H).
    apply bind_Ok in H as (n & Hn & H). apply bind_Ok in H as (vs & Hvs & H).
    rewrite (int_line_app lines extra 0 a Ha : int_line (lines ++ extra) 0 = Ok a),
      (int_line_app lines extra 1 b Hb : int_line (lines ++ extra) 1 = Ok b),
      (int_line_app lines extra 2 d Hd : int_line (lines ++ extra) 2 = Ok d),
      (float_line_app lines extra 3 f Hf : float_line (lines ++ extra) 3 = Ok f),
      (int_line_app lines extra 4 n Hn : int_line (lines ++ extra) 4 = Ok n).
    cbn [bind].
    rewrite py_range_pairs in Hvs |- *.
    rewrite (comprehension_app _ extra _ _ _ Hvs). cbn [bind].
    rewrite <- H. reflexivity. }
  rewrite E. split; [exact H'|]. unfold compute. fold lines.
  rewrite E, H'. now rewrite H.
Qed.

Lemma trailing_lines_ignored_witness :
  plain (text_of worked_example_lines) = true /\
  plain (text_of (worked_example_lines ++ ["not a number"; ""]%string)) = true /\
  read_config (readlines (text_of worked_example_lines)) = Ok worked_example /\
  compute (text_of (worked_example_lines ++ ["not a number"; ""]%string))
  = compute (text_of worked_example_lines).
Proof.
  assert (H : read_config (readlines (text_of worked_example_lines)) = Ok worked_example)
    by (vm_compute; reflexivity).
  split; [vm_compute; reflexivity|]. split; [vm_compute; reflexivity|].
  split; [exact H|].
  exact (proj2 (trailing_lines_ignored (text_of worked_example_lines)
                  (text_of (worked_example_lines ++ ["not a number"; ""]%string))
                  ["not a number" ++ nl; nl]%string worked_example
                  ltac:(vm_compute; reflexivity) ltac:(vm_compute; reflexivity)
                  ltac:(vm_compute; reflexivity) H)).
Defined.

(** ** The file system *)

(** X18: a run writes no file but [output.txt]: every other file, the input
    among them, is left as it was. *)
Theorem other_files_untouched (log10 : float -> float) (fs : filesystem) (name : string) :
  name <> "output.txt"%string -> files (run log10 fs) !! name = fs !! name.
Proof.
  intros Hn. unfold run.
  destruct (fs !! "deploy_data.txt"%string) as [text|]; [|reflexivity].
  destruct (compute text) as [[c h]|e]; [|reflexivity].
  destruct (report log10 c h _) as [r s]. cbn [files].
  now rewrite lookup_insert_ne.
Qed.

Lemma other_files_untouched_witness :
  files (run log10_series (input worked_example_lines)) !! "deploy_data.txt"%string
  = Some (text_of worked_example_lines).
Proof.
  rewrite (other_files_untouched log10_series (input worked_example_lines)
             "deploy_data.txt"%string ltac:(discriminate)).
  vm_compute. reflexivity.
Defined.

(** X19: running the script again in the file system a run has left gives the
    same outcome and leaves the same file system: the script never reads
    what it wrote. *)
Theorem rerun_same_outcome (log10 : float -> float) (fs : filesystem) :
  run log10 (files (run log10 fs)) = run log10 fs.
Proof.
  unfold run at 2 3.
  destruct (fs !! "deploy_data.txt"%string) as [text|] eqn:Ht.
  - destruct (compute text) as [[c h]|e] eqn:Hc.
    + destruct (report log10 c h _) as [r s] eqn:Hr. cbn [files].
      unfold run. rewrite lookup_insert_ne by discriminate.
      rewrite Ht, Hc, Hr. now rewrite insert_insert_eq.
    + cbn [files]. unfold run. now rewrite Ht, Hc.
  - cbn [files]. unfold run. now rewrite Ht.
Qed.

(** ** Taller obstructions *)

(** X20: raising obstructions never lowers tower A: when two configurations
    differ only in that the obstructions of the second are at least as
    tall, the LOS and near-LOS heights of tower A computed for the first
    are at most those computed for the second. *)
Theorem taller_obstructions (c1 c2 : config) (h1 h2 : heights) :
  buildingA c1 = buildingA c2 -> distanceBtw c1 = distanceBtw c2 ->
  transmissionFrequency c1 = transmissionFrequency c2 ->
  noOfBuilding c1 = noOfBuilding c2 ->
  Forall2 (fun v1 v2 => D1 v1 = D1 v2 /\ Height v1 <= Height v2)
    (variables c1) (variables c2) ->
  clearance c1 = Ok h1 -> clearance c2 = Ok h2 ->
  py_le (LOStowerA (towersA h1)) (LOStowerA (towersA h2)) = true /\
  py_le (nearLOStowerA (towersA h1)) (nearLOStowerA (towersA h2)) = true.
Proof.
  intros HA Hd Hf HN Hv H1 H2.
  pose proof (clearance_towers_ok _ _ H1) as [M1 N1 _].
  pose proof (clearance_towers_ok _ _ H2) as [M2 N2 _].
  apply clearance_Ok in H1 as (F1 & W1 & Loop1 & _).
  apply clearance_Ok in H2 as (F2 & W2 & Loop2 & _).
  rewrite <- Hf, F1 in F2. injection F2 as F2. rewrite <- F2, W1 in W2. injection W2 as W2.
  rewrite <- W2 in Loop2.
  apply loop_candidates in Loop1 as (L1 & L1' & I1).
  apply loop_candidates in Loop2 as (L2 & L2' & I2).
  rewrite <- HN in L2, L2', I2. rewrite <- HA, <- Hd in I2.
  assert (P : forall i, (i < Z.to_nat (noOfBuilding c1))%nat ->
            exists x1 x2 y1 y2,
              nth_error (LOStowerAs (towersA h1)) i = Some x1 /\
              nth_error (LOStowerAs (towersA h2)) i = Some x2 /\ paired x1 x2 /\
              nth_error (nearLOStowerAs (towersA h1)) i = Some y1 /\
              nth_error (nearLOStowerAs (towersA h2)) i = Some y2 /\ paired y1 y2).
  { intros i Hi.
    destruct (I1 i Hi) as (v1 & r1 & k1 & Hv1 & Hr1 & Hk1 & X1 & Y1).
    destruct (I2 i Hi) as (v2 & r2 & k2 & Hv2 & Hr2 & Hk2 & X2 & Y2).
    destruct (Forall2_nth_error _ _ _ _ _ _ Hv Hv1 Hv2) as [ED EH].
    rewrite (radius_D1 _ _ _ _ ED), Hr2 in Hr1. injection Hr1 as <-.
    assert (Hk : (k1 <=? k2)%float = true)
      by (eapply int_to_float_mono; [|exact Hk1 | exact Hk2]; lia).
    apply int_to_float_Ok in Hk1 as [_ Fk1], Hk2 as [_ Fk2].
    do 4 eexists. repeat split; try eassumption; now apply add_mono_l. }
  split.
  - apply (max_of_mono _ _ _ _ M1 M2). intros i x1 Hx1.
    assert (Hi : (i < Z.to_nat (noOfBuilding c1))%nat)
      by (rewrite <- L1; apply nth_error_Some; congruence).
    destruct (P i Hi) as (x1' & x2 & _ & _ & E1 & E2 & Hp & _).
    exists x2. split; [exact E2 | congruence].
  - apply (max_of_mono _ _ _ _ N1 N2). intros i y1 Hy1.
    assert (Hi : (i < Z.to_nat (noOfBuilding c1))%nat)
      by (rewrite <- L1'; apply nth_error_Some; congruence).
    destruct (P i Hi) as (_ & _ & y1' & y2 & _ & _ & _ & E1 & E2 & Hp).
    exists y2. split; [exact E2 | congruence].
Qed.

Lemma taller_obstructions_witness :
  exists h2,
    clearance worked_example_taller = Ok h2 /\
    py_le (LOStowerA (towersA worked_example_result)) (LOStowerA (towersA h2)) = true.
Proof.
  destruct (clearance worked_example_taller) as [h2|e] eqn:H2;
    [|vm_compute in H2; discriminate].
  exists h2. split; [reflexivity|].
  refine (proj1 (taller_obstructions worked_example worked_example_taller
                   worked_example_result h2 eq_refl eq_refl eq_refl eq_refl _
                   worked_example_clearance H2)).
  repeat constructor; cbn; lia.
Defined.

(** ** Writing the reports *)

(** X21: once the heights are computed, writing the two reports fails only when
    [buildingA - buildingB] is too large for a float, on OverflowError: the
    indices of the GAP lines are always in range. *)
Theorem reports_fail_only_on_overflow (c : config) (h : heights) :
  clearance c = Ok h ->
  (exists s, report_heights c h io0 = (Ok tt, s)) \/
  (exists s, report_heights c h io0 = (Raise OverflowError, s) /\
             int_to_float (buildingA c - buildingB c) = Raise OverflowError).
Proof.
  intros H. destruct (report_heights c h io0) as [[[]|e] s] eqn:Hr.
  - left. eauto.
  - right. destruct (report_heights_Raise c h s e H Hr) as [-> Ho]. eauto.
Qed.

Lemma reports_fail_only_on_overflow_witness :
  clearance worked_example = Ok worked_example_result /\
  exists s, report_heights worked_example worked_example_result io0 = (Ok tt, s).
Proof.
  split; [exact worked_example_clearance|].
  destruct (reports_fail_only_on_overflow worked_example worked_example_result
              worked_example_clearance) as [H | (s & _ & H)];
    [exact H | vm_compute in H; discriminate].
Defined.

(** ** Inputs on which the script succeeds *)

(** X22: the run ends normally on a plain text input that is read without
    error when the frequency is positive, the path length is positive,
    every obstruction stands between the two buildings, the path length and
    the differences of heights are at most [2 ^ 1023] in magnitude, and the
    path loss is defined. *)
Theorem valid_input_succeeds (log10 : float -> float) (fs : filesystem) (text : string)
  (c : config) (att : float) :
  fs !! "deploy_data.txt"%string = Some text ->
  plain text = true ->
  read_config (readlines text) = Ok c ->
  (0 <? transmissionFrequency c * 1000000)%float = true ->
  0 < distanceBtw c <= 2 ^ 1023 ->
  Z.abs (buildingA c - buildingB c) <= 2 ^ 1023 ->
  Forall (fun v => 0 <= D1 v <= distanceBtw c /\
                   Z.abs (Height v - buildingA c) <= 2 ^ 1023) (variables c) ->
  attenuation log10 (transmissionFrequency c * 1000000)%float (distanceBtw c) = Ok att ->
  exists h,
    compute text = Ok (c, h) /\
    exception (run log10 fs) = None /\
    console (run log10 fs) = [att].
Proof.
  intros Ht _ Hc Hf Hd HB Hv Ha.
  pose proof (read_config_Ok _ _ Hc) as (_ & _ & _ & _ & _ & Hl & _).
  set (f := (transmissionFrequency c * 1000000)%float) in *.
  assert (Hf0 : (f =? 0)%float = false).
  { rewrite ltb_SF in Hf. rewrite FloatAxioms.eqb_spec.
    change (Prim2SF 0) with (S754_zero false) in *.
    now destruct (Prim2SF f) as [[]|[]| |[] m e]. }
  destruct (loop_succeeds c (300000000 / f) Hl) as [t Hloop].
  { intros v Iv. rewrite List.Forall_forall in Hv. destruct (Hv v Iv) as [H1 H2].
    destruct (radius_succeeds (distanceBtw c) (300000000 / f) v Hd H1
                (wavelength_nonneg f Hf)) as [r Hr].
    destruct (int_to_float_bounded _ H2) as [k Hk]. eauto. }
  destruct (int_to_float_bounded _ HB) as [k Hk].
  assert (HlosB : exists b, int_add (buildingA c - buildingB c) (LOStowerA t) = Ok b).
  { destruct (LOStowerA t); cbn [int_add]; [eauto|].
    unfold int_add_float. rewrite Hk. cbn [bind]. eauto. }
  assert (HnlosB : exists b, int_add (buildingA c - buildingB c) (nearLOStowerA t) = Ok b).
  { destruct (nearLOStowerA t); cbn [int_add]; [eauto|].
    unfold int_add_float. rewrite Hk. cbn [bind]. eauto. }
  destruct HlosB as [b Hb], HnlosB as [b' Hb'].
  set (h := {| frequencyHz := f; waveLength := (300000000 / f)%float; towersA := t;
               LOStowerB := b; nearLOStowerB := b' |}).
  assert (Hcl : clearance c = Ok h).
  { unfold clearance. rewrite float_mul_int_1000000. cbn [bind]. fold f.
    unfold int_truediv_float. change (int_to_float 300000000) with (Ok 300000000%float).
    cbn [bind]. rewrite Hf0. cbn [bind]. rewrite Hloop. cbn [bind].
    rewrite Hb. cbn [bind]. rewrite Hb'. reflexivity. }
  assert (Hcomp : compute text = Ok (c, h))
    by (unfold compute; rewrite Hc; cbn [bind]; now rewrite Hcl).
  exists h. split; [exact Hcomp|].
  rewrite (run_eq log10 fs text c h Ht Hcomp), report_eq.
  destruct (report_heights c h io0) as [[[]|e] s] eqn:Hr.
  - cbn [frequencyHz h]. rewrite Ha. cbn [exception console raised printed].
    pose proof (silent_report_heights c h io0) as Hs. rewrite Hr in Hs.
    cbn [snd] in Hs. rewrite Hs. split; reflexivity.
  - apply (report_heights_Raise c h s e Hcl) in Hr as [_ Hr]. congruence.
Qed.

Lemma valid_input_succeeds_witness :
  plain (text_of worked_example_lines) = true /\
  read_config (readlines (text_of worked_example_lines)) = Ok worked_example /\
  exists att h,
    attenuation log10_series (2400 * 1000000)%float 2000 = Ok att /\
    compute (text_of worked_example_lines) = Ok (worked_example, h) /\
    exception (run log10_series (input worked_example_lines)) = None /\
    console (run log10_series (input worked_example_lines)) = [att].
Proof.
  assert (Hc : read_config (readlines (text_of worked_example_lines)) = Ok worked_example)
    by (vm_compute; reflexivity).
  split; [vm_compute; reflexivity|]. split; [exact Hc|].
  destruct (attenuation log10_series (2400 * 1000000)%float 2000) as [att|e] eqn:Ha;
    [|vm_compute in Ha; discriminate].
  assert (Hv : Forall (fun v => 0 <= D1 v <= distanceBtw worked_example /\
                      Z.abs (Height v - buildingA worked_example) <= 2 ^ 1023)
                 (variables worked_example)).
  { assert (0 < 2 ^ 1023) by (apply Z.pow_pos_nonneg; lia).
    repeat constructor; cbn; lia. }
  assert (H1 : 0 < 2 ^ 1023) by (apply Z.pow_pos_nonneg; lia).
  assert (H2 : 2000 <= 2 ^ 1023) by (apply Z.leb_le; vm_compute; reflexivity).
  destruct (valid_input_succeeds log10_series (input worked_example_lines)
              (text_of worked_example_lines) worked_example att
              ltac:(vm_compute; reflexivity) ltac:(vm_compute; reflexivity)
              Hc ltac:(vm_compute; reflexivity)
              ltac:(cbn; lia) ltac:(cbn; lia) Hv Ha) as (h & Hcomp & He & Hp).
  exists att, h. auto.
Defined.
